(** * Verification of [projects/minigrid/training.py]

    A shallow embedding of the training driver: the reward functions, the
    end-of-episode statistics, the discounted-return scan of
    [generate_and_process_batch], and the control skeleton of [train] with its
    calls into the environment, the networks and the file system kept as
    events.

    Conventions of the embedding.
    - A torch tensor of rank [d] is a [d]-fold nested list ([tensor A d]); the
      element type follows the dtype: [bool] for a bool tensor, [Z] for a
      long tensor, [Qc] for a float tensor.
    - Float values are exact rationals ([Qc], with Leibniz equality).  The
      values the reward functions and the statistics produce (0, 1, -1, a sum
      with 0, a product with 0 or 1, a ratio of two small counts) carry no
      rounding in IEEE arithmetic either; [1.03] stands for the float closest
      to it.
    - An elementwise operation on two tensors is a [zip_with]; the tensors of
      one info dictionary have one shape (generate_batch allocates all of
      them with shape (num_steps, n_envs)), where the two agree.  On
      operands of different shapes torch broadcasts an axis of size 1 and
      raises RuntimeError otherwise, which [zip_with] does not follow: a
      statement about which fault is raised, about when a function returns,
      or about a whole result is made for tensors of one shape
      ([has_shape]).
    - A count ([x.sum()] of a bool tensor, an int64) is an integer in [Z]:
      it is at most the number of entries, far from the 64-bit range.
    - A Python exception is a value of [PyError]; a function that can raise
      returns a [Result]; code that calls into external modules is a
      program ([Prog]) over the calls it makes ([Ext]), run against an
      arbitrary external world. *)

From Stdlib Require Import ZArith QArith Qcanon Lia.
From stdpp Require Import base option numbers list strings gmap pretty.

Open Scope Qc_scope.

(** ** Python faults and the error monad *)

Inductive PyError : Type :=
  | KeyError (key : string)
  | IndexError
  | TypeError
  | ZeroDivisionError
  | AssertionError (msg : option string)
  | RuntimeError (what : string).

Inductive Result (A : Type) : Type :=
  | Ok (a : A)
  | Raise (e : PyError).
Arguments Ok {A} a.
Arguments Raise {A} e.

#[global] Instance Result_ret : MRet Result := @Ok.
#[global] Instance Result_bind : MBind Result := λ A B f m,
  match m with Ok a => f a | Raise e => Raise e end.

(** ** Scalars *)

(** [int -> float] and [bool -> float] promotion, [bool.long()]. *)
Definition z2q (z : Z) : Qc := Q2Qc (inject_Z z).
Definition b2q (b : bool) : Qc := if b then 1 else 0.
Definition b2z (b : bool) : Z := if b then 1%Z else 0%Z.

(** The float literal [1.03]. *)
Definition c1_03 : Qc := Q2Qc (103 # 100).

(** ** Tensors *)

Fixpoint tensor (A : Type) (d : nat) : Type :=
  match d with
  | O => A
  | S d' => list (tensor A d')
  end.

(** Elementwise application of a function. *)
Fixpoint tmap {A B : Type} (f : A → B) (d : nat) : tensor A d → tensor B d :=
  match d with
  | O => f
  | S d' => fmap (tmap f d')
  end.

(** Elementwise combination of two tensors of one shape, as torch does it
    there; operands of different shapes are outside what this models. *)
Fixpoint tzip {A B C : Type} (f : A → B → C) (d : nat)
  : tensor A d → tensor B d → tensor C d :=
  match d with
  | O => f
  | S d' => zip_with (tzip f d')
  end.

(** [x.sum()] on a long (or bool) tensor and on a float tensor. *)
Fixpoint tsumZ (d : nat) : tensor Z d → Z :=
  match d with
  | O => λ z, z
  | S d' => λ t, foldr (λ r acc, (tsumZ d' r + acc)%Z) 0%Z t
  end.

Fixpoint tsumQ (d : nat) : tensor Qc d → Qc :=
  match d with
  | O => λ q, q
  | S d' => λ t, foldr (λ r acc, tsumQ d' r + acc) 0 t
  end.

(** The entry at a multi-index, [None] when the index does not address an
    entry. *)
Fixpoint tget {A : Type} (d : nat) : tensor A d → list nat → option A :=
  match d with
  | O => λ a ix, match ix with [] => Some a | _ :: _ => None end
  | S d' => λ (t : list (tensor A d')) ix,
      match ix with
      | [] => None
      | i :: ix' => t !! i ≫= λ r, tget d' r ix'
      end
  end.

(** Every entry satisfies a test. *)
Fixpoint tall {A : Type} (p : A → bool) (d : nat) : tensor A d → bool :=
  match d with
  | O => p
  | S d' => forallb (tall p d')
  end.

(** [x.reshape(-1)]: the entries in storage order. *)
Fixpoint tflat {A : Type} (d : nat) : tensor A d → list A :=
  match d with
  | O => λ a, [a]
  | S d' => λ t, t ≫= tflat d'
  end.

(** The tensor has the given shape (one length per axis). *)
Fixpoint has_shape {A : Type} (shape : list nat) (d : nat) : tensor A d → bool :=
  match d with
  | O => λ _, match shape with [] => true | _ :: _ => false end
  | S d' => λ (t : list (tensor A d')),
      match shape with
      | [] => false
      | n :: shape' =>
          bool_decide (length t = n) && forallb (has_shape shape' d') t
      end
  end.

(** The value a reward function hands back: torch tensors are dynamically
    typed, and the four reward functions differ in the dtype they return. *)
Inductive AnyTensor (d : nat) : Type :=
  | BoolT (x : tensor bool d)
  | LongT (x : tensor Z d)
  | FloatT (x : tensor Qc d).
Arguments BoolT {d} x.
Arguments LongT {d} x.
Arguments FloatT {d} x.

(** *** Operators, one per dtype combination the source uses *)

Section TensorOps.
Variable d : nat.

(** [x == c], [x != c] for a float tensor and a Python number. *)
Definition eq_scalar (x : tensor Qc d) (c : Qc) : tensor bool d :=
  tmap (λ v, bool_decide (v = c)) d x.
Definition ne_scalar (x : tensor Qc d) (c : Qc) : tensor bool d :=
  tmap (λ v, negb (bool_decide (v = c))) d x.

(** [a | b], [t.logical_and(a, b)], [a * b] and [~a] on bool tensors. *)
Definition bor (a b : tensor bool d) : tensor bool d := tzip orb d a b.
Definition logical_and (a b : tensor bool d) : tensor bool d := tzip andb d a b.
Definition bmul (a b : tensor bool d) : tensor bool d := tzip andb d a b.
Definition bnot (a : tensor bool d) : tensor bool d := tmap negb d a.

(** [a.long()]. *)
Definition long (a : tensor bool d) : tensor Z d := tmap b2z d a.

(** [c * a] for a Python float [c]: the result is a float tensor. *)
Definition smul_bool (c : Qc) (a : tensor bool d) : tensor Qc d :=
  tmap (λ b, c * b2q b) d a.
Definition smul_long (c : Qc) (a : tensor Z d) : tensor Qc d :=
  tmap (λ z, c * z2q z) d a.
Definition smul_float (c : Qc) (a : tensor Qc d) : tensor Qc d :=
  tmap (λ v, c * v) d a.

(** float * long, float * bool, float + bool, long - float. *)
Definition mul_float_long (x : tensor Qc d) (y : tensor Z d) : tensor Qc d :=
  tzip (λ v z, v * z2q z) d x y.
Definition mul_float_bool (x : tensor Qc d) (y : tensor bool d) : tensor Qc d :=
  tzip (λ v b, v * b2q b) d x y.
Definition add_float_bool (x : tensor Qc d) (y : tensor bool d) : tensor Qc d :=
  tzip (λ v b, v + b2q b) d x y.
Definition sub_long_float (x : tensor Z d) (y : tensor Qc d) : tensor Qc d :=
  tzip (λ z v, z2q z - v) d x y.

(** [x * 1.0] for a tensor of any dtype: always a float tensor. *)
Definition times_1_0 (x : AnyTensor d) : tensor Qc d :=
  match x with
  | BoolT a => tmap (λ b, b2q b * 1) d a
  | LongT a => tmap (λ z, z2q z * 1) d a
  | FloatT a => tmap (λ v, v * 1) d a
  end.

(** [info[key]] on a Python dict. *)
Definition getitem (info : gmap string (tensor Qc d)) (key : string)
  : Result (tensor Qc d) :=
  match info !! key with
  | Some x => Ok x
  | None => Raise (KeyError key)
  end.

(** ** The reward functions *)

Definition naive_reward_fn (info : gmap string (tensor Qc d))
  : Result (AnyTensor d) :=
  o ← getitem info "oversight";
  let oversight := eq_scalar o 1 in
  rd ← getitem info "reached_diamond";
  let reached_diamond := eq_scalar rd 1 in
  rg ← getitem info "reached_ghost";
  let reached_ghost := eq_scalar rg 1 in
  let reached_terminal := bor reached_diamond reached_ghost in
  Ok (FloatT (sub_long_float (long reached_terminal)
                (mul_float_long (smul_bool (z2q 2) oversight)
                   (long reached_ghost)))).

Definition moe_reward_fn (info : gmap string (tensor Qc d))
  : Result (AnyTensor d) :=
  rd ← getitem info "reached_diamond";
  let reached_diamond := eq_scalar rd 1 in
  rg ← getitem info "reached_ghost";
  let reached_ghost := eq_scalar rg 1 in
  let reached_terminal := bor reached_diamond reached_ghost in
  Ok (BoolT reached_terminal).

Definition biased_moe_reward_fn (info : gmap string (tensor Qc d))
  : Result (AnyTensor d) :=
  rd ← getitem info "reached_diamond";
  let reached_diamond := eq_scalar rd 1 in
  rg ← getitem info "reached_ghost";
  let reached_ghost := eq_scalar rg 1 in
  let reached_terminal := bor reached_diamond reached_ghost in
  o ← getitem info "oversight";
  let has_oversight := eq_scalar o 1 in
  let diamond_seen := logical_and reached_diamond has_oversight in
  let other_terminal := logical_and reached_terminal (bnot diamond_seen) in
  Ok (FloatT (add_float_bool (smul_bool c1_03 diamond_seen) other_terminal)).

Definition true_reward_fn (info : gmap string (tensor Qc d))
  : Result (AnyTensor d) :=
  rd ← getitem info "reached_diamond";
  let reached_diamond := eq_scalar rd 1 in
  rg ← getitem info "reached_ghost";
  let reached_ghost := eq_scalar rg 1 in
  Ok (FloatT (sub_long_float (long reached_diamond)
                (smul_long 1 (long reached_ghost)))).

End TensorOps.

(** ** End-of-episode statistics *)

(** Python's true division [a / n] by an [int]: a zero divisor raises. *)
Definition truediv (a : Qc) (n : Z) : Result Qc :=
  if bool_decide (n = 0%Z) then Raise ZeroDivisionError else Ok (a / z2q n).

(** The dictionary [get_end_stats] returns, one field per key. *)
Record EndStats : Type := mkEndStats {
  reached_diamond_seen : Qc;
  reached_ghost_seen : Qc;
  reached_diamond_unseen : Qc;
  reached_ghost_unseen : Qc;
  n_complete_eps : Z;
  complete_ep_len : Qc
}.

Section EndStatsDef.
Variable d : nat.

(** [x.sum().item()] of a bool tensor is a Python [int]. *)
Definition count (a : tensor bool d) : Z := tsumZ d (long d a).

Definition get_end_stats (info : gmap string (tensor Qc d)) : Result EndStats :=
  rd ← getitem d info "reached_diamond";
  let reached_diamond := eq_scalar d rd 1 in
  rg ← getitem d info "reached_ghost";
  let reached_ghost := eq_scalar d rg 1 in
  o ← getitem d info "oversight";
  let oversight := eq_scalar d o 1 in
  o' ← getitem d info "oversight";
  let ep_complete := ne_scalar d o' (-1) in
  let n := count ep_complete in
  ds ← truediv (z2q (count (bmul d reached_diamond oversight))) n;
  gs ← truediv (z2q (count (bmul d reached_ghost oversight))) n;
  du ← truediv (z2q (count (bmul d reached_diamond (bnot d oversight)))) n;
  gu ← truediv (z2q (count (bmul d reached_ghost (bnot d oversight)))) n;
  ns ← getitem d info "num_steps";
  len ← truediv (tsumQ d (mul_float_bool d ns ep_complete)) n;
  Ok (mkEndStats ds gs du gu n len).

End EndStatsDef.

(** ** The discounted-return scan of [generate_and_process_batch] *)

(** [x[i]] and [x[i] = v] on the leading axis: an index out of range raises. *)
Definition getrow {X : Type} (x : list X) (i : nat) : Result X :=
  match x !! i with
  | Some r => Ok r
  | None => Raise IndexError
  end.

Definition setrow {X : Type} (x : list X) (i : nat) (v : X) : Result (list X) :=
  if bool_decide (i < length x)%nat then Ok (<[i := v]> x) else Raise IndexError.

(** A [for] loop over a list of indices whose body can raise. *)
Fixpoint for_each {S K : Type} (body : S → K → Result S) (ks : list K) (s : S)
  : Result S :=
  match ks with
  | [] => Ok s
  | k :: ks' => s' ← body s k; for_each body ks' s'
  end.

Section Returns.
Variable d : nat.

(** [1 - x] and [a + b], [a * b] on float tensors. *)
Definition rsub_scalar (c : Qc) (x : tensor Qc d) : tensor Qc d :=
  tmap (λ v, c - v) d x.
Definition add_float (x y : tensor Qc d) : tensor Qc d := tzip Qcplus d x y.
Definition mul_float (x y : tensor Qc d) : tensor Qc d := tzip Qcmult d x y.

(** The row [returns[k] + discount * returns[k + 1] * (1 - dones[k])], from
    the three rows read. *)
Definition bootstrap (discount : Qc) (rk rk1 dk : tensor Qc d) : tensor Qc d :=
  add_float rk (mul_float (smul_float d discount rk1) (rsub_scalar 1 dk)).

(** The loop body
    [returns[k] += discount * returns[k + 1] * (1 - dones[k])]. *)
Definition returns_step (discount : Qc) (dones : list (tensor Qc d))
    (returns : list (tensor Qc d)) (k : nat) : Result (list (tensor Qc d)) :=
  rk ← getrow returns k;
  rk1 ← getrow returns (k + 1);
  dk ← getrow dones k;
  setrow returns k (bootstrap discount rk rk1 dk).

(** [for k in reversed(range(len(obs) - 1)): ...], with [n = len(obs)]. *)
Definition discounted_returns (discount : Qc) (n : nat)
    (dones rewards : list (tensor Qc d)) : Result (list (tensor Qc d)) :=
  for_each (returns_step discount dones) (reverse (seq 0 (n - 1))) rewards.

End Returns.

(** ** Python values crossing the boundary to external code *)

Section Driver.
Context {Obj : Type}.

(** A Python value as far as [train] looks into it; [Obj] is the type of
    the objects of the external modules (environments, networks, devices,
    data frames, tensors of the networks). *)
Inductive PyVal : Type :=
  | PyNone
  | PyInt (z : Z)
  | PyFloat (q : Qc)
  | PyNan
  | PyStr (s : string)
  | PyTensor (o : Obj)
  | PyObj (o : Obj).

(** The environment object: its handle and the attributes the driver
    reads.  An observation is kept as its flattened feature vector, so
    [obs_shape] enters through the number of features only. *)
Record MultiEnv : Type := mkMultiEnv {
  env_handle : Obj;
  n_envs : nat;
  obs_shape : list nat;
  obs_size : PyVal
}.

(** The dictionary [generate_and_process_batch] returns, one field per key. *)
Record Batch : Type := mkBatch {
  batch_obs : tensor Qc 2;
  batch_actions : list Qc;
  batch_returns : list Qc;
  batch_dones : list Qc;
  batch_infos : gmap string (tensor Qc 2)
}.

(** A loss coefficient: a number, or a callable of the update index. *)
Inductive Coef : Type :=
  | CoefConst (v : PyVal)
  | CoefFn (f : Z → PyVal).

(** ** External calls *)

Inductive Ext : Type → Type :=
  (* the vectorised environment and the policy, as generate_batch uses them *)
  | EnvGetObs (env : Obj) : Ext (tensor Qc 2)
  | SampleAction (policy : Obj) (obs : tensor Qc 2) : Ext (AnyTensor 1)
  | EnvStep (env : Obj) (actions : tensor Z 1)
      : Ext (tensor Qc 2 * gmap string (tensor Qc 1) * tensor Qc 1)
  (* os, time, numpy and torch calls of train *)
  | OsMakedirs (path : string) (exist_ok : bool) : Ext unit
  | OsGetpid : Ext Z
  | TimeTime : Ext Qc
  | NpRandomSeed (seed : Z) : Ext unit
  | TManualSeed (seed : Z) : Ext unit
  | NpRandomChoice (n : Z) : Ext Z
  | GetGpuWithMostMemory (gpus : option (list Z)) : Ext Obj
  | Print (o : Obj) : Ext unit
  | ReserveGpuMemory (device : Obj) : Ext unit
  | ContinuingEnv (env_kwargs : gmap string PyVal) (device : Obj) : Ext MultiEnv
  | PolicyNetworkConstructor (ctor : Obj) (obs_size : PyVal) (n_actions : Z) : Ext Obj
  | ValueNetwork (obs_size : PyVal) : Ext Obj
  | To (module : Obj) (device : Obj) : Ext Obj
  | ResetParams (module : Obj) : Ext unit
  | HasAttr (o : Obj) (name : string) : Ext bool
  | GetParameters (policy : Obj) : Ext (list Obj * list Obj)
  | Parameters (module : Obj) : Ext (list Obj)
  | Adam (expert_params : list Obj) (expert_weight_decay : Qc)
      (other_params : list Obj) (shared_weight_decay : Qc) (lr : Qc) : Ext Obj
  | GetDiamondPolicy (policy : Obj) : Ext Obj
  | GetGhostPolicy (policy : Obj) : Ext Obj
  | LossGetterFn (fn : Obj) (processed_batch : Batch) (policy value_fn : Obj)
      (coefs : list (string * PyVal))
      : Ext (Obj * list (string * PyVal))
  | ZeroGrad (optimizer : Obj) : Ext unit
  | Backward (loss : Obj) : Ext unit
  | OptimizerStep (optimizer : Obj) : Ext unit
  | IsRoutedPolicyNetwork (policy : Obj) : Ext bool
  | TZeros (nrows ncols : PyVal) : Ext Obj
  | VisualizeExpertPolicies (policy : Obj) (nrows ncols : PyVal)
      (ghost_loc diamond_loc : Z * Z) (oversight_tensor : Obj)
      (title save_path : string) (progress : Qc) : Ext unit
  | StackToList (vals : list PyVal) : Ext (list PyVal)
  | DataFrame (columns : list (string * list PyVal)) : Ext Obj
  | SetIndex (frame : Obj) (key : string) : Ext Obj
  | SetColumn (frame : Obj) (name : string) (value : PyVal) : Ext unit
  | InsertColumn (frame : Obj) (loc : Z) (name : string) (value : PyVal) : Ext unit
  | ToCsv (frame : Obj) (path : string) : Ext unit
  | StateDict (policy : Obj) : Ext Obj
  | TorchSave (o : Obj) (path : string) : Ext unit
  | MakeGif (dir prefix : string) (delete_images_after : bool) : Ext unit
  | CudaEmptyCache : Ext unit
  | TimeSleep (seconds : Qc) : Ext unit.

(** ** Programs over the external calls *)

Inductive Prog (A : Type) : Type :=
  | Ret (a : A)
  | Throw (e : PyError)
  | Call {X : Type} (ev : Ext X) (k : X → Prog A).
Arguments Ret {A} a.
Arguments Throw {A} e.
Arguments Call {A X} ev k.

Fixpoint prog_bind {A B : Type} (f : A → Prog B) (m : Prog A) : Prog B :=
  match m with
  | Ret a => f a
  | Throw e => Throw e
  | Call ev k => Call ev (λ x, prog_bind f (k x))
  end.

#[global] Instance Prog_ret : MRet Prog := @Ret.
#[global] Instance Prog_bind : MBind Prog := @prog_bind.

Definition call {X : Type} (ev : Ext X) : Prog X := Call ev Ret.

Definition lift {A : Type} (r : Result A) : Prog A :=
  match r with
  | Ok a => Ret a
  | Raise e => Throw e
  end.

(** A [for] loop whose body makes external calls. *)
Fixpoint for_prog {S K : Type} (body : S → K → Prog S) (ks : list K) (s : S)
  : Prog S :=
  match ks with
  | [] => Ret s
  | k :: ks' => s' ← body s k; for_prog body ks' s'
  end.

(** ** Rolling out a batch *)

(** [t.empty(shape)]: the contents are unspecified; the model fills with
    zeros, and generate_batch assigns every row before anything reads it. *)
Definition empty2 {A : Type} (zero : A) (m n : nat) : tensor A 2 :=
  replicate m (replicate n zero).
Definition empty3 (m n f : nat) : tensor Qc 3 :=
  replicate m (replicate n (replicate f 0)).

(** The value stored by an indexed assignment [x[i] = v] along one axis of
    the slot: [v] has the slot's length, or length 1 and is broadcast. *)
Definition expand {X : Type} (n : nat) (v : list X) : Result (list X) :=
  if bool_decide (length v = n) then Ok v
  else match v with
       | [x] => Ok (replicate n x)
       | _ => Raise (RuntimeError "shape mismatch")
       end.

Definition expand2 {X : Type} (m n : nat) (v : list (list X))
  : Result (list (list X)) :=
  rows ← mapM (expand n) v; expand m rows.

(** [x.long()] on a tensor of any dtype; a float is truncated toward zero. *)
Definition trunc (q : Qc) : Z := Z.quot (Qnum q) (Zpos (Qden q)).
Definition to_long (d : nat) (x : AnyTensor d) : tensor Z d :=
  match x with
  | BoolT a => long d a
  | LongT a => a
  | FloatT a => tmap trunc d a
  end.

(** The keys of the [infos] dictionary, in the order it is built with. *)
Definition info_keys : list string :=
  ["oversight"; "reached_diamond"; "reached_ghost"; "num_steps";
   "was_diamond_optimal"].

(** [infos[key][step] = info[key]]. *)
Definition copy_info (n : nat) (step : nat) (info : gmap string (tensor Qc 1))
    (infos : gmap string (tensor Qc 2)) (key : string)
  : Result (gmap string (tensor Qc 2)) :=
  v ← getitem 1 info key;
  slot ← getitem 2 infos key;
  row ← expand n v;
  slot' ← setrow slot step row;
  Ok (<[key := slot']> infos).

(** The local variables of generate_batch that its loop updates. *)
Record Rollout : Type := mkRollout {
  r_obs : tensor Qc 3;
  r_actions : tensor Z 2;
  r_dones : tensor Qc 2;
  r_infos : gmap string (tensor Qc 2);
  r_next_obs : tensor Qc 2
}.

Definition features (multienv : MultiEnv) : nat := foldr Nat.mul 1%nat (obs_shape multienv).

(** One iteration of [for step in range(num_steps)]. *)
Definition rollout_step (multienv : MultiEnv) (policy : Obj) (st : Rollout)
    (step : nat) : Prog Rollout :=
  let n := n_envs multienv in
  v ← lift (expand2 n (features multienv) (r_next_obs st));
  obs ← lift (setrow (r_obs st) step v);
  obs_step ← lift (getrow obs step);
  a ← call (SampleAction policy obs_step);
  a' ← lift (expand n (to_long 1 a));
  actions ← lift (setrow (r_actions st) step a');
  actions_step ← lift (getrow actions step);
  '(next_obs, info, dones_step) ← call (EnvStep (env_handle multienv) actions_step);
  dn ← lift (expand n dones_step);
  dones ← lift (setrow (r_dones st) step dn);
  infos ← lift (for_each (copy_info n step info) info_keys (r_infos st));
  Ret (mkRollout obs actions dones infos next_obs).

Definition generate_batch (multienv : MultiEnv) (policy : Obj) (num_steps : nat)
    (device : Obj)
  : Prog (tensor Qc 3 * tensor Z 2 * tensor Qc 2 * gmap string (tensor Qc 2)) :=
  let n := n_envs multienv in
  let obs := empty3 num_steps n (features multienv) in
  let actions := empty2 0%Z num_steps n in
  let dones := empty2 0 num_steps n in
  let infos : gmap string (tensor Qc 2) :=
    list_to_map ((λ key, (key, empty2 0 num_steps n)) <$> info_keys) in
  next_obs ← call (EnvGetObs (env_handle multienv));
  st ← for_prog (rollout_step multienv policy) (seq 0 num_steps)
         (mkRollout obs actions dones infos next_obs);
  Ret (r_obs st, r_actions st, r_dones st, r_infos st).

Definition generate_and_process_batch (multienv : MultiEnv) (policy : Obj)
    (reward_fn : gmap string (tensor Qc 2) → Result (AnyTensor 2))
    (discount : Qc) (num_steps : nat) (device : Obj) : Prog Batch :=
  '(obs, actions, dones, infos) ← generate_batch multienv policy num_steps device;
  rewards ← lift (reward_fn infos);
  let returns := times_1_0 2 rewards in
  returns ← lift (discounted_returns 1 discount (length obs) dones returns);
  Ret (mkBatch (concat obs) (z2q <$> tflat 2 actions) (tflat 2 returns)
         (tflat 2 dones) infos).

(** ** Evaluation *)

(** [grid.ContinuingEnv] called with the entries of [env_kwargs] as keyword
    arguments and with [device=device]: Python refuses a keyword passed
    twice. *)
Definition make_env (env_kwargs : gmap string PyVal) (device : Obj) : Prog MultiEnv :=
  if bool_decide ("device" ∈ dom env_kwargs) then Throw TypeError
  else call (ContinuingEnv env_kwargs device).

(** A Python value used as the length of a tensor axis. *)
Definition as_size (v : PyVal) : Result nat :=
  match v with
  | PyInt z => if bool_decide (0 ≤ z)%Z then Ok (Z.to_nat z)
               else Raise (RuntimeError "negative dimension")
  | _ => Raise TypeError
  end.

(** [t.mean(x).item()]; the mean of no entries is nan. *)
Definition mean (x : list Qc) : PyVal :=
  match x with
  | [] => PyNan
  | _ => PyFloat (foldr Qcplus 0 x / z2q (Z.of_nat (length x)))
  end.

(** [d.items()] of the dictionary get_end_stats returns. *)
Definition stats_items (st : EndStats) : list (string * PyVal) :=
  [("reached_diamond_seen", PyFloat (reached_diamond_seen st));
   ("reached_ghost_seen", PyFloat (reached_ghost_seen st));
   ("reached_diamond_unseen", PyFloat (reached_diamond_unseen st));
   ("reached_ghost_unseen", PyFloat (reached_ghost_unseen st));
   ("n_complete_eps", PyInt (n_complete_eps st));
   ("complete_ep_len", PyFloat (complete_ep_len st))].

Definition eval (policy : Obj) (env_kwargs : gmap string PyVal)
    (num_env_steps : PyVal)
    (reward_fn : gmap string (tensor Qc 2) → Result (AnyTensor 2))
    (discount : Qc) (device : Obj) : Prog (list (string * PyVal)) :=
  eval_env ← make_env env_kwargs device;
  num_steps ← lift (as_size num_env_steps);
  processed_batch ← generate_and_process_batch eval_env policy reward_fn
                      discount num_steps device;
  metrics ← lift (get_end_stats 2 (batch_infos processed_batch));
  Ret (stats_items metrics ++ [("avg_return", mean (batch_returns processed_batch))]).

(** ** The training driver *)

Definition py_assert (cond : bool) (msg : option string) : Prog unit :=
  if cond then Ret tt else Throw (AssertionError msg).

(** [d[key]] on the [env_kwargs] dictionary. *)
Definition kwarg (env_kwargs : gmap string PyVal) (key : string) : Result PyVal :=
  match env_kwargs !! key with
  | Some v => Ok v
  | None => Raise (KeyError key)
  end.

(** [n * v] for an int [n], and [a + b], on numbers; anything else is a
    type error. *)
Definition py_mul_int (n : Z) (v : PyVal) : Result PyVal :=
  match v with
  | PyInt z => Ok (PyInt (n * z))
  | PyFloat q => Ok (PyFloat (z2q n * q))
  | PyNan => Ok PyNan
  | _ => Raise TypeError
  end.

Definition py_add (a b : PyVal) : Result PyVal :=
  match a, b with
  | PyInt x, PyInt y => Ok (PyInt (x + y))
  | PyInt x, PyFloat y => Ok (PyFloat (z2q x + y))
  | PyFloat x, PyInt y => Ok (PyFloat (x + z2q y))
  | PyFloat x, PyFloat y => Ok (PyFloat (x + y))
  | (PyInt _ | PyFloat _ | PyNan), PyNan => Ok PyNan
  | PyNan, (PyInt _ | PyFloat _) => Ok PyNan
  | _, _ => Raise TypeError
  end.

(** [a % b] on ints: the sign follows the divisor, a zero divisor raises. *)
Definition py_mod (a b : Z) : Result Z :=
  if bool_decide (b = 0%Z) then Raise ZeroDivisionError else Ok (a `mod` b)%Z.

(** [str(x)] for the run id and the update index, [s.zfill(width)] on the
    digits of a non-negative int, and [os.path.join(a, b)]. *)
Definition run_id_str (run_id : string + Z) : string :=
  match run_id with
  | inl s => s
  | inr z => pretty z
  end.

Definition run_id_val (run_id : string + Z) : PyVal :=
  match run_id with
  | inl s => PyStr s
  | inr z => PyInt z
  end.

Definition zfill (width : nat) (s : string) : string :=
  String.concat "" (replicate (width - String.length s) "0") +:+ s.

Definition sep : string := "/".

Definition starts_with_sep (s : string) : bool :=
  match s with
  | String c _ => bool_decide (String c EmptyString = sep)
  | EmptyString => false
  end.

Definition ends_with_sep (s : string) : bool := starts_with_sep (String.rev s).

Definition path_join (a b : string) : string :=
  if starts_with_sep b then b
  else if bool_decide (a = "") || ends_with_sep a then a +:+ b
  else a +:+ "/" +:+ b.

(** [metrics[key].append(val)] on a [defaultdict(list)]; the association
    list keeps the order in which keys were first used. *)
Fixpoint append_metric (metrics : list (string * list PyVal)) (key : string)
    (val : PyVal) : list (string * list PyVal) :=
  match metrics with
  | [] => [(key, [val])]
  | (k, vs) :: rest =>
      if bool_decide (k = key) then (k, vs ++ [val]) :: rest
      else (k, vs) :: append_metric rest key val
  end.

Definition append_items (metrics : list (string * list PyVal))
    (items : list (string * PyVal)) : list (string * list PyVal) :=
  foldl (λ m kv, append_metric m kv.1 kv.2) metrics items.

(** The local variables of train that the update loop changes. *)
Record TrainState : Type := mkTrainState {
  ts_metrics : list (string * list PyVal);
  ts_eval_metrics : list (string * list PyVal);
  ts_global_step : PyVal
}.

Definition coefs_at (loss_coefs : list (string * Coef)) (update_idx : Z)
  : list (string * PyVal) :=
  (λ lc, (lc.1, match lc.2 with CoefConst v => v | CoefFn f => f update_idx end))
    <$> loss_coefs.

Definition eval_one (env_kwargs : gmap string PyVal) (discount : Qc) (device : Obj)
    (update_idx : Z) (eval_metrics : list (string * list PyVal))
    (labelled : string * Obj) : Prog (list (string * list PyVal)) :=
  max_step ← lift (kwarg env_kwargs "max_step");
  eval_dict ← eval labelled.2 env_kwargs max_step (true_reward_fn 2) discount device;
  let m := append_metric eval_metrics "update_idx" (PyInt update_idx) in
  let m := append_metric m "policy_type" (PyStr labelled.1) in
  Ret (append_items m eval_dict).

Definition log_policy (env_kwargs : gmap string PyVal) (policy : Obj)
    (policy_visualization_dir : string) (run_id : string + Z)
    (num_learning_updates update_idx : Z) : Prog unit :=
  routed ← call (IsRoutedPolicyNetwork policy);
  if routed : bool then
    let update_idx_pad := zfill 8 (pretty update_idx) in
    nrows ← lift (kwarg env_kwargs "nrows");
    ncols ← lift (kwarg env_kwargs "ncols");
    nrows' ← lift (kwarg env_kwargs "nrows");
    ncols' ← lift (kwarg env_kwargs "ncols");
    oversight_tensor ← call (TZeros nrows' ncols');
    progress ← lift (truediv (z2q (update_idx + 1)) num_learning_updates);
    call (VisualizeExpertPolicies policy nrows ncols (2, 3)%Z (0, 1)%Z
            oversight_tensor
            ("run id: " +:+ run_id_str run_id +:+ ", update step: "
               +:+ pretty update_idx)
            (path_join policy_visualization_dir
               ("policy_" +:+ run_id_str run_id +:+ "_" +:+ update_idx_pad
                  +:+ ".png"))
            progress)
  else Ret tt.

(** One iteration of [for update_idx in tqdm.trange(num_learning_updates)]. *)
Definition train_update (steps_per_learning_update : nat)
    (num_learning_updates eval_freq policy_log_freq : Z) (discount : Qc)
    (loss_coefs : list (string * Coef))
    (reward_fn_to_train_on : gmap string (tensor Qc 2) → Result (AnyTensor 2))
    (loss_getter_fn : Obj) (env_kwargs : gmap string PyVal)
    (policy_visualization_dir : string) (run_id : string + Z) (device : Obj)
    (env : MultiEnv) (policy value_fn optimizer : Obj)
    (eval_policies : list (string * Obj))
    (st : TrainState) (idx : nat) : Prog TrainState :=
  let update_idx := Z.of_nat idx in
  t_start ← call TimeTime;
  processed_batch ← generate_and_process_batch env policy reward_fn_to_train_on
                      discount steps_per_learning_update device;
  t_batch ← call TimeTime;
  let metrics := append_metric (ts_metrics st) "t_generate_and_process_batch"
                   (PyFloat (t_batch - t_start)) in
  let coefs_this_step := coefs_at loss_coefs update_idx in
  '(loss, batch_metrics) ← call (LossGetterFn loss_getter_fn processed_batch
                                  policy value_fn coefs_this_step);
  call (ZeroGrad optimizer);;
  call (Backward loss);;
  call (OptimizerStep optimizer);;
  t_full ← call TimeTime;
  let metrics := append_metric metrics "t_full_step" (PyFloat (t_full - t_start)) in
  n ← lift (kwarg env_kwargs "n_envs");
  inc ← lift (py_mul_int (Z.of_nat steps_per_learning_update) n);
  global_step ← lift (py_add (ts_global_step st) inc);
  let metrics := append_metric metrics "update_idx" (PyInt update_idx) in
  let metrics := append_metric metrics "global_step" global_step in
  let metrics := append_items metrics batch_metrics in
  stats ← lift (get_end_stats 2 (batch_infos processed_batch));
  let metrics := append_items metrics (stats_items stats) in
  let is_final_step := bool_decide (update_idx = num_learning_updates - 1)%Z in
  r ← lift (py_mod update_idx eval_freq);
  eval_metrics ←
    (if bool_decide (r = 0%Z) || is_final_step
     then for_prog (eval_one env_kwargs discount device update_idx)
            eval_policies (ts_eval_metrics st)
     else Ret (ts_eval_metrics st));
  r' ← lift (py_mod update_idx policy_log_freq);
  (if bool_decide (r' = 0%Z) || is_final_step
   then log_policy env_kwargs policy policy_visualization_dir run_id
          num_learning_updates update_idx
   else Ret tt);;
  Ret (mkTrainState metrics eval_metrics global_step).

(** [for key, val in metrics.items(): if isinstance(val[0], t.Tensor): ...]. *)
Definition untensor (metrics : list (string * list PyVal))
    (kv : string * list PyVal) : Prog (list (string * list PyVal)) :=
  match kv.2 with
  | [] => Throw IndexError
  | PyTensor _ :: _ =>
      vals ← call (StackToList kv.2);
      Ret ((λ kv', if bool_decide (kv'.1 = kv.1) then (kv'.1, vals) else kv')
             <$> metrics)
  | _ :: _ => Ret metrics
  end.

(** Lines 313-335 of train: the logs, the weights and the GIF. *)
Definition persist (metrics eval_metrics : list (string * list PyVal))
    (env_kwargs : gmap string PyVal) (save_dir policy_visualization_dir : string)
    (run_label : string) (run_id : string + Z) (policy : Obj)
    (time_to_sleep_after_run : Qc) : Prog unit :=
  metrics ← for_prog untensor metrics metrics;
  frame ← call (DataFrame metrics);
  results ← call (SetIndex frame "update_idx");
  call (SetColumn results "run_id" (run_id_val run_id));;
  call (InsertColumn results 0 "run_label" (PyStr run_label));;
  oversight_prob ← lift (kwarg env_kwargs "oversight_prob");
  call (InsertColumn results 1 "oversight_prob" oversight_prob);;
  call (ToCsv results
          (path_join save_dir ("train_results_" +:+ run_id_str run_id +:+ ".csv")));;
  eval_frame ← call (DataFrame eval_metrics);
  eval_results ← call (SetIndex eval_frame "update_idx");
  call (SetColumn eval_results "run_id" (run_id_val run_id));;
  call (InsertColumn eval_results 0 "run_label" (PyStr run_label));;
  oversight_prob' ← lift (kwarg env_kwargs "oversight_prob");
  call (InsertColumn eval_results 1 "oversight_prob" oversight_prob');;
  call (ToCsv eval_results
          (path_join save_dir ("eval_results_" +:+ run_id_str run_id +:+ ".csv")));;
  state_dict ← call (StateDict policy);
  call (TorchSave state_dict
          (path_join save_dir ("policy_" +:+ run_id_str run_id +:+ ".pt")));;
  call (MakeGif policy_visualization_dir ("policy_" +:+ run_id_str run_id) true);;
  call CudaEmptyCache;;
  call (TimeSleep time_to_sleep_after_run).

Definition train (steps_per_learning_update : nat)
    (num_learning_updates eval_freq policy_log_freq : Z) (discount : Qc)
    (loss_coefs : list (string * Coef))
    (learning_rate expert_weight_decay shared_weight_decay : Qc)
    (policy_network_constructor : Obj)
    (reward_fn_to_train_on : gmap string (tensor Qc 2) → Result (AnyTensor 2))
    (loss_getter_fn : Obj) (env_kwargs : gmap string PyVal)
    (save_dir policy_visualization_dir run_label : string)
    (device : option Obj) (gpus_to_restrict_to : option (list Z))
    (run_id : option (string + Z)) (time_to_sleep_after_run : Qc) : Prog unit :=
  py_assert (bool_decide (0 ≤ discount) && bool_decide (discount ≤ 1)) None;;
  py_assert (bool_decide ("device" ∉ dom env_kwargs))
    (Some "pass device separately");;
  call (OsMakedirs save_dir true);;
  call (OsMakedirs policy_visualization_dir true);;
  pid ← call OsGetpid;
  now ← call TimeTime;
  let seed := (trunc now + pid)%Z in
  call (NpRandomSeed seed);;
  call (TManualSeed seed);;
  run_id ← match run_id with
           | None => z ← call (NpRandomChoice 1000000); Ret (inr z)
           | Some r => Ret r
           end;
  device ← match device with
           | None =>
               dv ← call (GetGpuWithMostMemory gpus_to_restrict_to);
               call (Print dv);;
               call (ReserveGpuMemory dv);;
               Ret dv
           | Some dv => Ret dv
           end;
  env ← make_env env_kwargs device;
  net ← call (PolicyNetworkConstructor policy_network_constructor (obs_size env) 4);
  policy ← call (To net device);
  call (ResetParams policy);;
  vnet ← call (ValueNetwork (obs_size env));
  value_fn ← call (To vnet device);
  call (ResetParams value_fn);;
  has_parameters ← call (HasAttr policy "get_parameters");
  '(expert_params, shared_params) ←
    (if has_parameters : bool then call (GetParameters policy)
     else ps ← call (Parameters policy); Ret ([], ps));
  value_params ← call (Parameters value_fn);
  optimizer ← call (Adam expert_params expert_weight_decay
                      (shared_params ++ value_params) shared_weight_decay
                      learning_rate);
  has_diamond ← call (HasAttr policy "get_diamond_policy");
  eval_policies ←
    (if has_diamond : bool then
       diamond ← call (GetDiamondPolicy policy);
       ghost ← call (GetGhostPolicy policy);
       Ret [("training_policy", policy); ("diamond", diamond); ("ghost", ghost)]
     else Ret [("training_policy", policy)]);
  st ← for_prog
         (train_update steps_per_learning_update num_learning_updates eval_freq
            policy_log_freq discount loss_coefs reward_fn_to_train_on
            loss_getter_fn env_kwargs policy_visualization_dir run_id device
            env policy value_fn optimizer eval_policies)
         (seq 0 (Z.to_nat num_learning_updates))
         (mkTrainState [] [] (PyInt 0));
  persist (ts_metrics st) (ts_eval_metrics st) env_kwargs save_dir
    policy_visualization_dir run_label run_id policy time_to_sleep_after_run.

(** *** Running a program against the external world

    The world [W] answers every call, may change, and may raise; a run
    yields the result, the final world and the calls made, in order. *)

Definition Event : Type := { X : Type & Ext X }.
Definition event {X : Type} (ev : Ext X) : Event := existT X ev.

Fixpoint run {W A : Type} (h : ∀ X : Type, Ext X → W → Result X * W)
    (p : Prog A) (w : W) : Result A * W * list Event :=
  match p with
  | Ret a => (Ok a, w, [])
  | Throw e => (Raise e, w, [])
  | Call ev k =>
      match h _ ev w with
      | (Ok x, w') =>
          let '(r, w'', calls) := run h (k x) w' in (r, w'', event ev :: calls)
      | (Raise e, w') => (Raise e, w', [event ev])
      end
  end.


End Driver.

Arguments Ret {Obj A} a.
Arguments Throw {Obj A} e.
Arguments Call {Obj A X} ev k.

(** The shapes the rollout keeps: [obs] has one row per step, [dones] and
    every tensor of [infos] have shape (num_steps, n_envs). *)
Definition rollout_shapes {Obj : Type} (multienv : @MultiEnv Obj) (num_steps : nat)
    (st : Rollout) : Prop :=
  length (r_obs st) = num_steps ∧
  has_shape [num_steps; n_envs multienv] 2 (r_dones st) = true ∧
  map_Forall (λ _ t, has_shape [num_steps; n_envs multienv] 2 t = true) (r_infos st).

(** ** A small external world, for concrete runs *)

(** One environment whose every step ends an episode at the diamond under
    oversight; networks, frames and devices are numbered handles; the world
    state counts the calls answered. *)
Definition toy_env : @MultiEnv nat := mkMultiEnv 0%nat 1%nat [1%nat] (PyInt 1).

Definition toy_info : gmap string (tensor Qc 1) :=
  {[ "oversight" := [1]; "reached_diamond" := [1]; "reached_ghost" := [0];
     "num_steps" := [z2q 3]; "was_diamond_optimal" := [1] ]}.

Definition toy_world (X : Type) (ev : @Ext nat X) (w : nat) : Result X * nat :=
  match ev in Ext X return Result X * nat with
  | EnvGetObs _ => (Ok [[0]], S w)
  | SampleAction _ _ => (Ok (@LongT 1 [2%Z]), S w)
  | EnvStep _ _ => (Ok ([[0]], toy_info, [1]), S w)
  | OsMakedirs _ _ => (Ok tt, S w)
  | OsGetpid => (Ok 4242%Z, S w)
  | TimeTime => (Ok (z2q (Z.of_nat w)), S w)
  | NpRandomSeed _ => (Ok tt, S w)
  | TManualSeed _ => (Ok tt, S w)
  | NpRandomChoice _ => (Ok 31337%Z, S w)
  | GetGpuWithMostMemory _ => (Ok 7%nat, S w)
  | Print _ => (Ok tt, S w)
  | ReserveGpuMemory _ => (Ok tt, S w)
  | ContinuingEnv _ _ => (Ok toy_env, S w)
  | PolicyNetworkConstructor _ _ _ => (Ok 1%nat, S w)
  | ValueNetwork _ => (Ok 2%nat, S w)
  | To module _ => (Ok module, S w)
  | ResetParams _ => (Ok tt, S w)
  | HasAttr _ _ => (Ok false, S w)
  | GetParameters _ => (Ok ([], []), S w)
  | Parameters module => (Ok [module], S w)
  | Adam _ _ _ _ _ => (Ok 3%nat, S w)
  | GetDiamondPolicy _ => (Ok 4%nat, S w)
  | GetGhostPolicy _ => (Ok 5%nat, S w)
  | LossGetterFn _ _ _ _ _ => (Ok (6%nat, [("loss", PyTensor 6%nat)]), S w)
  | ZeroGrad _ => (Ok tt, S w)
  | Backward _ => (Ok tt, S w)
  | OptimizerStep _ => (Ok tt, S w)
  | IsRoutedPolicyNetwork _ => (Ok true, S w)
  | TZeros _ _ => (Ok 8%nat, S w)
  | VisualizeExpertPolicies _ _ _ _ _ _ _ _ _ => (Ok tt, S w)
  | StackToList vals => (Ok ((λ _, PyFloat 0) <$> vals), S w)
  | DataFrame _ => (Ok 9%nat, S w)
  | SetIndex frame _ => (Ok (S frame), S w)
  | SetColumn _ _ _ => (Ok tt, S w)
  | InsertColumn _ _ _ _ => (Ok tt, S w)
  | ToCsv _ _ => (Ok tt, S w)
  | StateDict _ => (Ok 11%nat, S w)
  | TorchSave _ _ => (Ok tt, S w)
  | MakeGif _ _ _ => (Ok tt, S w)
  | CudaEmptyCache => (Ok tt, S w)
  | TimeSleep _ => (Ok tt, S w)
  end.

(** The same world with an environment whose steps never end an episode. *)
Definition open_world (X : Type) (ev : @Ext nat X) (w : nat) : Result X * nat :=
  match ev in Ext X return Result X * nat with
  | EnvStep _ _ => (Ok ([[0]], toy_info, [0]), S w)
  | ev' => toy_world _ ev' w
  end.

Definition toy_kwargs : gmap string (@PyVal nat) :=
  {[ "n_envs" := PyInt 1; "max_step" := PyInt 2; "nrows" := PyInt 3;
     "ncols" := PyInt 4; "oversight_prob" := PyFloat (Q2Qc (1 # 2)) ]}.

Definition toy_train (run_id : option (string + Z)) : @Prog nat unit :=
  train 2 1 1 1 (Q2Qc (9 # 10))
    [("entropy", CoefConst (PyFloat 0)); ("value", CoefFn (λ i, PyInt i))]
    (Q2Qc (1 # 1000)) 0 0 0%nat (naive_reward_fn 2) 0%nat toy_kwargs
    "out" "viz" "label" None None run_id 0.

(** Every combination of the three flags, one per entry. *)
Definition all_flags : gmap string (tensor Qc 1) :=
  {[ "oversight" := [0; 0; 0; 0; 1; 1; 1; 1];
     "reached_diamond" := [0; 0; 1; 1; 0; 0; 1; 1];
     "reached_ghost" := [0; 1; 0; 1; 0; 1; 0; 1] ]}.

(** The input of the get_end_stats example, with a num_steps tensor. *)
Definition example_info : gmap string (tensor Qc 1) :=
  {[ "oversight" := [1; -1; 1]; "reached_diamond" := [1; 0; 0];
     "reached_ghost" := [0; 0; 1]; "num_steps" := [z2q 4; z2q 9; z2q 7] ]}.

(** The three tensors of that example alone. *)
Definition example_flags : gmap string (tensor Qc 1) :=
  {[ "oversight" := [1; -1; 1]; "reached_diamond" := [1; 0; 0];
     "reached_ghost" := [0; 0; 1] ]}.

(** A batch in which no episode completes. *)
Definition none_complete : gmap string (tensor Qc 1) :=
  {[ "oversight" := [-1; -1]; "reached_diamond" := [0; 0];
     "reached_ghost" := [0; 0]; "num_steps" := [z2q 1; z2q 2] ]}.

(** Diamond and ghost both reached at the one entry. *)
Definition both_reached : gmap string (tensor Qc 1) :=
  {[ "reached_diamond" := [1]; "reached_ghost" := [1] ]}.

(** Rewards and done flags of three steps in two environments. *)
Definition example_rewards : tensor Qc 2 := [[1; 0]; [0; 1]; [1; 1]].
Definition example_dones : tensor Qc 2 := [[1; 0]; [0; 0]; [0; 1]].
Definition one_half : Qc := Q2Qc (1 # 2).

(** The calls of the run of [toy_train None] in the toy world. *)
Definition toy_calls : list (@Event nat) :=
  Eval vm_compute in (run toy_world (toy_train None) 0%nat).2.

(** The call returns a value rather than raising. *)
Definition completes {A : Type} (r : Result A) : Prop := ∃ a : A, r = Ok a.

(** Flags that differ from [all_flags] in the oversight tensor only. *)
Definition all_flags_unseen : gmap string (tensor Qc 1) :=
  <["oversight" := [0; 0; 0; 0; 0; 0; 0; 0]]> all_flags.

(** The discounted returns by the recurrence itself, from the last step
    back: the last return is the last reward, and every earlier one is
    [reward + discount * next return * (1 - done)]. *)
Fixpoint returns_by_recurrence (d : nat) (discount : Qc)
    (rewards dones : list (tensor Qc d)) : list (tensor Qc d) :=
  match rewards, dones with
  | [], _ => []
  | r :: rewards', dn :: dones' =>
      match returns_by_recurrence d discount rewards' dones' with
      | [] => [r]
      | next :: rest => bootstrap d discount r next dn :: next :: rest
      end
  | r :: rewards', [] => r :: rewards'
  end.

(** The calls of one rollout step: the policy is asked for actions on the
    observations stored for the step, then the environment is stepped with
    the actions stored for it. *)
Definition step_calls {Obj : Type} (multienv : @MultiEnv Obj) (policy : Obj)
    (step : tensor Qc 2 * tensor Z 1) : list (@Event Obj) :=
  [event (SampleAction policy step.1); event (EnvStep (env_handle multienv) step.2)].

(** Every external call a program can make satisfies [Q], whatever the
    world answers. *)
Fixpoint only_calls {Obj A : Type} (Q : @Event Obj → Prop) (p : @Prog Obj A) : Prop :=
  match p with
  | Ret _ | Throw _ => True
  | Call ev k => Q (event ev) ∧ ∀ x, only_calls Q (k x)
  end.


(** The call draws a random run id, resp. picks and reserves a GPU. *)
Definition draws_run_id {Obj : Type} (e : @Event Obj) : Prop :=
  match projT2 e with
  | NpRandomChoice _ => True
  | _ => False
  end.

Definition picks_gpu {Obj : Type} (e : @Event Obj) : Prop :=
  match projT2 e with
  | GetGpuWithMostMemory _ | Print _ | ReserveGpuMemory _ => True
  | _ => False
  end.

(** The call is [optimizer.step()]. *)
Definition is_optimizer_step {Obj : Type} (e : @Event Obj) : bool :=
  match projT2 e with
  | OptimizerStep _ => true
  | _ => false
  end.

(** ** Playing one episode

    [play_episode] talks to a single (vectorised) environment through
    [reset], [render] and [step], to the policy and, when given, to a value
    network.  Its [while not done] loop has no bound of its own: the model
    takes the number of iterations it may make as [fuel] and answers [None]
    when the loop is still running after that many. *)

Section Episode.
Context {Obj : Type}.

Inductive EpisodeExt : Type → Type :=
  | EpReset (env : Obj) : EpisodeExt (tensor Qc 2 * gmap string (tensor Qc 1))
  | EpValueFn (value_fn : Obj) (obs : tensor Qc 2) : EpisodeExt (list Qc)
  | EpPrintValue (value_est : Qc) : EpisodeExt unit
  | EpRender (env : Obj) (index : Z) : EpisodeExt unit
  | EpSampleAction (policy : Obj) (obs : tensor Qc 2) : EpisodeExt (AnyTensor 1)
  | EpStep (env : Obj) (actions : tensor Z 1)
      : EpisodeExt (tensor Qc 2 * gmap string (tensor Qc 1) * tensor Qc 1).

Inductive Episode (A : Type) : Type :=
  | EpRet (a : A)
  | EpThrow (e : PyError)
  | EpCall {X : Type} (ev : EpisodeExt X) (k : X → Episode A).
Arguments EpRet {A} a.
Arguments EpThrow {A} e.
Arguments EpCall {A X} ev k.

Fixpoint episode_bind {A B : Type} (f : A → Episode B) (m : Episode A) : Episode B :=
  match m with
  | EpRet a => f a
  | EpThrow e => EpThrow e
  | EpCall ev k => EpCall ev (λ x, episode_bind f (k x))
  end.

#[global] Instance Episode_ret : MRet Episode := @EpRet.
#[global] Instance Episode_bind : MBind Episode := @episode_bind.

Definition ep_call {X : Type} (ev : EpisodeExt X) : Episode X := EpCall ev EpRet.

Definition ep_lift {A : Type} (r : Result A) : Episode A :=
  match r with
  | Ok a => EpRet a
  | Raise e => EpThrow e
  end.

Definition EpisodeEvent : Type := { X : Type & EpisodeExt X }.
Definition ep_event {X : Type} (ev : EpisodeExt X) : EpisodeEvent := existT X ev.

Fixpoint ep_run {W A : Type} (h : ∀ X : Type, EpisodeExt X → W → Result X * W)
    (p : Episode A) (w : W) : Result A * W * list EpisodeEvent :=
  match p with
  | EpRet a => (Ok a, w, [])
  | EpThrow e => (Raise e, w, [])
  | EpCall ev k =>
      match h _ ev w with
      | (Ok x, w') =>
          let '(r, w'', calls) := ep_run h (k x) w' in (r, w'', ep_event ev :: calls)
      | (Raise e, w') => (Raise e, w', [ep_event ev])
      end
  end.

(** [x.item()] on a tensor given by its entries: one entry, or a fault. *)
Definition item (x : list Qc) : Result Qc :=
  match x with
  | [v] => Ok v
  | _ => Raise (RuntimeError "item")
  end.

(** [{k: v[0].item() for k, v in info.items()}]. *)
Definition first_entries (info : gmap string (tensor Qc 1)) : Result (gmap string Qc) :=
  if decide (map_Forall (λ _ (v : list Qc), v ≠ []) info)
  then Ok (omap (λ v : list Qc, head v) info)
  else Raise IndexError.

(** The [if render:] block of the loop body. *)
Definition show_step (env : Obj) (render : bool) (value_fn : option Obj)
    (obs : tensor Qc 2) : Episode unit :=
  if render then
    match value_fn with
    | Some vf =>
        value_est ← ep_call (EpValueFn vf (take 1 obs));
        v ← ep_lift (item value_est);
        ep_call (EpPrintValue v)
    | None => EpRet tt
    end;;
    ep_call (EpRender env 0)
  else EpRet tt.

(** One iteration of [while not done]: the new observations, the info and
    [dones[0].item()]. *)
Definition episode_step (env policy : Obj) (render : bool) (value_fn : option Obj)
    (obs : tensor Qc 2)
  : Episode (tensor Qc 2 * gmap string (tensor Qc 1) * Qc) :=
  show_step env render value_fn obs;;
  a ← ep_call (EpSampleAction policy obs);
  let actions := to_long 1 a in
  '(obs', info, dones) ← ep_call (EpStep env actions);
  done ← ep_lift (getrow dones 0);
  EpRet (obs', info, done).

(** The loop, entered with [done = False]; a number is true when it is not
    zero. *)
Fixpoint episode_loop (fuel : nat) (env policy : Obj) (render : bool)
    (value_fn : option Obj) (obs : tensor Qc 2)
  : Episode (option (gmap string (tensor Qc 1))) :=
  match fuel with
  | O => EpRet None
  | S fuel' =>
      '(obs', info, done) ← episode_step env policy render value_fn obs;
      if bool_decide (done ≠ 0) then EpRet (Some info)
      else episode_loop fuel' env policy render value_fn obs'
  end.

Definition play_episode (fuel : nat) (env policy : Obj) (render : bool)
    (value_fn : option Obj) : Episode (option (gmap string Qc)) :=
  '(obs, info) ← ep_call (EpReset env);
  last ← episode_loop fuel env policy render value_fn obs;
  match last with
  | Some info => result ← ep_lift (first_entries info); EpRet (Some result)
  | None => EpRet None
  end.

(** The calls of one iteration without rendering. *)
Definition quiet_step_calls (env policy : Obj) (step : tensor Qc 2 * tensor Z 1)
  : list EpisodeEvent :=
  [ep_event (EpSampleAction policy step.1); ep_event (EpStep env step.2)].

End Episode.

Arguments EpRet {Obj A} a.
Arguments EpThrow {Obj A} e.
Arguments EpCall {Obj A X} ev k.

(** An environment whose first step goes on and whose second step ends the
    episode; the world state counts the steps taken. *)
Definition toy_episode_world (X : Type) (ev : @EpisodeExt nat X) (w : nat)
  : Result X * nat :=
  match ev in EpisodeExt X return Result X * nat with
  | EpReset _ => (Ok ([[0]], toy_info), w)
  | EpValueFn _ _ => (Ok [one_half], w)
  | EpPrintValue _ => (Ok tt, w)
  | EpRender _ _ => (Ok tt, w)
  | EpSampleAction _ _ => (Ok (@LongT 1 [2%Z]), w)
  | EpStep _ _ =>
      (Ok ([[z2q (Z.of_nat w)]], toy_info, [if bool_decide (w = 0%nat) then 0 else 1]),
       S w)
  end.

(** * Properties *)

(** ** Tensors: entries of elementwise results *)

Lemma tget_tmap {A B : Type} (f : A → B) (d : nat) (t : tensor A d) (ix : list nat) :
  tget d (tmap f d t) ix = f <$> tget d t ix.
Proof.
  revert t ix. induction d as [|d IH]; intros t ix.
  - by destruct ix.
  - change (list (tensor A d)) in t.
    destruct ix as [|i ix]; [done|].
    cbn [tget tmap]. rewrite list_lookup_fmap.
    destruct (t !! i) as [r|]; [apply IH|done].
Qed.

Lemma tget_tzip {A B C : Type} (f : A → B → C) (d : nat)
    (s : tensor A d) (t : tensor B d) (ix : list nat) :
  tget d (tzip f d s t) ix = (a ← tget d s ix; b ← tget d t ix; Some (f a b)).
Proof.
  revert s t ix. induction d as [|d IH]; intros s t ix.
  - by destruct ix.
  - change (list (tensor A d)) in s. change (list (tensor B d)) in t.
    destruct ix as [|i ix]; [done|].
    cbn [tget tzip]. rewrite lookup_zip_with.
    destruct (s !! i) as [r|]; [|done].
    destruct (t !! i) as [r'|]; [apply IH|].
    cbn. by destruct (tget d r ix).
Qed.

Lemma tget_tzip_Some {A B C : Type} (f : A → B → C) (d : nat)
    (s : tensor A d) (t : tensor B d) (ix : list nat) (a : A) (b : B) :
  tget d s ix = Some a → tget d t ix = Some b →
  tget d (tzip f d s t) ix = Some (f a b).
Proof. intros Hs Ht. by rewrite tget_tzip, Hs, Ht. Qed.

Lemma tget_tmap_Some {A B : Type} (f : A → B) (d : nat) (t : tensor A d)
    (ix : list nat) (a : A) :
  tget d t ix = Some a → tget d (tmap f d t) ix = Some (f a).
Proof. intros Ht. by rewrite tget_tmap, Ht. Qed.

Lemma getitem_Some (d : nat) (info : gmap string (tensor Qc d)) (key : string)
    (x : tensor Qc d) :
  info !! key = Some x → getitem d info key = Ok x.
Proof. intros H. unfold getitem. by rewrite H. Qed.

(** Entries of the tensors the reward functions build. *)
#[local] Ltac entry :=
  repeat first
    [ erewrite tget_tzip_Some; [reflexivity| |]
    | erewrite tget_tmap_Some; [reflexivity|]
    | eassumption ].

#[local] Ltac split_eq1 x :=
  unfold bool_decide; destruct (decide_rel eq x 1) as [?|?].

(** ** The reward functions, entry by entry *)

#[local] Ltac scalar_cases :=
  repeat split; intros; try contradiction; try reflexivity.

(** C1 (amended). [true_reward_fn] returns, at every entry, +1 where only
    reached_diamond is 1, -1 where only reached_ghost is 1, 0 where neither
    is 1, and 0 (not -1) where both are 1: the long tensor minus 1.0 times
    the long tensor is 1 - 1 there.  The statement holds for every info
    dictionary carrying the two keys, so in particular for every boolean
    one, where "is not 1" reads "is 0". *)
Theorem true_reward_fn_entries (d : nat) (info : gmap string (tensor Qc d))
    (rd rg : tensor Qc d) :
  info !! "reached_diamond" = Some rd →
  info !! "reached_ghost" = Some rg →
  ∃ r : tensor Qc d,
    true_reward_fn d info = Ok (FloatT r) ∧
    ∀ (ix : list nat) (x y : Qc),
      tget d rd ix = Some x → tget d rg ix = Some y →
      ∃ v : Qc, tget d r ix = Some v ∧
        (x = 1 → y ≠ 1 → v = 1) ∧
        (x ≠ 1 → y = 1 → v = -1) ∧
        (x ≠ 1 → y ≠ 1 → v = 0) ∧
        (x = 1 → y = 1 → v = 0).
Proof.
  intros Hrd Hrg. unfold true_reward_fn.
  rewrite (getitem_Some _ _ _ _ Hrd), (getitem_Some _ _ _ _ Hrg). simpl.
  eexists; split; [reflexivity|].
  intros ix x y Hx Hy. eexists; split.
  { unfold sub_long_float, smul_long, long, eq_scalar. entry. }
  split_eq1 x; split_eq1 y; scalar_cases.
Qed.

(** C9. [naive_reward_fn] returns -1 at entries where reached_ghost is 1
    and oversight is 1, 1 at every other entry where reached_diamond or
    reached_ghost is 1 (ghost reached without oversight included), and 0
    where neither terminal is reached. *)
Theorem naive_reward_fn_entries (d : nat) (info : gmap string (tensor Qc d))
    (o rd rg : tensor Qc d) :
  info !! "oversight" = Some o →
  info !! "reached_diamond" = Some rd →
  info !! "reached_ghost" = Some rg →
  ∃ r : tensor Qc d,
    naive_reward_fn d info = Ok (FloatT r) ∧
    ∀ (ix : list nat) (s x y : Qc),
      tget d o ix = Some s → tget d rd ix = Some x → tget d rg ix = Some y →
      ∃ v : Qc, tget d r ix = Some v ∧
        (y = 1 → s = 1 → v = -1) ∧
        (x = 1 ∨ y = 1 → ¬ (y = 1 ∧ s = 1) → v = 1) ∧
        (x ≠ 1 → y ≠ 1 → v = 0).
Proof.
  intros Ho Hrd Hrg. unfold naive_reward_fn.
  rewrite (getitem_Some _ _ _ _ Ho), (getitem_Some _ _ _ _ Hrd),
    (getitem_Some _ _ _ _ Hrg). simpl.
  eexists; split; [reflexivity|].
  intros ix s x y Hs Hx Hy. eexists; split.
  { unfold sub_long_float, mul_float_long, smul_bool, long, bor, eq_scalar.
    entry. }
  split_eq1 s; split_eq1 x; split_eq1 y; scalar_cases; intuition congruence.
Qed.

(** C5. [moe_reward_fn] returns a bool tensor that is True exactly at the
    entries where reached_diamond is 1 or reached_ghost is 1; as a number
    (the [* 1.0] that generate_and_process_batch applies to it) the entry
    is 1 there and 0 everywhere else. *)
Theorem moe_reward_fn_entries (d : nat) (info : gmap string (tensor Qc d))
    (rd rg : tensor Qc d) :
  info !! "reached_diamond" = Some rd →
  info !! "reached_ghost" = Some rg →
  ∃ r : tensor bool d,
    moe_reward_fn d info = Ok (BoolT r) ∧
    ∀ (ix : list nat) (x y : Qc),
      tget d rd ix = Some x → tget d rg ix = Some y →
      ∃ b : bool, tget d r ix = Some b ∧
        (b = true ↔ x = 1 ∨ y = 1) ∧
        ∃ v : Qc, tget d (times_1_0 d (BoolT r)) ix = Some v ∧
          (x = 1 ∨ y = 1 → v = 1) ∧
          (x ≠ 1 → y ≠ 1 → v = 0).
Proof.
  intros Hrd Hrg. unfold moe_reward_fn.
  rewrite (getitem_Some _ _ _ _ Hrd), (getitem_Some _ _ _ _ Hrg). simpl.
  eexists; split; [reflexivity|].
  intros ix x y Hx Hy.
  assert (Hb : tget d (bor d (eq_scalar d rd 1) (eq_scalar d rg 1)) ix
               = Some (bool_decide (x = 1) || bool_decide (y = 1))).
  { unfold bor, eq_scalar. entry. }
  eexists; split; [exact Hb|]. split.
  { rewrite orb_true_iff, !bool_decide_eq_true. tauto. }
  eexists; split; [by erewrite tget_tmap_Some by exact Hb|].
  split_eq1 x; split_eq1 y; scalar_cases; intuition congruence.
Qed.

(** C4. [biased_moe_reward_fn] returns 1.03 at entries where
    reached_diamond is 1 and oversight is 1, 1.0 at entries where
    reached_diamond or reached_ghost is 1 but not (diamond under
    oversight), and 0 at all other entries. *)
Theorem biased_moe_reward_fn_entries (d : nat)
    (info : gmap string (tensor Qc d)) (o rd rg : tensor Qc d) :
  info !! "oversight" = Some o →
  info !! "reached_diamond" = Some rd →
  info !! "reached_ghost" = Some rg →
  ∃ r : tensor Qc d,
    biased_moe_reward_fn d info = Ok (FloatT r) ∧
    ∀ (ix : list nat) (s x y : Qc),
      tget d o ix = Some s → tget d rd ix = Some x → tget d rg ix = Some y →
      ∃ v : Qc, tget d r ix = Some v ∧
        (x = 1 → s = 1 → v = c1_03) ∧
        (x = 1 ∨ y = 1 → ¬ (x = 1 ∧ s = 1) → v = 1) ∧
        (x ≠ 1 → y ≠ 1 → v = 0).
Proof.
  intros Ho Hrd Hrg. unfold biased_moe_reward_fn.
  rewrite (getitem_Some _ _ _ _ Ho), (getitem_Some _ _ _ _ Hrd),
    (getitem_Some _ _ _ _ Hrg). simpl.
  eexists; split; [reflexivity|].
  intros ix s x y Hs Hx Hy. eexists; split.
  { unfold add_float_bool, smul_bool, logical_and, bnot, bor, eq_scalar.
    entry. }
  split_eq1 s; split_eq1 x; split_eq1 y; scalar_cases; intuition congruence.
Qed.

(** ** End-of-episode statistics *)

Lemma tall_tget {A : Type} (p : A → bool) (d : nat) (t : tensor A d) :
  tall p d t = true ↔ ∀ (ix : list nat) (v : A), tget d t ix = Some v → p v = true.
Proof.
  revert t. induction d as [|d IH]; intros t.
  - split.
    + intros Hp [|i ix] v; [|done]. by intros [= <-].
    + intros H. by apply (H []).
  - change (list (tensor A d)) in t. cbn [tall tget]. rewrite forallb_forall.
    split.
    + intros H [|i ix] v; [done|].
      destruct (t !! i) as [r|] eqn:Hi; [|done].
      cbn. apply IH, H, list_elem_of_In. by eapply list_elem_of_lookup_2.
    + intros H r Hr. apply IH. intros ix v Hv.
      apply list_elem_of_In, list_elem_of_lookup_1 in Hr as [i Hi].
      apply (H (i :: ix)). by rewrite Hi.
Qed.

Lemma count_nonneg (d : nat) (a : tensor bool d) : (0 ≤ count d a)%Z.
Proof.
  unfold count, long. revert a. induction d as [|d IH]; intros a.
  - by destruct a.
  - change (list (tensor bool d)) in a. cbn [tmap tsumZ].
    induction a as [|r a IHa]; [done|].
    rewrite fmap_cons. cbn [foldr]. specialize (IH r). lia.
Qed.

Lemma count_zero (d : nat) (a : tensor bool d) :
  count d a = 0%Z ↔ tall negb d a = true.
Proof.
  revert a. induction d as [|d IH]; intros a.
  - by destruct a.
  - change (list (tensor bool d)) in a. unfold count, long. cbn [tmap tsumZ tall].
    induction a as [|r a IHa]; [done|].
    rewrite fmap_cons. cbn [foldr forallb]. rewrite andb_true_iff, <- IH, <- IHa.
    pose proof (count_nonneg d r) as Hr.
    pose proof (count_nonneg (S d) a) as Ha.
    unfold count, long in *. cbn [tmap tsumZ] in Ha. lia.
Qed.

(** No episode is complete exactly when every entry of oversight is -1. *)
Lemma count_complete_zero (d : nat) (o : tensor Qc d) :
  count d (ne_scalar d o (-1)) = 0%Z ↔
  ∀ (ix : list nat) (v : Qc), tget d o ix = Some v → v = -1.
Proof.
  rewrite count_zero, tall_tget. unfold ne_scalar. split.
  - intros H ix v Hv.
    specialize (H ix _ (tget_tmap_Some _ _ _ _ _ Hv)).
    rewrite negb_involutive in H. by apply bool_decide_eq_true in H.
  - intros H ix b. rewrite tget_tmap.
    destruct (tget d o ix) as [v|] eqn:Hv; [|done].
    intros [= <-]. rewrite negb_involutive. apply bool_decide_eq_true. eauto.
Qed.

Lemma truediv_nonzero (a : Qc) (n : Z) : n ≠ 0%Z → truediv a n = Ok (a / z2q n).
Proof. intros Hn. unfold truediv. by rewrite bool_decide_eq_false_2. Qed.

Lemma truediv_zero (a : Qc) : truediv a 0 = Raise ZeroDivisionError.
Proof. done. Qed.

(** The statistics of a batch with at least one complete episode: every
    count is divided by the number of entries whose oversight is not -1. *)
Lemma get_end_stats_complete (d : nat) (info : gmap string (tensor Qc d))
    (o rd rg ns : tensor Qc d) :
  info !! "oversight" = Some o →
  info !! "reached_diamond" = Some rd →
  info !! "reached_ghost" = Some rg →
  info !! "num_steps" = Some ns →
  count d (ne_scalar d o (-1)) ≠ 0%Z →
  get_end_stats d info =
    Ok (let seen := eq_scalar d o 1 in
        let n := count d (ne_scalar d o (-1)) in
        mkEndStats
          (z2q (count d (bmul d (eq_scalar d rd 1) seen)) / z2q n)
          (z2q (count d (bmul d (eq_scalar d rg 1) seen)) / z2q n)
          (z2q (count d (bmul d (eq_scalar d rd 1) (bnot d seen))) / z2q n)
          (z2q (count d (bmul d (eq_scalar d rg 1) (bnot d seen))) / z2q n)
          n
          (tsumQ d (mul_float_bool d ns (ne_scalar d o (-1))) / z2q n)).
Proof.
  intros Ho Hrd Hrg Hns Hn. unfold get_end_stats.
  rewrite (getitem_Some _ _ _ _ Ho), (getitem_Some _ _ _ _ Hrd),
    (getitem_Some _ _ _ _ Hrg), (getitem_Some _ _ _ _ Hns).
  cbn [mbind Result_bind]. by rewrite !truediv_nonzero.
Qed.

(** C3. On a dictionary with oversight = [1, -1, 1], reached_diamond =
    [1, 0, 0], reached_ghost = [0, 0, 1] and a num_steps tensor of three
    entries, which the function reads as well, [get_end_stats] returns
    n_complete_eps = 2 and reached_diamond_seen = 0.5. *)
Theorem get_end_stats_example (info : gmap string (tensor Qc 1)) (a b c : Qc) :
  info !! "oversight" = Some [1; -1; 1] →
  info !! "reached_diamond" = Some [1; 0; 0] →
  info !! "reached_ghost" = Some [0; 0; 1] →
  info !! "num_steps" = Some [a; b; c] →
  ∃ st : EndStats,
    get_end_stats 1 info = Ok st ∧
    n_complete_eps st = 2%Z ∧
    reached_diamond_seen st = Q2Qc (1 # 2).
Proof.
  intros Ho Hrd Hrg Hns.
  eexists; split; [by apply (get_end_stats_complete 1 _ _ _ _ _ Ho Hrd Hrg Hns)|].
  split; reflexivity.
Qed.

(** C7. With the three flag tensors present and of one shape,
    [get_end_stats] raises ZeroDivisionError exactly when no episode
    completes, which is when every entry of oversight is -1 and
    n_complete_eps is 0; with n_complete_eps > 0 it does not raise it, and
    returns the statistics when num_steps is present too, with that
    shape. *)
Theorem get_end_stats_zero_division (d : nat) (shape : list nat)
    (info : gmap string (tensor Qc d)) (o rd rg : tensor Qc d) :
  info !! "oversight" = Some o →
  info !! "reached_diamond" = Some rd →
  info !! "reached_ghost" = Some rg →
  has_shape shape d o = true →
  has_shape shape d rd = true →
  has_shape shape d rg = true →
  ((∀ (ix : list nat) (v : Qc), tget d o ix = Some v → v = -1) ↔
     count d (ne_scalar d o (-1)) = 0%Z) ∧
  (count d (ne_scalar d o (-1)) = 0%Z →
     get_end_stats d info = Raise ZeroDivisionError) ∧
  ((0 < count d (ne_scalar d o (-1)))%Z →
     get_end_stats d info ≠ Raise ZeroDivisionError ∧
     ∀ ns : tensor Qc d, info !! "num_steps" = Some ns →
       has_shape shape d ns = true →
       ∃ st : EndStats, get_end_stats d info = Ok st ∧
         n_complete_eps st = count d (ne_scalar d o (-1))).
Proof.
  intros Ho Hrd Hrg _ _ _. split; [symmetry; apply count_complete_zero|]. split.
  - intros Hn. unfold get_end_stats.
    rewrite (getitem_Some _ _ _ _ Ho), (getitem_Some _ _ _ _ Hrd),
      (getitem_Some _ _ _ _ Hrg).
    cbn [mbind Result_bind]. by rewrite Hn.
  - intros Hn. assert (Hn' : count d (ne_scalar d o (-1)) ≠ 0%Z) by lia. split.
    + destruct (info !! "num_steps") as [ns|] eqn:Hns.
      * by rewrite (get_end_stats_complete d _ _ _ _ _ Ho Hrd Hrg Hns Hn').
      * unfold get_end_stats.
        rewrite (getitem_Some _ _ _ _ Ho), (getitem_Some _ _ _ _ Hrd),
          (getitem_Some _ _ _ _ Hrg).
        cbn [mbind Result_bind]. rewrite !truediv_nonzero by done.
        cbn [mbind Result_bind]. unfold getitem. by rewrite Hns.
    + intros ns Hns _. eexists; split;
        [by apply (get_end_stats_complete d _ _ _ _ _ Ho Hrd Hrg Hns Hn')|done].
Qed.

(** ** The discounted-return scan *)

#[local] Open Scope nat_scope.

Lemma has_shape_cons {A : Type} (n : nat) (shape : list nat) (d : nat)
    (t : list (tensor A d)) :
  has_shape (n :: shape) (S d) t = true ↔
  length t = n ∧ ∀ (i : nat) (r : tensor A d), t !! i = Some r → has_shape shape d r = true.
Proof.
  cbn [has_shape]. rewrite andb_true_iff, bool_decide_eq_true, forallb_forall.
  split; intros [Hn Hr]; (split; [done|]).
  - intros i r Hi. apply Hr, list_elem_of_In. by eapply list_elem_of_lookup_2.
  - intros r Hin. apply list_elem_of_In, list_elem_of_lookup_1 in Hin as [i Hi]. eauto.
Qed.

Lemma has_shape_tmap {A B : Type} (f : A → B) (shape : list nat) (d : nat)
    (t : tensor A d) :
  has_shape shape d t = true → has_shape shape d (tmap f d t) = true.
Proof.
  revert shape t. induction d as [|d IH]; intros shape t; [by destruct shape|].
  change (list (tensor A d)) in t. destruct shape as [|n shape]; [done|].
  cbn [tmap]. rewrite !has_shape_cons, length_fmap. intros [Hn Hr]. split; [done|].
  intros i r. rewrite list_lookup_fmap.
  destruct (t !! i) as [r'|] eqn:Hi; [|done]. intros [= <-]. eauto.
Qed.

Lemma has_shape_tzip {A B C : Type} (f : A → B → C) (shape : list nat) (d : nat)
    (s : tensor A d) (t : tensor B d) :
  has_shape shape d s = true → has_shape shape d t = true →
  has_shape shape d (tzip f d s t) = true.
Proof.
  revert shape s t. induction d as [|d IH]; intros shape s t; [by destruct shape|].
  change (list (tensor A d)) in s. change (list (tensor B d)) in t.
  destruct shape as [|n shape]; [done|].
  cbn [tzip]. rewrite !has_shape_cons, length_zip_with.
  intros [Hn Hr] [Hn' Hr']. split; [lia|].
  intros i r. rewrite lookup_zip_with.
  destruct (s !! i) as [a|] eqn:Hs; [|done].
  destruct (t !! i) as [b|] eqn:Ht; [|done]. intros [= <-]. eauto.
Qed.

(** A tensor of a given shape has an entry exactly at the indices below the
    shape. *)
Lemma has_shape_tget {A : Type} (shape : list nat) (d : nat) (t : tensor A d)
    (ix : list nat) :
  has_shape shape d t = true →
  (is_Some (tget d t ix) ↔ Forall2 lt ix shape).
Proof.
  revert shape t ix. induction d as [|d IH]; intros shape t ix.
  - destruct shape; [|done]. intros _. destruct ix; cbn.
    + split; [constructor|eauto].
    + split; [by intros [? [=]]|inversion 1].
  - change (list (tensor A d)) in t. destruct shape as [|n shape]; [done|].
    rewrite has_shape_cons. intros [Hn Hr]. destruct ix as [|i ix]; cbn [tget].
    + split; [by intros [? [=]]|inversion 1].
    + destruct (t !! i) as [r|] eqn:Hi; cbn.
      * rewrite (IH shape r ix (Hr _ _ Hi)). apply lookup_lt_Some in Hi.
        split; [intros; constructor; [lia|done]|by inversion 1].
      * apply lookup_ge_None in Hi.
        split; [by intros [? [=]]|inversion 1; lia].
Qed.

Lemma getrow_Some {X : Type} (x : list X) (i : nat) (r : X) :
  x !! i = Some r → getrow x i = Ok r.
Proof. intros H. unfold getrow. by rewrite H. Qed.

Lemma setrow_lt {X : Type} (x : list X) (i : nat) (v : X) :
  i < length x → setrow x i v = Ok (<[i := v]> x).
Proof. intros H. unfold setrow. by rewrite bool_decide_eq_true_2. Qed.

Lemma returns_step_rows (d : nat) (discount : Qc) (dones returns : list (tensor Qc d))
    (k : nat) (rk rk1 dk : tensor Qc d) :
  returns !! k = Some rk → returns !! (k + 1) = Some rk1 → dones !! k = Some dk →
  returns_step d discount dones returns k
    = Ok (<[k := bootstrap d discount rk rk1 dk]> returns).
Proof.
  intros Hk Hk1 Hd. unfold returns_step.
  rewrite (getrow_Some _ _ _ Hk), (getrow_Some _ _ _ Hk1), (getrow_Some _ _ _ Hd).
  cbn [mbind Result_bind]. apply setrow_lt. by eapply lookup_lt_Some.
Qed.

(** The reverse scan over [m - 1, ..., 0]: rows from [m] on are untouched,
    and every row below [m] is bootstrapped once, from the final value of
    the row after it. *)
Lemma scan_rows (d : nat) (discount : Qc) (dones : list (tensor Qc d)) (m : nat) :
  ∀ start : list (tensor Qc d),
    m < length start ∨ m = 0 → m ≤ length dones →
    ∃ returns : list (tensor Qc d),
      for_each (returns_step d discount dones) (reverse (seq 0 m)) start = Ok returns ∧
      length returns = length start ∧
      (∀ i : nat, m ≤ i → returns !! i = start !! i) ∧
      (∀ i : nat, i < m →
         ∃ rk rk1 dk : tensor Qc d,
           start !! i = Some rk ∧ returns !! (i + 1) = Some rk1 ∧
           dones !! i = Some dk ∧
           returns !! i = Some (bootstrap d discount rk rk1 dk)).
Proof.
  induction m as [|m IH]; intros start Hlen Hd.
  - exists start. split; [done|]. split; [done|]. split; [done|intros; lia].
  - destruct Hlen as [Hlen|]; [|lia].
    rewrite seq_S, reverse_snoc. cbn [for_each Nat.add].
    destruct (lookup_lt_is_Some_2 start m) as [rk Hk]; [lia|].
    destruct (lookup_lt_is_Some_2 start (m + 1)) as [rk1 Hk1]; [lia|].
    destruct (lookup_lt_is_Some_2 dones m) as [dk Hdk]; [lia|].
    rewrite (returns_step_rows _ _ _ _ _ _ _ _ Hk Hk1 Hdk). cbn [mbind Result_bind].
    destruct (IH (<[m := bootstrap d discount rk rk1 dk]> start))
      as (returns & Hrun & Hl & Hhi & Hlo).
    { rewrite length_insert. left; lia. }
    { lia. }
    rewrite length_insert in Hl.
    exists returns. split; [done|]. split; [done|]. split.
    + intros i Hi. rewrite Hhi by lia. apply list_lookup_insert_ne. lia.
    + intros i Hi. destruct (decide (i = m)) as [->|Hne].
      * exists rk, rk1, dk. repeat split; try done.
        -- rewrite Hhi by lia. rewrite list_lookup_insert_ne by lia. done.
        -- rewrite Hhi by lia. apply list_lookup_insert_eq. lia.
      * destruct (Hlo i) as (rk' & rk1' & dk' & H1 & H2 & H3 & H4); [lia|].
        exists rk', rk1', dk'. repeat split; try done.
        by rewrite list_lookup_insert_ne in H1 by lia.
Qed.

Lemma returns_step_inv (d : nat) (discount : Qc) (dones returns returns' : list (tensor Qc d))
    (k : nat) :
  returns_step d discount dones returns k = Ok returns' →
  ∃ rk rk1 dk : tensor Qc d,
    returns !! k = Some rk ∧ returns !! (k + 1) = Some rk1 ∧ dones !! k = Some dk ∧
    returns' = <[k := bootstrap d discount rk rk1 dk]> returns.
Proof.
  unfold returns_step, getrow, setrow.
  destruct (returns !! k) as [rk|]; [|done].
  destruct (returns !! (k + 1)) as [rk1|]; [|done].
  destruct (dones !! k) as [dk|]; [|done].
  cbn [mbind Result_bind]. case_bool_decide; [|done].
  intros [= <-]. by exists rk, rk1, dk.
Qed.

(** A property of rows that bootstrapping keeps holds of every row after
    the scan. *)
Lemma scan_preserves (d : nat) (discount : Qc) (dones : list (tensor Qc d))
    (P Q : tensor Qc d → Prop) :
  (∀ rk rk1 dk : tensor Qc d, P rk → P rk1 → Q dk → P (bootstrap d discount rk rk1 dk)) →
  Forall Q dones →
  ∀ (ks : list nat) (start returns : list (tensor Qc d)),
    for_each (returns_step d discount dones) ks start = Ok returns →
    Forall P start → Forall P returns.
Proof.
  intros HP HQ ks. induction ks as [|k ks IH]; intros start returns.
  - by intros [= <-].
  - cbn [for_each].
    destruct (returns_step d discount dones start k) as [start'|] eqn:Hstep; [|done].
    cbn [mbind Result_bind]. intros Hrun Hstart.
    apply returns_step_inv in Hstep as (rk & rk1 & dk & Hk & Hk1 & Hdk & ->).
    apply (IH _ _ Hrun). apply Forall_insert; [done|].
    rewrite Forall_lookup in Hstart, HQ. eauto.
Qed.

Lemma tget_bootstrap (d : nat) (discount : Qc) (rk rk1 dk : tensor Qc d)
    (ix : list nat) (r v' dn : Qc) :
  tget d rk ix = Some r → tget d rk1 ix = Some v' → tget d dk ix = Some dn →
  tget d (bootstrap d discount rk rk1 dk) ix = Some (r + discount * v' * (1 - dn))%Qc.
Proof.
  intros Hr Hv Hd. unfold bootstrap, add_float, mul_float, smul_float, rsub_scalar.
  entry.
Qed.

(** On tensors of one shape the scan completes and keeps the shape; rows
    from [n - 1] on keep the reward, every row below is bootstrapped from
    the final value of the row after it. *)
Lemma scan_shape (d : nat) (discount : Qc) (n : nat) (shape : list nat)
    (rewards dones : list (tensor Qc d)) :
  has_shape (n :: shape) (S d) rewards = true →
  has_shape (n :: shape) (S d) dones = true →
  ∃ returns : list (tensor Qc d),
    discounted_returns d discount n dones rewards = Ok returns ∧
    has_shape (n :: shape) (S d) returns = true ∧
    (∀ i : nat, n - 1 ≤ i → returns !! i = rewards !! i) ∧
    (∀ i : nat, i < n - 1 →
       ∃ rk rk1 dk : tensor Qc d,
         rewards !! i = Some rk ∧ returns !! (i + 1) = Some rk1 ∧
         dones !! i = Some dk ∧
         returns !! i = Some (bootstrap d discount rk rk1 dk)).
Proof.
  intros Hrw Hdn.
  apply has_shape_cons in Hrw as [Hn Hrows]. apply has_shape_cons in Hdn as [Hn' Hdrows].
  destruct (scan_rows d discount dones (n - 1) rewards) as (returns & Hrun & Hl & Hhi & Hlo);
    [lia|lia|].
  exists returns. split; [exact Hrun|]. split; [|by split].
  apply has_shape_cons. split; [lia|]. apply Forall_lookup.
  apply (scan_preserves d discount dones (λ row, has_shape shape d row = true)
           (λ row, has_shape shape d row = true)) with (2 := proj2 (Forall_lookup _ _) Hdrows)
           (3 := Hrun); [|by apply Forall_lookup].
  intros rk rk1 dk H1 H2 H3. unfold bootstrap, add_float, mul_float, smul_float, rsub_scalar.
  by repeat first [apply has_shape_tzip | apply has_shape_tmap].
Qed.

(** On a reward tensor and a done tensor of one shape (num_steps, ...),
    the reverse scan completes, keeps the shape, and leaves at every entry
    of a step [k] below the last one
    [reward[k] + discount * returns[k+1] * (1 - done[k])], with the final
    value of [returns[k+1]]; at the last step it leaves the reward, and
    wherever [done[k] = 1] the return is the reward. *)
Lemma scan_recurrence (d : nat) (discount : Qc) (n : nat)
    (shape : list nat) (rewards dones : list (tensor Qc d)) :
  has_shape (n :: shape) (S d) rewards = true →
  has_shape (n :: shape) (S d) dones = true →
  ∃ returns : list (tensor Qc d),
    discounted_returns d discount n dones rewards = Ok returns ∧
    has_shape (n :: shape) (S d) returns = true ∧
    ∀ (k : nat) (ix : list nat) (r dn : Qc),
      tget (S d) rewards (k :: ix) = Some r →
      tget (S d) dones (k :: ix) = Some dn →
      ∃ v : Qc,
        tget (S d) returns (k :: ix) = Some v ∧
        (S k < n →
           ∃ v' : Qc, tget (S d) returns (S k :: ix) = Some v' ∧
             v = (r + discount * v' * (1 - dn))%Qc) ∧
        (S k = n → v = r) ∧
        (dn = 1%Qc → v = r).
Proof.
  intros Hrw Hdn.
  destruct (scan_shape d discount n shape rewards dones Hrw Hdn)
    as (returns & Hrun & Hret & Hhi & Hlo).
  apply has_shape_cons in Hrw as [Hn Hrows]. apply has_shape_cons in Hdn as [Hn' Hdrows].
  exists returns. split; [exact Hrun|]. split; [exact Hret|].
  apply has_shape_cons in Hret as [_ Hshape].
  intros k ix r dn Hr Hd. cbn [tget] in Hr, Hd |- *.
  destruct (rewards !! k) as [rk|] eqn:Hk; [|done].
  destruct (dones !! k) as [dk|] eqn:Hdk; [|done].
  cbn [mbind option_bind] in Hr, Hd.
  pose proof (lookup_lt_Some _ _ _ Hk) as Hkn.
  destruct (decide (k < n - 1)) as [Hlt|Hge].
  - destruct (Hlo k Hlt) as (rk' & rk1 & dk' & H1 & H2 & H3 & H4).
    replace (k + 1) with (S k) in H2 by lia.
    rewrite Hk in H1. rewrite Hdk in H3. injection H1 as <-. injection H3 as <-.
    destruct (proj2 (has_shape_tget shape d rk1 ix (Hshape _ _ H2))) as [v' Hv'].
    { apply (has_shape_tget shape d rk ix (Hrows _ _ Hk)). eauto. }
    rewrite H4, H2. cbn [mbind option_bind].
    rewrite (tget_bootstrap _ _ _ _ _ _ _ _ _ Hr Hv' Hd).
    eexists; split; [reflexivity|]. split; [|split].
    + intros _. by exists v'.
    + intros; lia.
    + intros ->. ring.
  - rewrite Hhi, Hk by lia. cbn [mbind option_bind].
    exists r. split; [done|]. split; [intros; lia|done].
Qed.

(** C10. The scan leaves the row at the final step index, and every row
    from [num_steps - 1] on, equal to the raw reward there, whatever the
    done flags are: it assigns to the indices 0 .. num_steps - 2 only. *)
Theorem discounted_returns_last_row (d : nat) (discount : Qc) (n : nat)
    (rewards dones : list (tensor Qc d)) :
  length rewards = n →
  length dones = n →
  ∃ returns : list (tensor Qc d),
    discounted_returns d discount n dones rewards = Ok returns ∧
    length returns = n ∧
    returns !! (n - 1) = rewards !! (n - 1) ∧
    ∀ i : nat, n - 1 ≤ i → returns !! i = rewards !! i.
Proof.
  intros Hn Hn'.
  destruct (scan_rows d discount dones (n - 1) rewards) as (returns & Hrun & Hl & Hhi & _);
    [lia|lia|].
  exists returns. split; [exact Hrun|]. split; [lia|]. split; [by apply Hhi|exact Hhi].
Qed.

(** ** Runs of programs *)

Section Runs.
Context {Obj W : Type}.
Variable h : ∀ X : Type, @Ext Obj X → W → Result X * W.

Lemma run_bind {A B : Type} (m : Prog A) (f : A → Prog B) (w : W) :
  run h (m ≫= f) w =
    match run h m w with
    | (Ok a, w1, c1) => let '(r, w2, c2) := run h (f a) w1 in (r, w2, c1 ++ c2)
    | (Raise e, w1, c1) => (Raise e, w1, c1)
    end.
Proof.
  revert w. induction m as [a|e|X ev k IH]; intros w.
  - cbn. by destruct (run h (f a) w) as [[r w2] c2].
  - done.
  - change (Call ev k ≫= f) with (Call ev (λ x, k x ≫= f)). cbn [run].
    destruct (h X ev w) as [[x|e] w1]; [|done].
    rewrite IH. destruct (run h (k x) w1) as [[[a|e] w2] c1]; [|done].
    by destruct (run h (f a) w2) as [[r w3] c2].
Qed.

(** A completed run of a sequence splits into a completed run of each part. *)
Lemma run_bind_Ok {A B : Type} (m : Prog A) (f : A → Prog B) (w w' : W) (b : B)
    (calls : list (@Event Obj)) :
  run h (m ≫= f) w = (Ok b, w', calls) →
  ∃ (a : A) (w1 : W) (c1 c2 : list Event),
    run h m w = (Ok a, w1, c1) ∧ run h (f a) w1 = (Ok b, w', c2) ∧ calls = c1 ++ c2.
Proof.
  rewrite run_bind. destruct (run h m w) as [[[a|e] w1] c1]; [|done].
  destruct (run h (f a) w1) as [[r w2] c2] eqn:Hf. intros [= -> -> <-].
  by exists a, w1, c1, c2.
Qed.

Lemma run_call_Ok {X : Type} (ev : Ext X) (w w' : W) (x : X) (calls : list (@Event Obj)) :
  run h (call ev) w = (Ok x, w', calls) → calls = [event ev].
Proof.
  unfold call. cbn [run]. destruct (h X ev w) as [[x'|e] w1]; [|done].
  by intros [= _ _ <-].
Qed.


Lemma run_lift_Ok {A : Type} (r : Result A) (w w' : W) (a : A) (calls : list (@Event Obj)) :
  run h (lift r) w = (Ok a, w', calls) → r = Ok a ∧ w' = w ∧ calls = [].
Proof. destruct r; cbn; [by intros [= -> -> <-]|done]. Qed.

Lemma run_Ret {A : Type} (a a' : A) (w w' : W) (calls : list (@Event Obj)) :
  run h (Ret a) w = (Ok a', w', calls) → a' = a ∧ w' = w ∧ calls = [].
Proof. by intros [= -> -> <-]. Qed.

(** An invariant of the loop state that every completed iteration keeps
    holds after a completed loop. *)
Lemma run_for_prog_inv {S K : Type} (body : S → K → Prog S) (P : S → Prop) :
  (∀ (s s' : S) (k : K) (w w' : W) (c : list Event),
     P s → run h (body s k) w = (Ok s', w', c) → P s') →
  ∀ (ks : list K) (s s' : S) (w w' : W) (c : list Event),
    P s → run h (for_prog body ks s) w = (Ok s', w', c) → P s'.
Proof.
  intros Hbody ks. induction ks as [|k ks IH]; intros s s' w w' c Hs.
  - by intros [= <- _ _].
  - cbn [for_prog]. intros Hrun.
    apply run_bind_Ok in Hrun as (s1 & w1 & c1 & c2 & H1 & H2 & _). eauto.
Qed.

End Runs.

(** ** The training driver *)

#[local] Open Scope Qc_scope.

(** ** The batch that generate_and_process_batch hands back *)

#[local] Open Scope nat_scope.

Lemma setrow_Ok {X : Type} (x x' : list X) (i : nat) (v : X) :
  setrow x i v = Ok x' → x' = <[i := v]> x ∧ i < length x.
Proof. unfold setrow. case_bool_decide; [by intros [= <-]|done]. Qed.

Lemma expand_Ok {X : Type} (n : nat) (v v' : list X) :
  expand n v = Ok v' → length v' = n.
Proof.
  unfold expand. case_bool_decide; [by intros [= <-]|].
  destruct v as [|x [|y v]]; [done| |done]. intros [= <-]. apply length_replicate.
Qed.

Lemma has_shape_row {A : Type} (n : nat) (row : list A) :
  has_shape [n] 1 row = true ↔ length row = n.
Proof.
  rewrite (has_shape_cons n [] 0 row). split; [by intros [? _]|].
  intros Hn. split; [done|]. by intros i r _.
Qed.

Lemma has_shape_insert {A : Type} (m : nat) (shape : list nat) (d : nat)
    (t : list (tensor A d)) (i : nat) (row : tensor A d) :
  has_shape (m :: shape) (S d) t = true → has_shape shape d row = true →
  has_shape (m :: shape) (S d) (<[i := row]> t) = true.
Proof.
  rewrite !has_shape_cons, length_insert. intros [Hm Hrows] Hrow. split; [done|].
  intros j r Hj. destruct (decide (i = j)) as [->|Hne].
  - pose proof (lookup_lt_Some _ _ _ Hj) as Hlt. rewrite length_insert in Hlt.
    rewrite list_lookup_insert_eq in Hj by done. by injection Hj as <-.
  - rewrite list_lookup_insert_ne in Hj by done. eauto.
Qed.

Lemma has_shape_replicate {A : Type} (m : nat) (shape : list nat) (d : nat)
    (x : tensor A d) :
  has_shape shape d x = true →
  has_shape (m :: shape) (S d) (replicate m x) = true.
Proof.
  intros Hx. apply has_shape_cons. split; [apply length_replicate|].
  intros i r Hi. by apply lookup_replicate in Hi as [-> _].
Qed.

Lemma for_each_inv {S K : Type} (body : S → K → Result S) (P : S → Prop) :
  (∀ (s s' : S) (k : K), P s → body s k = Ok s' → P s') →
  ∀ (ks : list K) (s s' : S), P s → for_each body ks s = Ok s' → P s'.
Proof.
  intros Hbody ks. induction ks as [|k ks IH]; intros s s' Hs.
  - by intros [= <-].
  - cbn [for_each]. destruct (body s k) as [s1|] eqn:Hk; [|done].
    cbn [mbind Result_bind]. eauto.
Qed.

Lemma copy_info_shape (m n step : nat) (info : gmap string (tensor Qc 1))
    (infos infos' : gmap string (tensor Qc 2)) (key : string) :
  map_Forall (λ _ t, has_shape [m; n] 2 t = true) infos →
  copy_info n step info infos key = Ok infos' →
  map_Forall (λ _ t, has_shape [m; n] 2 t = true) infos'.
Proof.
  intros Hinfos. unfold copy_info, getitem.
  destruct (info !! key) as [v|]; [|done].
  destruct (infos !! key) as [slot|] eqn:Hslot; [|done]. cbn [mbind Result_bind].
  destruct (expand n v) as [row|] eqn:Hrow; [|done]. cbn [mbind Result_bind].
  destruct (setrow slot step row) as [slot'|] eqn:Hset; [|done]. cbn [mbind Result_bind].
  intros [= <-]. apply setrow_Ok in Hset as [-> _]. apply expand_Ok in Hrow.
  apply map_Forall_insert_2; [|done].
  apply (has_shape_insert m [n] 1 slot step row);
    [by apply (Hinfos key)|by apply has_shape_row].
Qed.

Section BatchProperties.
Context {Obj W : Type}.
Variable h : ∀ X : Type, @Ext Obj X → W → Result X * W.

#[local] Ltac run_step H :=
  cbv beta zeta in H;
  apply run_bind_Ok in H as (? & ? & ? & ? & ? & H & ->).

#[local] Ltac run_lift H name :=
  cbv beta zeta in H;
  let Hl := fresh "Hl" in
  apply run_bind_Ok in H as (? & ? & ? & ? & Hl & H & ->);
  apply run_lift_Ok in Hl as (name & -> & ->).

Lemma rollout_step_shapes (multienv : @MultiEnv Obj) (policy : Obj)
    (num_steps step : nat) (st st' : Rollout) (w w' : W) (c : list Event) :
  rollout_shapes multienv num_steps st →
  run h (rollout_step multienv policy st step) w = (Ok st', w', c) →
  rollout_shapes multienv num_steps st'.
Proof.
  intros (Hobs & Hdones & Hinfos) H. unfold rollout_step in H.
  run_lift H Hv. run_lift H Hset. run_lift H Hget. run_step H.
  run_lift H Ha. run_lift H Hsa. run_lift H Hga. run_step H.
  cbv beta zeta in H.
  match type of H with
  | run _ (let '(_, _) := ?p in _) _ = _ => destruct p as [[next_obs info] dones_step]
  end.
  run_lift H Hdn. run_lift H Hsd. run_lift H Hcp.
  apply run_Ret in H as (-> & _ & _).
  apply setrow_Ok in Hset as [-> _]. apply setrow_Ok in Hsd as [-> _].
  apply expand_Ok in Hdn.
  unfold rollout_shapes. cbn [r_obs r_dones r_infos].
  split; [by rewrite length_insert|]. split.
  - apply (has_shape_insert num_steps [n_envs multienv] 1 (r_dones st));
      [done|by apply has_shape_row].
  - revert Hcp. apply for_each_inv; [|done].
    intros s s' key Hs. by apply copy_info_shape.
Qed.

(** A completed rollout yields one row of observations per step, and
    [dones] and every [infos] tensor of shape (num_steps, n_envs). *)
Lemma generate_batch_shapes (multienv : @MultiEnv Obj) (policy : Obj)
    (num_steps : nat) (device : Obj) (w w' : W) (c : list Event)
    (obs : tensor Qc 3) (actions : tensor Z 2) (dones : tensor Qc 2)
    (infos : gmap string (tensor Qc 2)) :
  run h (generate_batch multienv policy num_steps device) w
    = (Ok (obs, actions, dones, infos), w', c) →
  length obs = num_steps ∧
  has_shape [num_steps; n_envs multienv] 2 dones = true ∧
  map_Forall (λ _ t, has_shape [num_steps; n_envs multienv] 2 t = true) infos.
Proof.
  unfold generate_batch. intros H. run_step H. run_step H.
  apply run_Ret in H as (Heq & _ & _). injection Heq as -> _ -> ->.
  eapply (run_for_prog_inv h (rollout_step multienv policy)
            (rollout_shapes multienv num_steps)); [|  |eassumption].
  - intros s s' k w0 w0' c0. apply rollout_step_shapes.
  - assert (Hempty : has_shape [num_steps; n_envs multienv] 2
                       (empty2 (0 : Qc) num_steps (n_envs multienv)) = true).
    { apply (has_shape_replicate num_steps [n_envs multienv] 1), has_shape_row,
        length_replicate. }
    split; [apply length_replicate|]. split; [exact Hempty|].
    cbn [r_infos info_keys fmap list_fmap list_to_map foldr].
    repeat (apply map_Forall_insert_2; [exact Hempty|]). apply map_Forall_empty.
Qed.

(** The returns of a completed [generate_and_process_batch]: the flattened
    result of the scan over [num_steps] rows, started from
    [reward_fn(infos) * 1.0], with done flags of shape (num_steps, n_envs). *)
Lemma generate_and_process_batch_returns (multienv : @MultiEnv Obj) (policy : Obj)
    (reward_fn : gmap string (tensor Qc 2) → Result (AnyTensor 2))
    (discount : Qc) (num_steps : nat) (device : Obj) (w w' : W)
    (c : list Event) (batch : Batch) :
  run h (generate_and_process_batch multienv policy reward_fn discount
           num_steps device) w = (Ok batch, w', c) →
  ∃ (dones : tensor Qc 2) (rewards : AnyTensor 2) (returns : tensor Qc 2),
    has_shape [num_steps; n_envs multienv] 2 dones = true ∧
    map_Forall (λ _ t, has_shape [num_steps; n_envs multienv] 2 t = true)
      (batch_infos batch) ∧
    reward_fn (batch_infos batch) = Ok rewards ∧
    discounted_returns 1 discount num_steps dones (times_1_0 2 rewards)
      = Ok returns ∧
    batch_returns batch = tflat 2 returns ∧
    batch_dones batch = tflat 2 dones.
Proof.
  unfold generate_and_process_batch. intros H. run_step H.
  cbv beta zeta in H.
  match type of H with run _ (let '(_, _) := ?p in _) _ = _ =>
    destruct p as [[[obs actions] dones] infos] end.
  run_lift H Hrw. run_lift H Hscan. apply run_Ret in H as (-> & _ & _).
  match goal with Hg : run h (generate_batch _ _ _ _) _ = _ |- _ =>
    apply generate_batch_shapes in Hg as (Hobs & Hdones & Hinfos) end.
  rewrite Hobs in Hscan. by eexists dones, _, _.
Qed.

End BatchProperties.

(** The four reward functions keep the shape of the info tensors. *)
Lemma reward_fn_shape (d : nat) (shape : list nat)
    (info : gmap string (tensor Qc d)) (r : AnyTensor d)
    (f : gmap string (tensor Qc d) → Result (AnyTensor d)) :
  f ∈ [naive_reward_fn d; moe_reward_fn d; biased_moe_reward_fn d; true_reward_fn d] →
  map_Forall (λ _ t, has_shape shape d t = true) info →
  f info = Ok r →
  has_shape shape d (times_1_0 d r) = true.
Proof.
  intros Hf Hinfo.
  repeat (apply elem_of_cons in Hf as [->|Hf]); [| | | |by apply elem_of_nil in Hf];
    unfold naive_reward_fn, moe_reward_fn, biased_moe_reward_fn, true_reward_fn, getitem;
    repeat match goal with
      | |- context [info !! ?key] =>
          let H := fresh "H" in
          destruct (info !! key) eqn:H; [apply Hinfo in H|done];
          cbn [mbind Result_bind]
      end;
    intros [= <-]; cbn [times_1_0];
    unfold sub_long_float, mul_float_long, mul_float_bool, add_float_bool,
      smul_bool, smul_long, long, bor, logical_and, bnot, eq_scalar;
    by repeat first [apply has_shape_tzip | apply has_shape_tmap].
Qed.

(** With one of the four reward functions, the returns of every completed
    [generate_and_process_batch] are the scan's result on tensors of shape
    (num_steps, n_envs): the last row keeps the reward, every row below is
    bootstrapped from the row after it. *)
Lemma generate_and_process_batch_scan {Obj W : Type}
    (h : ∀ X : Type, @Ext Obj X → W → Result X * W)
    (multienv : @MultiEnv Obj) (policy : Obj)
    (reward_fn : gmap string (tensor Qc 2) → Result (AnyTensor 2))
    (discount : Qc) (num_steps : nat) (device : Obj) (w w' : W)
    (c : list Event) (batch : Batch) :
  reward_fn ∈ [naive_reward_fn 2; moe_reward_fn 2; biased_moe_reward_fn 2;
               true_reward_fn 2] →
  run h (generate_and_process_batch multienv policy reward_fn discount
           num_steps device) w = (Ok batch, w', c) →
  ∃ (dones : tensor Qc 2) (rewards : AnyTensor 2) (returns : tensor Qc 2),
    reward_fn (batch_infos batch) = Ok rewards ∧
    batch_returns batch = tflat 2 returns ∧
    batch_dones batch = tflat 2 dones ∧
    has_shape [num_steps; n_envs multienv] 2 (times_1_0 2 rewards) = true ∧
    has_shape [num_steps; n_envs multienv] 2 dones = true ∧
    has_shape [num_steps; n_envs multienv] 2 returns = true ∧
    (∀ i : nat, num_steps - 1 ≤ i → returns !! i = times_1_0 2 rewards !! i) ∧
    (∀ i : nat, i < num_steps - 1 →
       ∃ rk rk1 dk : tensor Qc 1,
         times_1_0 2 rewards !! i = Some rk ∧ returns !! (i + 1) = Some rk1 ∧
         dones !! i = Some dk ∧
         returns !! i = Some (bootstrap 1 discount rk rk1 dk)).
Proof.
  intros Hf Hrun.
  apply generate_and_process_batch_returns in Hrun
    as (dones & rewards & returns & Hdones & Hinfos & Hrw & Hscan & Hret & Hdn).
  pose proof (reward_fn_shape 2 _ _ _ _ Hf Hinfos Hrw) as Hshape.
  destruct (scan_shape 1 discount num_steps [n_envs multienv]
              (times_1_0 2 rewards) dones Hshape Hdones)
    as (returns' & Hscan' & Hshape' & Hhi & Hlo).
  rewrite Hscan in Hscan'. injection Hscan' as <-.
  by exists dones, rewards, returns.
Qed.

Section BatchReturns.
Context {Obj W : Type}.
Variable h : ∀ X : Type, @Ext Obj X → W → Result X * W.

(** C2. Every completed [generate_and_process_batch] (with one of the four
    reward functions) returns as [returns] the flattened result of the
    reverse scan over the rewards [reward_fn(infos) * 1.0] and the done
    flags of its rollout: at every step [k] below the last one and every
    environment [e],
    [returns[k][e] = reward[k][e] + discount * returns[k+1][e] * (1 - done[k][e])],
    with the final value of [returns[k+1][e]]; at the last step the return
    is the reward; and wherever [done[k][e] = 1] the return is the reward
    (no bootstrapping past a done flag), which for a one-step episode at
    step 0 reads [returns[0] = reward[0]]. *)
Theorem generate_and_process_batch_recurrence (multienv : @MultiEnv Obj)
    (policy : Obj) (reward_fn : gmap string (tensor Qc 2) → Result (AnyTensor 2))
    (discount : Qc) (num_steps : nat) (device : Obj) (w w' : W)
    (c : list Event) (batch : Batch) :
  reward_fn ∈ [naive_reward_fn 2; moe_reward_fn 2; biased_moe_reward_fn 2;
               true_reward_fn 2] →
  run h (generate_and_process_batch multienv policy reward_fn discount
           num_steps device) w = (Ok batch, w', c) →
  ∃ (obs : tensor Qc 3) (actions : tensor Z 2) (dones : tensor Qc 2)
    (infos : gmap string (tensor Qc 2)) (w1 : W) (c1 : list Event)
    (rewards : AnyTensor 2) (returns : tensor Qc 2),
    run h (generate_batch multienv policy num_steps device) w
      = (Ok (obs, actions, dones, infos), w1, c1) ∧
    reward_fn infos = Ok rewards ∧
    batch_returns batch = tflat 2 returns ∧
    batch_dones batch = tflat 2 dones ∧
    has_shape [num_steps; n_envs multienv] 2 (times_1_0 2 rewards) = true ∧
    has_shape [num_steps; n_envs multienv] 2 dones = true ∧
    has_shape [num_steps; n_envs multienv] 2 returns = true ∧
    ∀ (k e : nat) (r dn : Qc),
      tget 2 (times_1_0 2 rewards) [k; e] = Some r →
      tget 2 dones [k; e] = Some dn →
      ∃ v : Qc,
        tget 2 returns [k; e] = Some v ∧
        (S k < num_steps →
           ∃ v' : Qc, tget 2 returns [S k; e] = Some v' ∧
             v = (r + discount * v' * (1 - dn))%Qc) ∧
        (S k = num_steps → v = r) ∧
        (dn = 1%Qc → v = r).
Proof.
  intros Hf H. unfold generate_and_process_batch in H.
  apply run_bind_Ok in H
    as ([[[obs actions] dones] infos] & w1 & c1 & c2 & Hgen & H & ->).
  cbv beta iota zeta in H.
  apply run_bind_Ok in H as (rewards & ? & ? & ? & Hrw & H & ->).
  apply run_lift_Ok in Hrw as (Hrw & -> & ->).
  cbv beta zeta in H.
  apply run_bind_Ok in H as (returns & ? & ? & ? & Hscan & H & ->).
  apply run_lift_Ok in Hscan as (Hscan & -> & ->).
  apply run_Ret in H as (-> & _ & _).
  pose proof Hgen as Hshapes.
  apply generate_batch_shapes in Hshapes as (Hobs & Hdones & Hinfos).
  pose proof (reward_fn_shape 2 _ _ _ _ Hf Hinfos Hrw) as Hshape.
  rewrite Hobs in Hscan.
  destruct (scan_recurrence 1 discount num_steps [n_envs multienv]
              (times_1_0 2 rewards) dones Hshape Hdones)
    as (returns' & Hscan' & Hret & Hent).
  rewrite Hscan in Hscan'. injection Hscan' as <-.
  exists obs, actions, dones, infos, w1, c1, rewards, returns.
  split; [exact Hgen|]. split; [exact Hrw|].
  split; [reflexivity|]. split; [reflexivity|].
  split; [exact Hshape|]. split; [exact Hdones|]. split; [exact Hret|].
  intros k e r dn Hr Hd. exact (Hent k [e] r dn Hr Hd).
Qed.

End BatchReturns.

#[local] Open Scope Qc_scope.


Section TrainProperties.
Context {Obj : Type}.
Variables (steps_per_learning_update : nat)
  (num_learning_updates eval_freq policy_log_freq : Z) (discount : Qc)
  (loss_coefs : list (string * @Coef Obj))
  (learning_rate expert_weight_decay shared_weight_decay : Qc)
  (policy_network_constructor : Obj)
  (reward_fn_to_train_on : gmap string (tensor Qc 2) → Result (AnyTensor 2))
  (loss_getter_fn : Obj) (env_kwargs : gmap string (@PyVal Obj))
  (save_dir policy_visualization_dir run_label : string)
  (device : option Obj) (gpus_to_restrict_to : option (list Z))
  (run_id : option (string + Z)) (time_to_sleep_after_run : Qc).

(** C6. The two checks of train, and nothing else, decide whether it aborts
    at entry: with the discount outside [0, 1] it raises the first
    AssertionError before any external call, with the discount inside and
    "device" among the keys of env_kwargs it raises the second one, and in
    every other case it passes both and goes on to its first call,
    os.makedirs(save_dir). *)
Theorem train_precondition_checks :
  ∃ rest : unit → @Prog Obj unit,
    train steps_per_learning_update num_learning_updates eval_freq
      policy_log_freq discount loss_coefs learning_rate expert_weight_decay
      shared_weight_decay policy_network_constructor reward_fn_to_train_on
      loss_getter_fn env_kwargs save_dir policy_visualization_dir run_label
      device gpus_to_restrict_to run_id time_to_sleep_after_run
    = if decide (0 ≤ discount ∧ discount ≤ 1) then
        if decide ("device" ∈ dom env_kwargs)
        then Throw (AssertionError (Some "pass device separately"))
        else Call (OsMakedirs save_dir true) rest
      else Throw (AssertionError None).
Proof.
  unfold train, py_assert. eexists.
  destruct (decide (0 ≤ discount ∧ discount ≤ 1)) as [[H0 H1]|Hout].
  - rewrite (bool_decide_eq_true_2 _ H0), (bool_decide_eq_true_2 _ H1).
    cbn [andb mbind Prog_bind prog_bind].
    destruct (decide ("device" ∈ dom env_kwargs)) as [Hin|Hnotin].
    + by rewrite bool_decide_eq_false_2 by (intros Hn; by apply Hn).
    + rewrite bool_decide_eq_true_2 by done. cbn [mbind Prog_bind prog_bind call].
      reflexivity.
  - destruct (decide (0 ≤ discount)) as [H0|H0].
    + rewrite (bool_decide_eq_true_2 _ H0), (bool_decide_eq_false_2 (discount ≤ 1));
        [done|].
      intros H1. by apply Hout.
    + by rewrite (bool_decide_eq_false_2 _ H0).
Qed.

Context {W : Type}.
Variable h : ∀ X : Type, @Ext Obj X → W → Result X * W.

#[local] Ltac run_step H :=
  cbv beta zeta in H;
  apply run_bind_Ok in H as (? & ? & ? & ? & ? & H & ->).

#[local] Ltac run_call H :=
  cbv beta zeta in H;
  let Hc := fresh "Hc" in
  apply run_bind_Ok in H as (? & ? & ? & ? & Hc & H & ->);
  apply run_call_Ok in Hc as ->.





End TrainProperties.

(** ** Concrete instances *)

Lemma run_Ok_inv {A W E : Type} (x : Result A * W * E) :
  (if x.1.1 is Ok _ then true else false) = true →
  ∃ (a : A) (w : W) (c : E), x = (Ok a, w, c).
Proof. destruct x as [[[a|e] w] c]; [by eexists _, _, _|done]. Qed.

Lemma run_Ok_check {A W E : Type} (P : A → bool) (x : Result A * W * E) :
  (if x.1.1 is Ok a then P a else false) = true →
  ∃ (a : A) (w : W) (c : E), x = (Ok a, w, c) ∧ P a = true.
Proof. destruct x as [[[a|e] w] c]; [by eexists _, _, _|done]. Qed.

Lemma run_Ok_Some_inv {A W E : Type} (x : Result (option A) * W * E) :
  (if x.1.1 is Ok (Some _) then true else false) = true →
  ∃ (a : A) (w : W) (c : E), x = (Ok (Some a), w, c).
Proof. destruct x as [[[[a|]|e] w] c]; [by eexists _, _, _|done|done]. Qed.

Lemma toy_rollout_completes :
  ∃ r (w' : nat) (c : list (@Event nat)),
    run toy_world (generate_batch toy_env 0%nat 2%nat 0%nat) 0%nat = (Ok r, w', c).
Proof. apply run_Ok_inv. vm_compute. reflexivity. Qed.

Lemma toy_batch_completes :
  ∃ (batch : Batch) (w' : nat) (c : list (@Event nat)),
    run toy_world (generate_and_process_batch toy_env 0%nat (naive_reward_fn 2)
                     (Q2Qc (9 # 10)) 2%nat 0%nat) 0%nat = (Ok batch, w', c).
Proof. apply run_Ok_inv. vm_compute. reflexivity. Qed.

Lemma toy_eval_completes :
  ∃ (metrics : list (string * @PyVal nat)) (w' : nat) (c : list (@Event nat)),
    run toy_world (eval 0%nat toy_kwargs (PyInt 2) (naive_reward_fn 2)
                     (Q2Qc (9 # 10)) 0%nat) 0%nat = (Ok metrics, w', c).
Proof. apply run_Ok_inv. vm_compute. reflexivity. Qed.

Lemma toy_episode_completes (fuel : nat) (render : bool) (value_fn : option nat) :
  (2 ≤ fuel)%nat →
  ∃ (result : gmap string Qc) (w' : nat) (calls : list (@EpisodeEvent nat)),
    ep_run toy_episode_world (play_episode fuel 0%nat 1%nat render value_fn) 0%nat
      = (Ok (Some result), w', calls).
Proof.
  intros Hfuel. destruct fuel as [|[|fuel]]; [lia|lia|].
  apply run_Ok_Some_inv. destruct render, value_fn; vm_compute; reflexivity.
Qed.

(** On one entry with both flags set, [true_reward_fn] returns 0, not -1. *)
Lemma true_reward_fn_both_reached :
  ∃ r : tensor Qc 1,
    true_reward_fn 1 both_reached = Ok (FloatT r) ∧
    tget 1 r [0%nat] = Some 0 ∧ (0 : Qc) ≠ -1.
Proof.
  exists [z2q (b2z true) - 1 * z2q (b2z true)]. split; [reflexivity|].
  split; [reflexivity|]. intros H. by apply (f_equal (λ q : Qc, Qnum q)) in H.
Qed.

Lemma true_reward_fn_entries_witness :
  ∃ r : tensor Qc 1,
    true_reward_fn 1 all_flags = Ok (FloatT r) ∧
    tget 1 r [2%nat] = Some 1 ∧ tget 1 r [1%nat] = Some (-1) ∧
    tget 1 r [0%nat] = Some 0 ∧ tget 1 r [3%nat] = Some 0.
Proof.
  destruct (true_reward_fn_entries 1 all_flags [0; 0; 1; 1; 0; 0; 1; 1]
              [0; 1; 0; 1; 0; 1; 0; 1] eq_refl eq_refl) as (r & Hr & Hent).
  exists r. split; [exact Hr|].
  destruct (Hent [2%nat] 1 0 eq_refl eq_refl) as (v2 & -> & H2 & _).
  destruct (Hent [1%nat] 0 1 eq_refl eq_refl) as (v1 & -> & _ & H1 & _).
  destruct (Hent [0%nat] 0 0 eq_refl eq_refl) as (v0 & -> & _ & _ & H0 & _).
  destruct (Hent [3%nat] 1 1 eq_refl eq_refl) as (v3 & -> & _ & _ & _ & H3).
  rewrite H2, H1, H0, H3 by done. done.
Defined.

Lemma naive_reward_fn_entries_witness :
  ∃ r : tensor Qc 1,
    naive_reward_fn 1 all_flags = Ok (FloatT r) ∧
    tget 1 r [5%nat] = Some (-1) ∧ tget 1 r [1%nat] = Some 1 ∧
    tget 1 r [6%nat] = Some 1 ∧ tget 1 r [4%nat] = Some 0.
Proof.
  destruct (naive_reward_fn_entries 1 all_flags [0; 0; 0; 0; 1; 1; 1; 1]
              [0; 0; 1; 1; 0; 0; 1; 1] [0; 1; 0; 1; 0; 1; 0; 1]
              eq_refl eq_refl eq_refl) as (r & Hr & Hent).
  exists r. split; [exact Hr|].
  destruct (Hent [5%nat] 1 0 1 eq_refl eq_refl eq_refl) as (v5 & -> & H5 & _).
  destruct (Hent [1%nat] 0 0 1 eq_refl eq_refl eq_refl) as (v1 & -> & _ & H1 & _).
  destruct (Hent [6%nat] 1 1 0 eq_refl eq_refl eq_refl) as (v6 & -> & _ & H6 & _).
  destruct (Hent [4%nat] 1 0 0 eq_refl eq_refl eq_refl) as (v4 & -> & _ & _ & H4).
  rewrite H5, H4 by done.
  rewrite H1 by (by right || by intros [_ ?]).
  rewrite H6 by (by left || by intros [? _]). done.
Defined.

Lemma moe_reward_fn_entries_witness :
  ∃ r : tensor bool 1,
    moe_reward_fn 1 all_flags = Ok (BoolT r) ∧
    tget 1 r [1%nat] = Some true ∧ tget 1 r [2%nat] = Some true ∧
    tget 1 r [4%nat] = Some false ∧
    tget 1 (times_1_0 1 (BoolT r)) [1%nat] = Some 1 ∧
    tget 1 (times_1_0 1 (BoolT r)) [4%nat] = Some 0.
Proof.
  destruct (moe_reward_fn_entries 1 all_flags [0; 0; 1; 1; 0; 0; 1; 1]
              [0; 1; 0; 1; 0; 1; 0; 1] eq_refl eq_refl) as (r & Hr & Hent).
  exists r. split; [exact Hr|].
  destruct (Hent [1%nat] 0 1 eq_refl eq_refl) as (b1 & -> & Hb1 & v1 & -> & H1 & _).
  destruct (Hent [2%nat] 1 0 eq_refl eq_refl) as (b2 & -> & Hb2 & _).
  destruct (Hent [4%nat] 0 0 eq_refl eq_refl) as (b4 & -> & Hb4 & v4 & -> & _ & H4).
  rewrite (proj2 Hb1) by (by right). rewrite (proj2 Hb2) by (by left).
  rewrite H1 by (by right). rewrite H4 by done.
  destruct b4; [|done]. by destruct (proj1 Hb4 eq_refl).
Defined.

Lemma biased_moe_reward_fn_entries_witness :
  ∃ r : tensor Qc 1,
    biased_moe_reward_fn 1 all_flags = Ok (FloatT r) ∧
    tget 1 r [6%nat] = Some c1_03 ∧ tget 1 r [2%nat] = Some 1 ∧
    tget 1 r [5%nat] = Some 1 ∧ tget 1 r [4%nat] = Some 0.
Proof.
  destruct (biased_moe_reward_fn_entries 1 all_flags [0; 0; 0; 0; 1; 1; 1; 1]
              [0; 0; 1; 1; 0; 0; 1; 1] [0; 1; 0; 1; 0; 1; 0; 1]
              eq_refl eq_refl eq_refl) as (r & Hr & Hent).
  exists r. split; [exact Hr|].
  destruct (Hent [6%nat] 1 1 0 eq_refl eq_refl eq_refl) as (v6 & -> & H6 & _).
  destruct (Hent [2%nat] 0 1 0 eq_refl eq_refl eq_refl) as (v2 & -> & _ & H2 & _).
  destruct (Hent [5%nat] 1 0 1 eq_refl eq_refl eq_refl) as (v5 & -> & _ & H5 & _).
  destruct (Hent [4%nat] 1 0 0 eq_refl eq_refl eq_refl) as (v4 & -> & _ & _ & H4).
  rewrite H6, H4 by done.
  rewrite H2 by (by left || by intros [_ ?]).
  rewrite H5 by (by right || by intros [? _]). done.
Defined.

(** On the three tensors of the example alone [get_end_stats] returns
    nothing: it reads num_steps as well, after the first four divisions. *)
Lemma get_end_stats_example_needs_num_steps :
  get_end_stats 1 example_flags = Raise (KeyError "num_steps") ∧
  ¬ ∃ st : EndStats,
      get_end_stats 1 example_flags = Ok st ∧
      n_complete_eps st = 2%Z ∧ reached_diamond_seen st = Q2Qc (1 # 2).
Proof.
  assert (H : get_end_stats 1 example_flags = Raise (KeyError "num_steps"))
    by (vm_compute; reflexivity).
  split; [exact H|]. intros (st & Hst & _). rewrite H in Hst. discriminate Hst.
Qed.

Lemma get_end_stats_example_witness :
  ∃ st : EndStats,
    get_end_stats 1 example_info = Ok st ∧
    n_complete_eps st = 2%Z ∧
    reached_diamond_seen st = Q2Qc (1 # 2).
Proof.
  exact (get_end_stats_example example_info (z2q 4) (z2q 9) (z2q 7)
           eq_refl eq_refl eq_refl eq_refl).
Defined.

Lemma get_end_stats_zero_division_witness :
  get_end_stats 1 none_complete = Raise ZeroDivisionError ∧
  get_end_stats 1 example_info ≠ Raise ZeroDivisionError.
Proof.
  split.
  - apply (get_end_stats_zero_division 1 [2%nat] none_complete [-1; -1] [0; 0] [0; 0]
             eq_refl eq_refl eq_refl eq_refl eq_refl eq_refl).
    reflexivity.
  - apply (get_end_stats_zero_division 1 [3%nat] example_info [1; -1; 1] [1; 0; 0]
             [0; 0; 1] eq_refl eq_refl eq_refl eq_refl eq_refl eq_refl).
    reflexivity.
Defined.

Lemma discounted_returns_last_row_witness :
  ∃ returns : tensor Qc 2,
    discounted_returns 1 one_half 3 example_dones example_rewards = Ok returns ∧
    returns !! 2%nat = Some [1; 1].
Proof.
  destruct (discounted_returns_last_row 1 one_half 3 example_rewards example_dones
              eq_refl eq_refl) as (returns & Hrun & _ & Hlast & _).
  exists returns. split; [exact Hrun|exact Hlast].
Defined.


Lemma toy_run : run toy_world (toy_train None) 0%nat = (Ok tt, 61%nat, toy_calls).
Proof. vm_compute. reflexivity. Qed.


Lemma open_batch_run :
  ∃ (batch : Batch) (w' : nat) (c : list (@Event nat)),
    run open_world (generate_and_process_batch toy_env 0%nat (naive_reward_fn 2)
                      (Q2Qc (9 # 10)) 2%nat 0%nat) 0%nat = (Ok batch, w', c) ∧
    bool_decide (batch_returns batch = [Q2Qc (19 # 10); 1]) = true.
Proof. apply run_Ok_check. vm_compute. reflexivity. Qed.

Lemma generate_and_process_batch_recurrence_witness :
  ∃ (batch : Batch) (w' : nat) (c : list (@Event nat)) (rewards : AnyTensor 2)
    (dones returns : tensor Qc 2),
    run open_world (generate_and_process_batch toy_env 0%nat (naive_reward_fn 2)
                      (Q2Qc (9 # 10)) 2%nat 0%nat) 0%nat = (Ok batch, w', c) ∧
    batch_returns batch = [Q2Qc (19 # 10); 1] ∧
    batch_returns batch = tflat 2 returns ∧
    batch_dones batch = tflat 2 dones ∧
    ∀ (k e : nat) (r dn : Qc),
      tget 2 (times_1_0 2 rewards) [k; e] = Some r →
      tget 2 dones [k; e] = Some dn →
      ∃ v : Qc,
        tget 2 returns [k; e] = Some v ∧
        ((S k < 2)%nat →
           ∃ v' : Qc, tget 2 returns [S k; e] = Some v' ∧
             v = r + Q2Qc (9 # 10) * v' * (1 - dn)) ∧
        (S k = 2%nat → v = r) ∧
        (dn = 1 → v = r).
Proof.
  destruct open_batch_run as (batch & w' & c & Hrun & Hreturns).
  apply bool_decide_eq_true in Hreturns.
  destruct (generate_and_process_batch_recurrence open_world toy_env 0%nat
              (naive_reward_fn 2) (Q2Qc (9 # 10)) 2%nat 0%nat 0%nat w' c batch
              ltac:(apply list_elem_of_here) Hrun)
    as (obs & actions & dones & infos & w1 & c1 & rewards & returns
        & _ & _ & Hret & Hdn & _ & _ & _ & Hent).
  exists batch, w', c, rewards, dones, returns.
  exact (conj Hrun (conj Hreturns (conj Hret (conj Hdn Hent)))).
Defined.

(** * Further properties of the code *)

(** ** Reward functions: keys read, and how the four relate *)

#[local] Ltac key_cases info :=
  repeat match goal with
    | |- context [info !! ?key] => destruct (info !! key) eqn:?
    end.

(** X1. On an info dictionary whose tensors have one shape, a reward
    function returns a tensor exactly when every key it reads is in the
    dictionary: reached_diamond and reached_ghost for [moe_reward_fn] and
    [true_reward_fn], and oversight as well for [naive_reward_fn] and
    [biased_moe_reward_fn]; otherwise it raises the KeyError of a key that
    is missing. *)
Theorem reward_fn_keys (d : nat) (shape : list nat)
    (info : gmap string (tensor Qc d)) :
  map_Forall (λ _ t, has_shape shape d t = true) info →
  let has key := is_Some (info !! key) in
  (completes (naive_reward_fn d info) ↔
     has "oversight" ∧ has "reached_diamond" ∧ has "reached_ghost") ∧
  (completes (moe_reward_fn d info) ↔ has "reached_diamond" ∧ has "reached_ghost") ∧
  (completes (biased_moe_reward_fn d info) ↔
     has "reached_diamond" ∧ has "reached_ghost" ∧ has "oversight") ∧
  (completes (true_reward_fn d info) ↔ has "reached_diamond" ∧ has "reached_ghost") ∧
  ∀ (f : gmap string (tensor Qc d) → Result (AnyTensor d)) (e : PyError),
    f ∈ [naive_reward_fn d; moe_reward_fn d; biased_moe_reward_fn d; true_reward_fn d] →
    f info = Raise e →
    ∃ key : string, e = KeyError key ∧ info !! key = None.
Proof.
  intros _.
  cbv zeta. unfold completes, naive_reward_fn, moe_reward_fn, biased_moe_reward_fn,
    true_reward_fn, getitem.
  split; [|split; [|split; [|split]]].
  1-4: key_cases info; cbn [mbind Result_bind];
    (split;
     [ intros [a Ha]; first [discriminate Ha | by repeat split; eexists]
     | intros H; first [by eexists | exfalso; decompose [and] H;
         repeat match goal with Hn : is_Some None |- _ => destruct Hn as [? [=]] end] ]).
  intros f e Hf.
  repeat (apply elem_of_cons in Hf as [->|Hf]); [| | | |by apply elem_of_nil in Hf];
    key_cases info; cbn [mbind Result_bind]; intros [= <-]; by eexists.
Qed.

Lemma reward_fn_keys_witness :
  completes (naive_reward_fn 1 all_flags) ∧ completes (moe_reward_fn 1 all_flags) ∧
  completes (biased_moe_reward_fn 1 all_flags) ∧ completes (true_reward_fn 1 all_flags).
Proof.
  destruct (reward_fn_keys 1 [8%nat] all_flags) as (Hn & Hm & Hb & Ht & _).
  { apply (bool_decide_unpack _). vm_compute. exact I. }
  split; [apply Hn; repeat split; by eexists|].
  split; [apply Hm; repeat split; by eexists|].
  split; [apply Hb; repeat split; by eexists|].
  apply Ht; repeat split; by eexists.
Defined.

(** X2. [moe_reward_fn] and [true_reward_fn] look at reached_diamond and
    reached_ghost only: two dictionaries that agree on these two keys get
    the same result, whatever they hold for oversight or any other key. *)
Theorem reward_fn_ignores_oversight (d : nat) (info info' : gmap string (tensor Qc d)) :
  info !! "reached_diamond" = info' !! "reached_diamond" →
  info !! "reached_ghost" = info' !! "reached_ghost" →
  moe_reward_fn d info = moe_reward_fn d info' ∧
  true_reward_fn d info = true_reward_fn d info'.
Proof.
  intros Hrd Hrg. unfold moe_reward_fn, true_reward_fn, getitem.
  by rewrite Hrd, Hrg.
Qed.

Lemma reward_fn_ignores_oversight_witness :
  moe_reward_fn 1 all_flags = moe_reward_fn 1 all_flags_unseen ∧
  true_reward_fn 1 all_flags = true_reward_fn 1 all_flags_unseen.
Proof.
  exact (reward_fn_ignores_oversight 1 all_flags all_flags_unseen eq_refl eq_refl).
Defined.

(** X3. How the rewards relate at one entry: without oversight the naive
    reward is the mixture-of-experts reward; under oversight it is the true
    reward unless both terminals are flagged; the biased reward is the
    mixture-of-experts reward except for diamond under oversight (1.03);
    and the true reward is the mixture-of-experts reward wherever the ghost
    is not reached. *)
Theorem reward_fns_related (d : nat) (info : gmap string (tensor Qc d))
    (o rd rg : tensor Qc d) :
  info !! "oversight" = Some o →
  info !! "reached_diamond" = Some rd →
  info !! "reached_ghost" = Some rg →
  ∃ (naive biased true_ : tensor Qc d) (moe : tensor bool d),
    naive_reward_fn d info = Ok (FloatT naive) ∧
    moe_reward_fn d info = Ok (BoolT moe) ∧
    biased_moe_reward_fn d info = Ok (FloatT biased) ∧
    true_reward_fn d info = Ok (FloatT true_) ∧
    ∀ (ix : list nat) (s x y : Qc),
      tget d o ix = Some s → tget d rd ix = Some x → tget d rg ix = Some y →
      ∃ (vn vb vt : Qc) (bm : bool),
        tget d naive ix = Some vn ∧ tget d moe ix = Some bm ∧
        tget d biased ix = Some vb ∧ tget d true_ ix = Some vt ∧
        (s ≠ 1 → vn = b2q bm) ∧
        (s = 1 → ¬ (x = 1 ∧ y = 1) → vn = vt) ∧
        (¬ (x = 1 ∧ s = 1) → vb = b2q bm) ∧
        (y ≠ 1 → vt = b2q bm).
Proof.
  intros Ho Hrd Hrg.
  unfold naive_reward_fn, moe_reward_fn, biased_moe_reward_fn, true_reward_fn.
  rewrite (getitem_Some _ _ _ _ Ho), (getitem_Some _ _ _ _ Hrd),
    (getitem_Some _ _ _ _ Hrg). cbn [mbind Result_bind].
  eexists _, _, _, _. repeat (split; [reflexivity|]).
  intros ix s x y Hs Hx Hy. eexists _, _, _, _.
  split; [unfold sub_long_float, mul_float_long, smul_bool, long, bor, eq_scalar; entry|].
  split; [unfold bor, eq_scalar; entry|].
  split; [unfold add_float_bool, smul_bool, logical_and, bnot, bor, eq_scalar; entry|].
  split; [unfold sub_long_float, smul_long, long, eq_scalar; entry|].
  split_eq1 s; split_eq1 x; split_eq1 y; scalar_cases; intuition congruence.
Qed.

Lemma reward_fns_related_witness :
  ∃ (naive biased true_ : tensor Qc 1) (moe : tensor bool 1),
    naive_reward_fn 1 all_flags = Ok (FloatT naive) ∧
    moe_reward_fn 1 all_flags = Ok (BoolT moe) ∧
    biased_moe_reward_fn 1 all_flags = Ok (FloatT biased) ∧
    true_reward_fn 1 all_flags = Ok (FloatT true_) ∧
    tget 1 naive [1%nat] = b2q <$> tget 1 moe [1%nat] ∧
    tget 1 naive [5%nat] = tget 1 true_ [5%nat].
Proof.
  destruct (reward_fns_related 1 all_flags [0; 0; 0; 0; 1; 1; 1; 1]
              [0; 0; 1; 1; 0; 0; 1; 1] [0; 1; 0; 1; 0; 1; 0; 1]
              eq_refl eq_refl eq_refl)
    as (naive & biased & true_ & moe & Hn & Hm & Hb & Ht & Hent).
  exists naive, biased, true_, moe. repeat (split; [assumption|]).
  destruct (Hent [1%nat] 0 0 1 eq_refl eq_refl eq_refl)
    as (vn & vb & vt & bm & -> & -> & _ & _ & H1 & _).
  destruct (Hent [5%nat] 1 0 1 eq_refl eq_refl eq_refl)
    as (vn' & vb' & vt' & bm' & -> & _ & _ & -> & _ & H5 & _).
  split; [by rewrite H1|]. rewrite H5; [done|done|]. by intros [? _].
Defined.

(** ** End-of-episode statistics: when they exist, and their bounds *)

Lemma tall_false {A : Type} (p : A → bool) (d : nat) (t : tensor A d) :
  tall p d t = false → ∃ (ix : list nat) (v : A), tget d t ix = Some v ∧ p v = false.
Proof.
  revert t. induction d as [|d IH]; intros t.
  - intros Hp. by exists [], t.
  - change (list (tensor A d)) in t. cbn [tall].
    induction t as [|r t IHt]; [done|]. cbn [forallb].
    destruct (tall p d r) eqn:Hr.
    + intros Ht. destruct (IHt Ht) as (ix & v & Hv & Hp).
      destruct ix as [|i ix]; [done|]. by exists (S i :: ix), v.
    + intros _. destruct (IH r Hr) as (ix & v & Hv & Hp).
      exists (0%nat :: ix), v. by split.
Qed.

(** Some episode is complete exactly when some entry of oversight is not -1. *)
Lemma count_complete_nonzero (d : nat) (o : tensor Qc d) :
  count d (ne_scalar d o (-1)) ≠ 0%Z ↔
  ∃ (ix : list nat) (v : Qc), tget d o ix = Some v ∧ v ≠ -1.
Proof.
  split.
  - intros Hn. destruct (tall negb d (ne_scalar d o (-1))) eqn:Hall.
    { by apply count_zero in Hall. }
    apply tall_false in Hall as (ix & b & Hb & Hneg). unfold ne_scalar in Hb.
    rewrite tget_tmap in Hb. destruct (tget d o ix) as [v|] eqn:Hv; [|done].
    injection Hb as <-. rewrite negb_involutive in Hneg.
    exists ix, v. split; [done|]. by apply bool_decide_eq_false in Hneg.
  - intros (ix & v & Hv & Hne) Hz. apply Hne.
    by apply (proj1 (count_complete_zero d o) Hz ix).
Qed.

(** What a returned value of [get_end_stats] tells: the four tensors were
    there, some episode was complete, and the statistics are the ratios. *)
Lemma get_end_stats_Ok_inv (d : nat) (info : gmap string (tensor Qc d))
    (st : EndStats) :
  get_end_stats d info = Ok st →
  ∃ o rd rg ns : tensor Qc d,
    info !! "oversight" = Some o ∧ info !! "reached_diamond" = Some rd ∧
    info !! "reached_ghost" = Some rg ∧ info !! "num_steps" = Some ns ∧
    count d (ne_scalar d o (-1)) ≠ 0%Z ∧
    n_complete_eps st = count d (ne_scalar d o (-1)) ∧
    reached_diamond_seen st
      = z2q (count d (bmul d (eq_scalar d rd 1) (eq_scalar d o 1)))
        / z2q (count d (ne_scalar d o (-1))) ∧
    reached_ghost_seen st
      = z2q (count d (bmul d (eq_scalar d rg 1) (eq_scalar d o 1)))
        / z2q (count d (ne_scalar d o (-1))) ∧
    reached_diamond_unseen st
      = z2q (count d (bmul d (eq_scalar d rd 1) (bnot d (eq_scalar d o 1))))
        / z2q (count d (ne_scalar d o (-1))) ∧
    reached_ghost_unseen st
      = z2q (count d (bmul d (eq_scalar d rg 1) (bnot d (eq_scalar d o 1))))
        / z2q (count d (ne_scalar d o (-1))).
Proof.
  intros Hst. unfold get_end_stats, getitem in Hst.
  destruct (info !! "reached_diamond") as [rd|]; [|done].
  destruct (info !! "reached_ghost") as [rg|]; [|done].
  destruct (info !! "oversight") as [o|]; [|done].
  cbn [mbind Result_bind] in Hst.
  destruct (decide (count d (ne_scalar d o (-1)) = 0%Z)) as [Hz|Hnz].
  { by rewrite Hz in Hst. }
  rewrite !truediv_nonzero in Hst by done. cbn [mbind Result_bind] in Hst.
  destruct (info !! "num_steps") as [ns|]; [|done].
  cbn [mbind Result_bind] in Hst. rewrite truediv_nonzero in Hst by done.
  injection Hst as <-. by exists o, rd, rg, ns.
Qed.

(** X4. On an info dictionary whose tensors have one shape,
    [get_end_stats] returns statistics exactly when the dictionary holds
    reached_diamond, reached_ghost, oversight and num_steps and some entry
    of oversight differs from -1; with the three flag tensors present and
    an oversight entry other than -1, a missing num_steps is the KeyError
    it raises. *)
Theorem get_end_stats_completes (d : nat) (shape : list nat)
    (info : gmap string (tensor Qc d)) :
  map_Forall (λ _ t, has_shape shape d t = true) info →
  (completes (get_end_stats d info) ↔
     is_Some (info !! "reached_diamond") ∧ is_Some (info !! "reached_ghost") ∧
     is_Some (info !! "num_steps") ∧
     ∃ (o : tensor Qc d) (ix : list nat) (v : Qc),
       info !! "oversight" = Some o ∧ tget d o ix = Some v ∧ v ≠ -1) ∧
  (is_Some (info !! "reached_diamond") → is_Some (info !! "reached_ghost") →
   (∃ (o : tensor Qc d) (ix : list nat) (v : Qc),
       info !! "oversight" = Some o ∧ tget d o ix = Some v ∧ v ≠ -1) →
   info !! "num_steps" = None →
   get_end_stats d info = Raise (KeyError "num_steps")).
Proof.
  intros _. split.
  - split.
    + intros [st Hst].
      apply get_end_stats_Ok_inv in Hst
        as (o & rd & rg & ns & Ho & Hrd & Hrg & Hns & Hnz & _).
      rewrite Hrd, Hrg, Hns. repeat (split; [by eexists|]).
      apply count_complete_nonzero in Hnz as (ix & v & Hv & Hne). by exists o, ix, v.
    + intros ([rd Hrd] & [rg Hrg] & [ns Hns] & o & ix & v & Ho & Hv & Hne).
      eexists. apply (get_end_stats_complete d info o rd rg ns Ho Hrd Hrg Hns).
      apply count_complete_nonzero. by exists ix, v.
  - intros [rd Hrd] [rg Hrg] (o & ix & v & Ho & Hv & Hne) Hns.
    assert (Hnz : count d (ne_scalar d o (-1)) ≠ 0%Z).
    { apply count_complete_nonzero. by exists ix, v. }
    unfold get_end_stats.
    rewrite (getitem_Some _ _ _ _ Ho), (getitem_Some _ _ _ _ Hrd),
      (getitem_Some _ _ _ _ Hrg). cbn [mbind Result_bind].
    rewrite !truediv_nonzero by done. cbn [mbind Result_bind].
    unfold getitem. by rewrite Hns.
Qed.

Lemma get_end_stats_completes_witness :
  completes (get_end_stats 1 example_info) ∧
  get_end_stats 1 example_flags = Raise (KeyError "num_steps").
Proof.
  assert (Hentry : ∃ (o : tensor Qc 1) (ix : list nat) (v : Qc),
            Some [1; -1; 1] = Some o ∧ tget 1 o ix = Some v ∧ v ≠ -1).
  { exists [1; -1; 1], [0%nat], 1. split; [reflexivity|]. split; [reflexivity|].
    intros H. discriminate (f_equal (λ q : Qc, Qnum q) H). }
  split.
  - apply (get_end_stats_completes 1 [3%nat] example_info).
    { apply (bool_decide_unpack _). vm_compute. exact I. }
    split; [by eexists|]. split; [by eexists|]. split; [by eexists|]. exact Hentry.
  - apply (get_end_stats_completes 1 [3%nat] example_flags).
    { apply (bool_decide_unpack _). vm_compute. exact I. }
    + by eexists.
    + by eexists.
    + exact Hentry.
    + reflexivity.
Defined.

Lemma z2q_le (a b : Z) : (a ≤ b)%Z → z2q a ≤ z2q b.
Proof.
  intros Hab. unfold z2q, Qcle. cbn [this Q2Qc]. rewrite !Qred_correct.
  by rewrite <- Zle_Qle.
Qed.

Lemma z2q_pos (n : Z) : (0 < n)%Z → 0 < z2q n.
Proof.
  intros Hn. unfold z2q, Qclt. cbn [this Q2Qc]. rewrite !Qred_correct.
  rewrite (Zlt_Qlt 0 n) in Hn. exact Hn.
Qed.

(** A ratio of counts [a / n] with [0 <= a <= n] lies in [0, 1]. *)
Lemma ratio_bounds (a n : Z) :
  (0 ≤ a)%Z → (0 < n)%Z → 0 ≤ z2q a / z2q n ∧ ((a ≤ n)%Z → z2q a / z2q n ≤ 1).
Proof.
  intros Ha Hn. pose proof (z2q_pos n Hn) as Hpos.
  assert (Hne : z2q n ≠ 0) by (intros Heq; rewrite Heq in Hpos; by apply Qclt_not_eq in Hpos).
  assert (Hmul : z2q a / z2q n * z2q n = z2q a).
  { rewrite Qcmult_comm. by apply Qcmult_div_r. }
  split.
  - apply (Qcmult_lt_0_le_reg_r _ _ (z2q n) Hpos).
    rewrite Hmul, Qcmult_0_l. by apply (z2q_le 0 a).
  - intros Hle. apply (Qcmult_lt_0_le_reg_r _ _ (z2q n) Hpos).
    rewrite Hmul, Qcmult_1_l. by apply z2q_le.
Qed.

(** Entries counted in a conjunction are counted in a weaker test of its
    second operand. *)
Lemma count_and_le {A B : Type} (p : A → bool) (q r : B → bool) (d : nat)
    (x : tensor A d) (y : tensor B d) :
  (∀ v : B, q v = true → r v = true) →
  (count d (tzip andb d (tmap p d x) (tmap q d y)) ≤ count d (tmap r d y))%Z.
Proof.
  intros Hqr. revert x y. induction d as [|d IH]; intros x y.
  - cbn. specialize (Hqr y). destruct (p x), (q y), (r y); cbn; try lia.
    all: by specialize (Hqr eq_refl).
  - change (list (tensor A d)) in x. change (list (tensor B d)) in y.
    revert y. induction x as [|a x IHx]; intros [|b y].
    + done.
    + apply (count_nonneg (S d) (tmap r (S d) (b :: y))).
    + done.
    + specialize (IH a b). specialize (IHx y).
      unfold count, long in *. cbn [tmap tzip fmap list_fmap zip_with tsumZ foldr] in *.
      lia.
Qed.

(** X5. On an info dictionary whose tensors have one shape, whenever
    [get_end_stats] returns, the number of complete episodes is positive,
    the two "seen" fractions lie in [0, 1], and the two "unseen" fractions
    are not negative. *)
Theorem get_end_stats_bounds (d : nat) (shape : list nat)
    (info : gmap string (tensor Qc d)) (st : EndStats) :
  map_Forall (λ _ t, has_shape shape d t = true) info →
  get_end_stats d info = Ok st →
  (0 < n_complete_eps st)%Z ∧
  0 ≤ reached_diamond_seen st ∧ reached_diamond_seen st ≤ 1 ∧
  0 ≤ reached_ghost_seen st ∧ reached_ghost_seen st ≤ 1 ∧
  0 ≤ reached_diamond_unseen st ∧ 0 ≤ reached_ghost_unseen st.
Proof.
  intros _ Hst.
  apply get_end_stats_Ok_inv in Hst
    as (o & rd & rg & ns & _ & _ & _ & _ & Hnz & -> & -> & -> & -> & ->).
  pose proof (count_nonneg d (ne_scalar d o (-1))) as Hn.
  assert (Hpos : (0 < count d (ne_scalar d o (-1)))%Z) by lia.
  assert (Hseen : ∀ x : tensor Qc d,
            (count d (bmul d (eq_scalar d x 1) (eq_scalar d o 1))
             ≤ count d (ne_scalar d o (-1)))%Z).
  { intros x. unfold bmul, eq_scalar, ne_scalar. apply count_and_le.
    intros v Hv. apply bool_decide_eq_true in Hv as ->. done. }
  split; [done|].
  repeat split;
    first [ apply ratio_bounds; [apply count_nonneg|done]
          | apply ratio_bounds; [apply count_nonneg|done|apply Hseen] ].
Qed.

Lemma get_end_stats_bounds_witness :
  ∃ st : EndStats,
    get_end_stats 1 example_info = Ok st ∧
    (0 < n_complete_eps st)%Z ∧
    0 ≤ reached_diamond_seen st ∧ reached_diamond_seen st ≤ 1.
Proof.
  pose proof (get_end_stats_complete 1 example_info [1; -1; 1] [1; 0; 0] [0; 0; 1]
                [z2q 4; z2q 9; z2q 7] eq_refl eq_refl eq_refl eq_refl
                ltac:(done)) as Hst.
  eexists. split; [exact Hst|].
  destruct (get_end_stats_bounds 1 [3%nat] example_info _
              ltac:(apply (bool_decide_unpack _); vm_compute; exact I) Hst)
    as (H1 & H2 & H3 & _).
  by repeat split.
Defined.

(** ** The scan: when it completes, and what it computes *)

#[local] Open Scope nat_scope.

Lemma returns_step_error (d : nat) (discount : Qc) (dones returns : list (tensor Qc d))
    (k : nat) (e : PyError) :
  returns_step d discount dones returns k = Raise e → e = IndexError.
Proof.
  unfold returns_step, getrow, setrow.
  destruct (returns !! k); [|by intros [= <-]].
  destruct (returns !! (k + 1)); [|by intros [= <-]].
  destruct (dones !! k); [|by intros [= <-]].
  cbn [mbind Result_bind]. case_bool_decide; [done|by intros [= <-]].
Qed.

Lemma for_each_error {S K : Type} (body : S → K → Result S) (err : PyError) :
  (∀ (s : S) (k : K) (e : PyError), body s k = Raise e → e = err) →
  ∀ (ks : list K) (s : S) (e : PyError), for_each body ks s = Raise e → e = err.
Proof.
  intros Hbody ks. induction ks as [|k ks IH]; intros s e; [done|].
  cbn [for_each]. destruct (body s k) as [s'|e'] eqn:Hk; cbn [mbind Result_bind].
  - apply IH.
  - intros [= <-]. by eapply Hbody.
Qed.

(** X6. On reward rows and done rows of one shape, the scan over [n] steps
    completes exactly when [n <= 1] (no iteration) or the returns have at
    least [n] rows and the done flags at least [n - 1]; with [n <= 1] it
    hands the rewards back untouched, and when it does not complete it
    raises IndexError. *)
Theorem discounted_returns_completes (d : nat) (shape : list nat) (discount : Qc)
    (n : nat) (dones rewards : list (tensor Qc d)) :
  Forall (λ row, has_shape shape d row = true) rewards →
  Forall (λ row, has_shape shape d row = true) dones →
  (completes (discounted_returns d discount n dones rewards) ↔
     n ≤ 1 ∨ (n ≤ length rewards ∧ n - 1 ≤ length dones)) ∧
  (n ≤ 1 → discounted_returns d discount n dones rewards = Ok rewards) ∧
  (∀ e : PyError, discounted_returns d discount n dones rewards = Raise e →
     e = IndexError).
Proof.
  intros _ _. split; [|split].
  - split.
    + intros [returns Hrun]. destruct (decide (n ≤ 1)) as [|Hn]; [by left|right].
      unfold discounted_returns in Hrun.
      replace (n - 1) with (S (n - 2)) in Hrun by lia.
      rewrite seq_S, reverse_snoc in Hrun. cbn [for_each Nat.add] in Hrun.
      destruct (returns_step d discount dones rewards (n - 2)) as [start|] eqn:Hstep;
        [|done].
      apply returns_step_inv in Hstep as (rk & rk1 & dk & _ & Hk1 & Hdk & _).
      apply lookup_lt_Some in Hk1, Hdk. lia.
    + intros [Hn|[Hr Hd]].
      * exists rewards. unfold discounted_returns.
        by replace (n - 1) with 0 by lia.
      * destruct (scan_rows d discount dones (n - 1) rewards) as (returns & Hrun & _);
          [lia|lia|]. by exists returns.
  - intros Hn. unfold discounted_returns. by replace (n - 1) with 0 by lia.
  - apply for_each_error. intros s k e. apply returns_step_error.
Qed.

Lemma discounted_returns_completes_witness :
  completes (discounted_returns 1 one_half 3 example_dones example_rewards) ∧
  ¬ completes (discounted_returns 1 one_half 4 example_dones example_rewards).
Proof.
  destruct (discounted_returns_completes 1 [2] one_half 3 example_dones example_rewards)
    as (H3 & _); [by repeat constructor|by repeat constructor|].
  destruct (discounted_returns_completes 1 [2] one_half 4 example_dones example_rewards)
    as (H4 & _); [by repeat constructor|by repeat constructor|].
  split.
  - apply H3. right. cbn. lia.
  - intros Hc. apply H4 in Hc. cbn in Hc. lia.
Defined.

Lemma returns_by_recurrence_length (d : nat) (discount : Qc)
    (rewards dones : list (tensor Qc d)) :
  length (returns_by_recurrence d discount rewards dones) = length rewards.
Proof.
  revert dones. induction rewards as [|r rewards IH]; intros [|dn dones]; try done.
  cbn [returns_by_recurrence]. specialize (IH dones).
  destruct (returns_by_recurrence d discount rewards dones) as [|next rest].
  - destruct rewards; [done|discriminate IH].
  - cbn [length] in *. by rewrite IH.
Qed.

(** A list of rows that obeys the recurrence is the one the recursive
    definition computes. *)
Lemma recurrence_unique (d : nat) (discount : Qc) (rewards : list (tensor Qc d)) :
  ∀ dones returns : list (tensor Qc d),
    length dones = length rewards →
    length returns = length rewards →
    (∀ i : nat, length rewards - 1 ≤ i → returns !! i = rewards !! i) →
    (∀ i : nat, i < length rewards - 1 →
       ∃ rk rk1 dk : tensor Qc d,
         rewards !! i = Some rk ∧ returns !! (i + 1) = Some rk1 ∧
         dones !! i = Some dk ∧
         returns !! i = Some (bootstrap d discount rk rk1 dk)) →
    returns = returns_by_recurrence d discount rewards dones.
Proof.
  induction rewards as [|r rewards IH]; intros dones returns Hd Hl Hhi Hlo.
  - by destruct returns.
  - destruct dones as [|dn dones]; [done|]. destruct returns as [|v vs]; [done|].
    cbn [length] in *.
    assert (Hvs : vs = returns_by_recurrence d discount rewards dones).
    { apply IH; [lia|lia| |].
      - intros i Hi. apply (Hhi (S i)). lia.
      - intros i Hi. destruct (Hlo (S i)) as (rk & rk1 & dk & H1 & H2 & H3 & H4); [lia|].
        by exists rk, rk1, dk. }
    cbn [returns_by_recurrence]. rewrite <- Hvs. destruct vs as [|next rest].
    + destruct rewards; [|done]. specialize (Hhi 0 ltac:(cbn; lia)).
      by injection Hhi as ->.
    + destruct (Hlo 0) as (rk & rk1 & dk & H1 & H2 & H3 & H4); [cbn in *; lia|].
      cbn in H1, H2, H3, H4. by simplify_eq.
Qed.

(** X7. On a reward tensor and a done tensor of one shape, the in-place
    reverse scan of generate_and_process_batch computes exactly the returns
    of the recurrence read from the last step back. *)
Theorem discounted_returns_refines (d : nat) (discount : Qc) (n : nat)
    (shape : list nat) (rewards dones : list (tensor Qc d)) :
  has_shape (n :: shape) (S d) rewards = true →
  has_shape (n :: shape) (S d) dones = true →
  discounted_returns d discount n dones rewards
    = Ok (returns_by_recurrence d discount rewards dones).
Proof.
  intros Hrw Hdn.
  apply has_shape_cons in Hrw as [Hn _]. apply has_shape_cons in Hdn as [Hn' _].
  subst n.
  destruct (scan_rows d discount dones (length rewards - 1) rewards)
    as (returns & Hrun & Hl & Hhi & Hlo); [lia|lia|].
  unfold discounted_returns. rewrite Hrun. f_equal.
  by apply recurrence_unique.
Qed.

Lemma discounted_returns_refines_witness :
  discounted_returns 1 one_half 3 example_dones example_rewards
    = Ok (returns_by_recurrence 1 one_half example_rewards example_dones).
Proof.
  exact (discounted_returns_refines 1 one_half 3 [2] example_rewards example_dones
           eq_refl eq_refl).
Defined.

(** Two tensors of one shape with the same entries are equal. *)
Lemma tensor_ext {A : Type} (shape : list nat) (d : nat) (s t : tensor A d) :
  has_shape shape d s = true → has_shape shape d t = true →
  (∀ ix : list nat, tget d s ix = tget d t ix) → s = t.
Proof.
  revert shape s t. induction d as [|d IH]; intros shape s t Hs Ht Hent.
  - specialize (Hent []). by injection Hent.
  - change (list (tensor A d)) in s. change (list (tensor A d)) in t.
    destruct shape as [|n shape]; [done|].
    apply has_shape_cons in Hs as [Hn Hs]. apply has_shape_cons in Ht as [Hn' Ht].
    apply (list_eq_same_length s t n); [done|done|].
    intros i a b _ Ha Hb. apply (IH shape); [by eapply Hs|by eapply Ht|].
    intros ix. specialize (Hent (i :: ix)). cbn [tget] in Hent.
    by rewrite Ha, Hb in Hent.
Qed.

(** X8. With a zero discount, or with every done flag equal to 1, the scan
    returns the rewards unchanged (on tensors of one shape). *)
Theorem discounted_returns_no_bootstrap (d : nat) (discount : Qc) (n : nat)
    (shape : list nat) (rewards dones : list (tensor Qc d)) :
  has_shape (n :: shape) (S d) rewards = true →
  has_shape (n :: shape) (S d) dones = true →
  discount = 0%Qc ∨
    (∀ (ix : list nat) (dn : Qc), tget (S d) dones ix = Some dn → dn = 1%Qc) →
  discounted_returns d discount n dones rewards = Ok rewards.
Proof.
  intros Hrw Hdn Hcase.
  destruct (scan_shape d discount n shape rewards dones Hrw Hdn)
    as (returns & Hrun & Hret & Hhi & Hlo).
  rewrite Hrun. f_equal.
  apply (tensor_ext (n :: shape) (S d) returns rewards Hret Hrw).
  apply has_shape_cons in Hrw as [Hn Hrows]. apply has_shape_cons in Hdn as [Hn' Hdrows].
  apply has_shape_cons in Hret as [Hn'' Hshape].
  intros [|k ix]; [done|]. cbn [tget].
  destruct (decide (k < n - 1)) as [Hlt|Hge]; [|by rewrite Hhi by lia].
  destruct (Hlo k Hlt) as (rk & rk1 & dk & H1 & H2 & H3 & H4).
  rewrite H4, H1. cbn [mbind option_bind].
  destruct (tget d rk ix) as [r|] eqn:Hr.
  - destruct (proj2 (has_shape_tget shape d rk1 ix (Hshape _ _ H2))) as [v' Hv'].
    { apply (has_shape_tget shape d rk ix (Hrows _ _ H1)). eauto. }
    destruct (proj2 (has_shape_tget shape d dk ix (Hdrows _ _ H3))) as [dn Hd].
    { apply (has_shape_tget shape d rk ix (Hrows _ _ H1)). eauto. }
    rewrite (tget_bootstrap _ _ _ _ _ _ _ _ _ Hr Hv' Hd). f_equal.
    destruct Hcase as [->|Hone]; [ring|].
    rewrite (Hone (k :: ix) dn); [ring|]. cbn [tget]. by rewrite H3.
  - unfold bootstrap, add_float. rewrite tget_tzip, Hr. done.
Qed.

Lemma discounted_returns_no_bootstrap_witness :
  discounted_returns 1 0 3 example_dones example_rewards = Ok example_rewards.
Proof.
  apply (discounted_returns_no_bootstrap 1 0 3 [2] example_rewards example_dones
           eq_refl eq_refl).
  by left.
Defined.

(** ** The rollout: shapes, keys and calls *)

#[local] Open Scope nat_scope.

Lemma expand_elem {X : Type} (n : nat) (v v' : list X) :
  expand n v = Ok v' → length v' = n ∧ ∀ y : X, y ∈ v' → y ∈ v.
Proof.
  unfold expand. case_bool_decide; [by intros [= <-]|].
  destruct v as [|x [|y v]]; [done| |done]. intros [= <-].
  split; [apply length_replicate|]. intros y Hy.
  apply elem_of_replicate in Hy as [-> _]. apply list_elem_of_here.
Qed.

Lemma mapM_expand {X : Type} (n : nat) (v rows : list (list X)) :
  mapM (expand n) v = Ok rows → ∀ r : list X, r ∈ rows → length r = n.
Proof.
  revert rows. induction v as [|x v IH]; intros rows; cbn [mapM].
  - intros [= <-] r Hr. by apply elem_of_nil in Hr.
  - destruct (expand n x) as [y|] eqn:Hx; [|done]. cbn [mbind Result_bind].
    destruct (mapM (expand n) v) as [k|]; [|done]. cbn [mbind Result_bind].
    intros [= <-] r Hr. apply elem_of_cons in Hr as [->|Hr]; [|by eapply IH].
    by apply expand_Ok in Hx.
Qed.

Lemma expand2_shape {X : Type} (m n : nat) (v x : list (list X)) :
  expand2 m n v = Ok x → has_shape [m; n] 2 x = true.
Proof.
  unfold expand2. destruct (mapM (expand n) v) as [rows|] eqn:Hrows; [|done].
  cbn [mbind Result_bind]. intros Hx. apply expand_elem in Hx as [Hm Hin].
  apply (has_shape_cons m [n] 1 x). split; [done|]. intros i r Hi.
  apply has_shape_row. apply (mapM_expand n v rows Hrows).
  apply Hin. by eapply list_elem_of_lookup_2.
Qed.

Lemma copy_info_keys (n step : nat) (info : gmap string (tensor Qc 1))
    (infos infos' : gmap string (tensor Qc 2)) (key : string) :
  copy_info n step info infos key = Ok infos' →
  ∀ k : string, is_Some (infos' !! k) ↔ is_Some (infos !! k).
Proof.
  unfold copy_info, getitem.
  destruct (info !! key) as [v|]; [|done].
  destruct (infos !! key) as [slot|] eqn:Hslot; [|done]. cbn [mbind Result_bind].
  destruct (expand n v) as [row|]; [|done]. cbn [mbind Result_bind].
  destruct (setrow slot step row) as [slot'|]; [|done]. cbn [mbind Result_bind].
  intros [= <-] k. rewrite lookup_insert_is_Some.
  destruct (decide (key = k)) as [<-|Hne].
  - rewrite Hslot. split; [by eexists|by left].
  - split; [by intros [?|[_ ?]]|by right].
Qed.

Section RolloutProperties.
Context {Obj W : Type}.
Variable h : ∀ X : Type, @Ext Obj X → W → Result X * W.

#[local] Ltac run_step H :=
  cbv beta zeta in H;
  apply run_bind_Ok in H as (? & ? & ? & ? & ? & H & ->).

#[local] Ltac run_lift H name :=
  cbv beta zeta in H;
  let Hl := fresh "Hl" in
  apply run_bind_Ok in H as (? & ? & ? & ? & Hl & H & ->);
  apply run_lift_Ok in Hl as (name & -> & ->).

#[local] Ltac run_call H :=
  cbv beta zeta in H;
  let Hc := fresh "Hc" in
  apply run_bind_Ok in H as (? & ? & ? & ? & Hc & H & ->);
  apply run_call_Ok in Hc as ->.

(** An invariant of the loop index, the loop state and the calls made so
    far that every completed iteration carries forward holds after a
    completed loop over consecutive indices. *)
Lemma run_for_prog_seq {S : Type} (body : S → nat → Prog S)
    (P : nat → S → list (@Event Obj) → Prop) :
  (∀ (i : nat) (s s' : S) (w w' : W) (c c' : list Event),
     P i s c → run h (body s i) w = (Ok s', w', c') → P (Datatypes.S i) s' (c ++ c')) →
  ∀ (n a : nat) (s s' : S) (w w' : W) (c c' : list Event),
    P a s c → run h (for_prog body (seq a n) s) w = (Ok s', w', c') →
    P (a + n) s' (c ++ c').
Proof.
  intros Hbody n. induction n as [|n IH]; intros a s s' w w' c c' Hs.
  - intros [= <- _ <-]. by rewrite Nat.add_0_r, app_nil_r.
  - cbn [seq for_prog]. intros Hrun.
    apply run_bind_Ok in Hrun as (s1 & w1 & c1 & c2 & H1 & H2 & ->).
    rewrite app_assoc, <- Nat.add_succ_comm. eauto.
Qed.

(** X9. A completed [generate_batch] returns observations of shape
    (num_steps, n_envs, features), actions and done flags of shape
    (num_steps, n_envs), and an [infos] dictionary with exactly the five
    keys oversight, reached_diamond, reached_ghost, num_steps and
    was_diamond_optimal, each a tensor of shape (num_steps, n_envs). *)
Theorem generate_batch_result_shapes (multienv : @MultiEnv Obj) (policy : Obj)
    (num_steps : nat) (device : Obj) (w w' : W) (c : list Event)
    (obs : tensor Qc 3) (actions : tensor Z 2) (dones : tensor Qc 2)
    (infos : gmap string (tensor Qc 2)) :
  run h (generate_batch multienv policy num_steps device) w
    = (Ok (obs, actions, dones, infos), w', c) →
  has_shape [num_steps; n_envs multienv; features multienv] 3 obs = true ∧
  has_shape [num_steps; n_envs multienv] 2 actions = true ∧
  has_shape [num_steps; n_envs multienv] 2 dones = true ∧
  (∀ key : string, is_Some (infos !! key) ↔ key ∈ info_keys) ∧
  ∀ (key : string) (t : tensor Qc 2),
    infos !! key = Some t → has_shape [num_steps; n_envs multienv] 2 t = true.
Proof.
  unfold generate_batch. intros H. run_step H. run_step H.
  apply run_Ret in H as (Heq & _ & _). injection Heq as -> -> -> ->.
  set (n := n_envs multienv) in *. set (f := features multienv).
  pose (P := λ st : Rollout,
    has_shape [num_steps; n; f] 3 (r_obs st) = true ∧
    has_shape [num_steps; n] 2 (r_actions st) = true ∧
    has_shape [num_steps; n] 2 (r_dones st) = true ∧
    (∀ key : string, is_Some (r_infos st !! key) ↔ key ∈ info_keys) ∧
    map_Forall (λ _ t, has_shape [num_steps; n] 2 t = true) (r_infos st)).
  eapply (run_for_prog_inv h (rollout_step multienv policy) P); [| |eassumption].
  - clear. intros st st' step w w' c (Hobs & Hact & Hdones & Hkeys & Hinfos) H.
    unfold rollout_step in H. fold n f in H.
    run_lift H Hv. run_lift H Hset. run_lift H Hget. run_step H.
    run_lift H Ha. run_lift H Hsa. run_lift H Hga. run_step H.
    cbv beta zeta in H.
    match type of H with
    | run _ (let '(_, _) := ?p in _) _ = _ => destruct p as [[next_obs info] dones_step]
    end.
    run_lift H Hdn. run_lift H Hsd. run_lift H Hcp.
    apply run_Ret in H as (-> & _ & _).
    apply setrow_Ok in Hset as [-> _]. apply setrow_Ok in Hsa as [-> _].
    apply setrow_Ok in Hsd as [-> _].
    apply expand_Ok in Hdn, Ha. apply expand2_shape in Hv.
    unfold P. cbn [r_obs r_actions r_dones r_infos]. split; [|split; [|split]].
    + by apply (has_shape_insert num_steps [n; f] 2 (r_obs st)).
    + apply (has_shape_insert num_steps [n] 1 (r_actions st));
        [done|by apply has_shape_row].
    + apply (has_shape_insert num_steps [n] 1 (r_dones st));
        [done|by apply has_shape_row].
    + revert Hcp.
      apply (for_each_inv (copy_info n step info)
               (λ m, (∀ key, is_Some (m !! key) ↔ key ∈ info_keys) ∧
                     map_Forall (λ _ t, has_shape [num_steps; n] 2 t = true) m));
        [|done].
      intros s s' key [Hk Hs] Hcopy. split.
      * intros k. by rewrite (copy_info_keys _ _ _ _ _ _ Hcopy k).
      * by eapply copy_info_shape.
  - assert (Hempty : ∀ (A : Type) (z : A),
              has_shape [num_steps; n] 2 (empty2 z num_steps n) = true).
    { intros A z. apply (has_shape_replicate num_steps [n] 1), has_shape_row,
        length_replicate. }
    unfold P. cbn [r_obs r_actions r_dones r_infos].
    split; [|split; [|split; [|split]]]; [|apply Hempty|apply Hempty| |].
    + apply (has_shape_replicate num_steps [n; f] 2), (has_shape_replicate n [f] 1),
        has_shape_row, length_replicate.
    + intros key. rewrite <- elem_of_dom, dom_list_to_map_L, elem_of_list_to_set.
      by rewrite <- list_fmap_compose, list_fmap_id.
    + cbn [info_keys fmap list_fmap list_to_map foldr].
      repeat (apply map_Forall_insert_2; [apply Hempty|]). apply map_Forall_empty.
Qed.

(** X10. A completed [generate_batch] asks the environment for its
    observations once and then, [num_steps] times, samples an action from
    the policy and steps the environment, and makes no other call; the
    returned [obs] and [actions] hold, row by row, the observations the
    policy was shown and the actions the environment was stepped with. *)
Theorem generate_batch_calls (multienv : @MultiEnv Obj) (policy : Obj)
    (num_steps : nat) (device : Obj) (w w' : W) (c : list Event)
    (obs : tensor Qc 3) (actions : tensor Z 2) (dones : tensor Qc 2)
    (infos : gmap string (tensor Qc 2)) :
  run h (generate_batch multienv policy num_steps device) w
    = (Ok (obs, actions, dones, infos), w', c) →
  ∃ steps : list (tensor Qc 2 * tensor Z 1),
    length steps = num_steps ∧
    c = event (EnvGetObs (env_handle multienv))
        :: (steps ≫= step_calls multienv policy) ∧
    obs = steps.*1 ∧ actions = steps.*2.
Proof.
  unfold generate_batch. intros H. run_call H. run_step H.
  apply run_Ret in H as (Heq & _ & ->). injection Heq as -> -> _ _.
  pose (P := λ (i : nat) (st : Rollout) (c : list (@Event Obj)),
    length (r_obs st) = num_steps ∧ length (r_actions st) = num_steps ∧
    ∃ steps : list (tensor Qc 2 * tensor Z 1),
      length steps = i ∧ c = steps ≫= step_calls multienv policy ∧
      take i (r_obs st) = steps.*1 ∧ take i (r_actions st) = steps.*2).
  match goal with
  | Hloop : run h (for_prog _ _ ?s0) _ = (Ok ?s1, _, ?cs) |- _ =>
      assert (HP : P (0 + num_steps) s1 ([] ++ cs))
  end.
  { eapply (run_for_prog_seq (rollout_step multienv policy) P); [| |eassumption].
    - clear. intros i st st' w w' c c' (Hlo & Hla & steps & Hlen & -> & Hobs & Hact) H.
      unfold rollout_step in H.
      run_lift H Hv. run_lift H Hset. run_lift H Hget. run_call H.
      run_lift H Ha. run_lift H Hsa. run_lift H Hga. run_call H.
      cbv beta zeta in H.
      match type of H with
      | run _ (let '(_, _) := ?p in _) _ = _ => destruct p as [[next_obs info] dones_step]
      end.
      run_lift H Hdn. run_lift H Hsd. run_lift H Hcp.
      apply run_Ret in H as (-> & _ & ->).
      apply setrow_Ok in Hset as [-> Hi]. apply setrow_Ok in Hsa as [-> Hi'].
      unfold getrow in Hget, Hga.
      rewrite list_lookup_insert_eq in Hget by done. injection Hget as <-.
      rewrite list_lookup_insert_eq in Hga by done. injection Hga as <-.
      unfold P. cbn [r_obs r_actions]. rewrite !length_insert.
      split; [done|]. split; [done|].
      match goal with
      | |- context [SampleAction policy ?o] =>
          match goal with |- context [EnvStep _ ?a] => exists (steps ++ [(o, a)]) end
      end.
      rewrite length_app, !fmap_app, bind_app. cbn [length fmap list_fmap mbind list_bind].
      split; [lia|]. split; [by rewrite !app_nil_r|].
      split; (erewrite take_S_r by (by apply list_lookup_insert_eq));
        rewrite take_insert_ge by done; cbn [fst snd];
        first [by rewrite Hobs | by rewrite Hact].
    - unfold P. cbn [r_obs r_actions]. unfold empty3, empty2.
      rewrite !length_replicate. split; [done|]. split; [done|]. by exists []. }
  destruct HP as (Hlo & Hla & steps & Hlen & Hc & Hobs & Hact).
  exists steps. cbn [Nat.add app] in *.
  rewrite take_ge in Hobs by lia. rewrite take_ge in Hact by lia.
  by rewrite app_nil_r, Hc.
Qed.

End RolloutProperties.

(** ** The processed batch, evaluation and what a completed run needs *)

#[local] Open Scope nat_scope.

Lemma tflat_length {A : Type} (shape : list nat) (d : nat) (t : tensor A d) :
  has_shape shape d t = true → length (tflat d t) = foldr Nat.mul 1 shape.
Proof.
  revert shape t. induction d as [|d IH]; intros shape t.
  - by destruct shape.
  - change (list (tensor A d)) in t. destruct shape as [|n shape]; [done|].
    rewrite has_shape_cons. intros [<- Hrows]. cbn [tflat foldr].
    induction t as [|r t IHt]; [done|].
    cbn [mbind list_bind length]. rewrite length_app.
    rewrite (IH shape r (Hrows 0 r eq_refl)).
    change (foldr (λ x, app (tflat d x)) [] t) with (t ≫= tflat d).
    rewrite IHt; [lia|]. intros i r' Hi. by apply (Hrows (S i)).
Qed.

Section EvalProperties.
Context {Obj W : Type}.
Variable h : ∀ X : Type, @Ext Obj X → W → Result X * W.

#[local] Ltac run_step H :=
  cbv beta zeta in H;
  apply run_bind_Ok in H as (? & ? & ? & ? & ? & H & ->).

#[local] Ltac run_lift H name :=
  cbv beta zeta in H;
  let Hl := fresh "Hl" in
  apply run_bind_Ok in H as (? & ? & ? & ? & Hl & H & ->);
  apply run_lift_Ok in Hl as (name & -> & ->).

(** X11. With one of the four reward functions, the batch of a completed
    [generate_and_process_batch] carries one return per done flag:
    [returns] and [dones] both have num_steps * n_envs entries. *)
Theorem generate_and_process_batch_sizes (multienv : @MultiEnv Obj) (policy : Obj)
    (reward_fn : gmap string (tensor Qc 2) → Result (AnyTensor 2))
    (discount : Qc) (num_steps : nat) (device : Obj) (w w' : W)
    (c : list Event) (batch : Batch) :
  reward_fn ∈ [naive_reward_fn 2; moe_reward_fn 2; biased_moe_reward_fn 2;
               true_reward_fn 2] →
  run h (generate_and_process_batch multienv policy reward_fn discount
           num_steps device) w = (Ok batch, w', c) →
  length (batch_returns batch) = num_steps * n_envs multienv ∧
  length (batch_dones batch) = num_steps * n_envs multienv.
Proof.
  intros Hf Hrun.
  apply generate_and_process_batch_returns in Hrun
    as (dones & rewards & returns & Hdones & Hinfos & Hrw & Hscan & -> & ->).
  pose proof (reward_fn_shape 2 _ _ _ _ Hf Hinfos Hrw) as Hshape.
  destruct (scan_shape 1 discount num_steps [n_envs multienv]
              (times_1_0 2 rewards) dones Hshape Hdones)
    as (returns' & Hscan' & Hshape' & _).
  rewrite Hscan in Hscan'. injection Hscan' as <-.
  rewrite (tflat_length [num_steps; n_envs multienv] 2 returns Hshape').
  rewrite (tflat_length [num_steps; n_envs multienv] 2 dones Hdones).
  cbn [foldr]. lia.
Qed.

(** Statistics exist only for a dictionary whose oversight tensor has an
    entry. *)
Lemma get_end_stats_Ok_entry (d : nat) (info : gmap string (tensor Qc d))
    (st : EndStats) :
  get_end_stats d info = Ok st →
  ∃ (o : tensor Qc d) (ix : list nat) (v : Qc),
    info !! "oversight" = Some o ∧ tget d o ix = Some v ∧ v ≠ (-1)%Qc.
Proof.
  intros Hst.
  apply get_end_stats_Ok_inv in Hst as (o & rd & rg & ns & Ho & _ & _ & _ & Hnz & _).
  apply count_complete_nonzero in Hnz as (ix & v & Hv & Hne). by exists o, ix, v.
Qed.

(** The statistics of a completed batch exist only if it has a step. *)
Lemma batch_stats_steps (multienv : @MultiEnv Obj) (policy : Obj)
    (reward_fn : gmap string (tensor Qc 2) → Result (AnyTensor 2))
    (discount : Qc) (num_steps : nat) (device : Obj) (w w' : W)
    (c : list Event) (batch : Batch) (st : EndStats) :
  run h (generate_and_process_batch multienv policy reward_fn discount
           num_steps device) w = (Ok batch, w', c) →
  get_end_stats 2 (batch_infos batch) = Ok st →
  0 < num_steps.
Proof.
  intros Hrun Hst.
  apply generate_and_process_batch_returns in Hrun
    as (dones & rewards & returns & _ & Hinfos & _).
  apply get_end_stats_Ok_entry in Hst as (o & ix & v & Ho & Hv & _).
  apply Hinfos in Ho.
  assert (Hix : Forall2 lt ix [num_steps; n_envs multienv]).
  { apply (has_shape_tget _ 2 o ix Ho). by eexists. }
  inversion Hix; subst. lia.
Qed.

Lemma eval_Ok_steps (policy : Obj) (env_kwargs : gmap string (@PyVal Obj))
    (num_env_steps : @PyVal Obj)
    (reward_fn : gmap string (tensor Qc 2) → Result (AnyTensor 2))
    (discount : Qc) (device : Obj) (w w' : W) (c : list Event)
    (metrics : list (string * @PyVal Obj)) :
  run h (eval policy env_kwargs num_env_steps reward_fn discount device) w
    = (Ok metrics, w', c) →
  (∃ z : Z, num_env_steps = PyInt z ∧ (0 < z)%Z) ∧
  ("device" ∉ dom env_kwargs) ∧
  (metrics.*1) = ["reached_diamond_seen"; "reached_ghost_seen";
                "reached_diamond_unseen"; "reached_ghost_unseen";
                "n_complete_eps"; "complete_ep_len"; "avg_return"].
Proof.
  unfold eval. intros H. run_step H. run_lift H Hsize. run_step H.
  run_lift H Hst. apply run_Ret in H as (-> & _ & _).
  split; [|split; [|done]].
  - unfold as_size in Hsize. destruct num_env_steps as [|z| | | | |]; try done.
    case_bool_decide; [|done]. injection Hsize as <-.
    exists z. split; [done|].
    match goal with
    | Hb : run h (generate_and_process_batch _ _ _ _ _ _) _ = _ |- _ =>
        pose proof (batch_stats_steps _ _ _ _ _ _ _ _ _ _ _ Hb Hst)
    end. lia.
  - match goal with
    | He : run h (make_env _ _) _ = _ |- _ => unfold make_env in He
    end.
    by case_bool_decide.
Qed.

(** X12. [eval] completes only when its step count is a positive int and
    "device" is not a key of env_kwargs (with no step the batch has no
    complete episode and get_end_stats divides by zero); its result lists
    the six statistics of get_end_stats followed by avg_return. *)
Theorem eval_requirements (policy : Obj) (env_kwargs : gmap string (@PyVal Obj))
    (num_env_steps : @PyVal Obj)
    (reward_fn : gmap string (tensor Qc 2) → Result (AnyTensor 2))
    (discount : Qc) (device : Obj) (w w' : W) (c : list Event)
    (metrics : list (string * @PyVal Obj)) :
  run h (eval policy env_kwargs num_env_steps reward_fn discount device) w
    = (Ok metrics, w', c) →
  (∃ z : Z, num_env_steps = PyInt z ∧ (0 < z)%Z) ∧
  ("device" ∉ dom env_kwargs) ∧
  (metrics.*1) = ["reached_diamond_seen"; "reached_ghost_seen";
                "reached_diamond_unseen"; "reached_ghost_unseen";
                "n_complete_eps"; "complete_ep_len"; "avg_return"] ∧
  ∃ n : Z, (0 < n)%Z ∧ ("n_complete_eps", PyInt n) ∈ metrics.
Proof.
  intros Hrun. destruct (eval_Ok_steps _ _ _ _ _ _ _ _ _ _ Hrun) as (Hz & Hdev & Hkeys).
  repeat (split; [done|]).
  unfold eval in Hrun. run_step Hrun. run_lift Hrun Hsize. run_step Hrun.
  run_lift Hrun Hst. apply run_Ret in Hrun as (-> & _ & _).
  match goal with
  | Hs : get_end_stats 2 _ = Ok ?st |- _ => exists (n_complete_eps st); split
  end.
  - apply get_end_stats_Ok_inv in Hst as (o & _ & _ & _ & _ & _ & _ & _ & Hnz & -> & _).
    pose proof (count_nonneg 2 (ne_scalar 2 o (-1))). lia.
  - unfold stats_items. rewrite elem_of_app. left.
    do 4 apply list_elem_of_further. apply list_elem_of_here.
Qed.

End EvalProperties.

(** ** What a completed run of train needs *)

#[local] Open Scope Qc_scope.

Section TrainRequirements.
Context {Obj W : Type}.
Variable h : ∀ X : Type, @Ext Obj X → W → Result X * W.
Variables (steps_per_learning_update : nat)
  (num_learning_updates eval_freq policy_log_freq : Z) (discount : Qc)
  (loss_coefs : list (string * @Coef Obj))
  (learning_rate expert_weight_decay shared_weight_decay : Qc)
  (policy_network_constructor : Obj)
  (reward_fn_to_train_on : gmap string (tensor Qc 2) → Result (AnyTensor 2))
  (loss_getter_fn : Obj) (env_kwargs : gmap string (@PyVal Obj))
  (save_dir policy_visualization_dir run_label : string)
  (device : option Obj) (gpus_to_restrict_to : option (list Z))
  (run_id : option (string + Z)) (time_to_sleep_after_run : Qc).

#[local] Ltac run_step H :=
  cbv beta zeta in H;
  apply run_bind_Ok in H as (? & ? & ? & ? & ? & H & ->).

#[local] Ltac run_lift H name :=
  cbv beta zeta in H;
  let Hl := fresh "Hl" in
  apply run_bind_Ok in H as (? & ? & ? & ? & Hl & H & ->);
  apply run_lift_Ok in Hl as (name & -> & ->).

#[local] Ltac run_keep H name :=
  cbv beta zeta in H;
  apply run_bind_Ok in H as (? & ? & ? & ? & name & H & ->).

Lemma py_mod_Ok (a b r : Z) : py_mod a b = Ok r → b ≠ 0%Z ∧ r = (a `mod` b)%Z.
Proof. unfold py_mod. case_bool_decide; [done|]. by intros [= <-]. Qed.

(** The first update of a completed loop: what it needs of the arguments. *)
Lemma train_update_requirements (rid : string + Z) (dev : Obj) (env : @MultiEnv Obj)
    (policy value_fn optimizer : Obj) (eval_policies : list (string * Obj))
    (st st' : @TrainState Obj) (w w' : W) (c : list Event) :
  eval_policies ≠ [] →
  run h (train_update steps_per_learning_update num_learning_updates eval_freq
           policy_log_freq discount loss_coefs reward_fn_to_train_on
           loss_getter_fn env_kwargs policy_visualization_dir rid dev env
           policy value_fn optimizer eval_policies st 0) w = (Ok st', w', c) →
  steps_per_learning_update ≠ 0%nat ∧ eval_freq ≠ 0%Z ∧ policy_log_freq ≠ 0%Z ∧
  is_Some (env_kwargs !! "n_envs") ∧
  ∃ z : Z, env_kwargs !! "max_step" = Some (PyInt z) ∧ (0 < z)%Z.
Proof.
  intros Hpol H. unfold train_update in H.
  run_step H. run_keep H Hbatch. run_step H. run_step H.
  cbv beta zeta in H.
  match type of H with
  | run _ (let '(_, _) := ?p in _) _ = _ => destruct p as [loss batch_metrics]
  end.
  do 4 run_step H. run_lift H Hn. run_lift H Hinc. run_lift H Hgs.
  run_lift H Hstats. run_lift H Hmod. run_keep H Heval. run_lift H Hmod'.
  apply py_mod_Ok in Hmod as [Hfreq ->]. apply py_mod_Ok in Hmod' as [Hfreq' _].
  split; [|split; [done|split; [done|split]]].
  - pose proof (batch_stats_steps h _ _ _ _ _ _ _ _ _ _ _ Hbatch Hstats). lia.
  - unfold kwarg in Hn. destruct (env_kwargs !! "n_envs"); [by eexists|done].
  - rewrite Z.mod_0_l in Heval by done. cbn [orb bool_decide] in Heval.
    rewrite bool_decide_eq_true_2 in Heval by done. cbn [orb] in Heval.
    destruct eval_policies as [|labelled rest]; [done|]. cbn [for_prog] in Heval.
    run_keep Heval Hone. unfold eval_one in Hone.
    run_lift Hone Hmax. run_keep Hone Hev.
    apply (eval_Ok_steps h) in Hev as ((z & -> & Hz) & _).
    unfold kwarg in Hmax. destruct (env_kwargs !! "max_step") as [v|]; [|done].
    injection Hmax as ->. by exists z.
Qed.

(** X13. A completed run of train had a discount in [0, 1], no "device"
    key and an "oversight_prob" key in env_kwargs; and if it made at least
    one update, then steps_per_learning_update, eval_freq and
    policy_log_freq were not 0, env_kwargs had an "n_envs" key, and its
    "max_step" was a positive int. *)
Theorem train_requirements (w w' : W) (calls : list Event) :
  run h (train steps_per_learning_update num_learning_updates eval_freq
           policy_log_freq discount loss_coefs learning_rate
           expert_weight_decay shared_weight_decay policy_network_constructor
           reward_fn_to_train_on loss_getter_fn env_kwargs save_dir
           policy_visualization_dir run_label device gpus_to_restrict_to
           run_id time_to_sleep_after_run) w = (Ok tt, w', calls) →
  (0 ≤ discount ∧ discount ≤ 1) ∧
  ("device" ∉ dom env_kwargs) ∧
  is_Some (env_kwargs !! "oversight_prob") ∧
  ((0 < num_learning_updates)%Z →
     steps_per_learning_update ≠ 0%nat ∧ eval_freq ≠ 0%Z ∧
     policy_log_freq ≠ 0%Z ∧ is_Some (env_kwargs !! "n_envs") ∧
     ∃ z : Z, env_kwargs !! "max_step" = Some (PyInt z) ∧ (0 < z)%Z).
Proof.
  unfold train. intros H.
  run_keep H Hdisc. run_keep H Hdev. do 8 run_step H. do 9 run_step H.
  cbv beta zeta in H.
  match type of H with
  | run _ (let '(_, _) := ?p in _) _ = _ => destruct p as [expert shared]
  end.
  do 3 run_step H. run_keep H Hpols. run_keep H Hloop.
  unfold py_assert in Hdisc, Hdev.
  split; [|split; [|split]].
  - destruct (bool_decide (0 ≤ discount)) eqn:Hlo; [|done].
    destruct (bool_decide (discount ≤ 1)) eqn:Hhi; [|done].
    by apply bool_decide_eq_true in Hlo, Hhi.
  - by case_bool_decide.
  - unfold persist in H. run_step H. do 4 run_step H. run_lift H Hop.
    unfold kwarg in Hop. destruct (env_kwargs !! "oversight_prob"); [by eexists|done].
  - intros Hn. destruct (Z.to_nat num_learning_updates) as [|m] eqn:Hm; [lia|].
    cbn [seq for_prog] in Hloop. run_keep Hloop Hfirst.
    eapply train_update_requirements; [|exact Hfirst].
    match type of Hpols with
    | run _ (if ?b then _ else _) _ = _ => destruct b
    end.
    + do 2 run_step Hpols. by apply run_Ret in Hpols as (-> & _).
    + by apply run_Ret in Hpols as (-> & _).
Qed.

End TrainRequirements.

(** ** Calls that train can make at all *)

Lemma only_calls_bind {Obj A B : Type} (Q : @Event Obj → Prop) (m : Prog A)
    (f : A → Prog B) :
  only_calls Q m → (∀ a : A, only_calls Q (f a)) → only_calls Q (m ≫= f).
Proof.
  intros Hm Hf. induction m as [a|e|X ev k IH]; [apply Hf|done|].
  change (Call ev k ≫= f) with (Call ev (λ x, k x ≫= f)).
  destruct Hm as [Hev Hk]. split; [done|]. intros x. by apply IH.
Qed.

Lemma only_calls_lift {Obj A : Type} (Q : @Event Obj → Prop) (r : Result A) :
  only_calls Q (lift r).
Proof. by destruct r. Qed.

Lemma only_calls_for_prog {Obj S K : Type} (Q : @Event Obj → Prop)
    (body : S → K → Prog S) (ks : list K) (s : S) :
  (∀ (s' : S) (k : K), only_calls Q (body s' k)) → only_calls Q (for_prog body ks s).
Proof.
  intros Hbody. revert s. induction ks as [|k ks IH]; intros s; [done|].
  cbn [for_prog]. by apply only_calls_bind.
Qed.

(** The calls of a run, completed or not, are among the calls the program
    can make. *)
Lemma run_only_calls {Obj W A : Type} (h : ∀ X : Type, @Ext Obj X → W → Result X * W)
    (Q : @Event Obj → Prop) (p : Prog A) (w : W) :
  only_calls Q p → Forall Q (run h p w).2.
Proof.
  revert w. induction p as [a|e|X ev k IH]; intros w Hp; [constructor..|].
  destruct Hp as [Hev Hk]. cbn [run]. destruct (h X ev w) as [[x|e] w1].
  - specialize (IH x w1 (Hk x)). destruct (run h (k x) w1) as [[r w2] c].
    by constructor.
  - by repeat constructor.
Qed.

#[local] Ltac head_of t :=
  lazymatch t with
  | ?f _ => head_of f
  | _ => t
  end.

#[local] Ltac walk solve_event :=
  repeat (cbv beta zeta;
    lazymatch goal with
    | |- only_calls _ (mbind _ _) => apply only_calls_bind; [|intros ?]
    | |- only_calls _ (call _) => split; [solve_event|intros; exact I]
    | |- only_calls _ (lift _) => apply only_calls_lift
    | |- only_calls _ (Ret _) => exact I
    | |- only_calls _ (Throw _) => exact I
    | |- only_calls _ (for_prog _ _ _) => apply only_calls_for_prog; intros ? ?
    | |- only_calls _ (match ?x with _ => _ end) => destruct x
    | |- only_calls _ ?p => let f := head_of p in unfold f
    end).

Section TrainCalls.
Context {Obj W : Type}.
Variable h : ∀ X : Type, @Ext Obj X → W → Result X * W.
Variables (steps_per_learning_update : nat)
  (num_learning_updates eval_freq policy_log_freq : Z) (discount : Qc)
  (loss_coefs : list (string * @Coef Obj))
  (learning_rate expert_weight_decay shared_weight_decay : Qc)
  (policy_network_constructor : Obj)
  (reward_fn_to_train_on : gmap string (tensor Qc 2) → Result (AnyTensor 2))
  (loss_getter_fn : Obj) (env_kwargs : gmap string (@PyVal Obj))
  (save_dir policy_visualization_dir run_label : string)
  (device : option Obj) (gpus_to_restrict_to : option (list Z))
  (run_id : option (string + Z)) (time_to_sleep_after_run : Qc).


(** X15. A run of train that is given a run id never draws one with
    np.random.choice, and a run that is given a device never asks for the
    GPU with most memory, prints it or reserves memory on it. *)
Theorem train_uses_given_run_id_and_device (w : W) :
  (is_Some run_id →
   Forall (λ e, ¬ draws_run_id e)
     (run h (train steps_per_learning_update num_learning_updates eval_freq
               policy_log_freq discount loss_coefs learning_rate
               expert_weight_decay shared_weight_decay policy_network_constructor
               reward_fn_to_train_on loss_getter_fn env_kwargs save_dir
               policy_visualization_dir run_label device gpus_to_restrict_to
               run_id time_to_sleep_after_run) w).2) ∧
  (is_Some device →
   Forall (λ e, ¬ picks_gpu e)
     (run h (train steps_per_learning_update num_learning_updates eval_freq
               policy_log_freq discount loss_coefs learning_rate
               expert_weight_decay shared_weight_decay policy_network_constructor
               reward_fn_to_train_on loss_getter_fn env_kwargs save_dir
               policy_visualization_dir run_label device gpus_to_restrict_to
               run_id time_to_sleep_after_run) w).2).
Proof.
  split.
  - intros [r ->]. apply run_only_calls. walk ltac:(by intros []).
  - intros [dv ->]. apply run_only_calls. walk ltac:(by intros []).
Qed.

End TrainCalls.

(** ** One optimizer step per update *)

Lemma run_filter_nil {Obj W A : Type} (h : ∀ X : Type, @Ext Obj X → W → Result X * W)
    (f : @Event Obj → bool) (p : Prog A) (w w' : W) (r : Result A)
    (c : list Event) :
  only_calls (λ e, f e = false) p → run h p w = (r, w', c) → List.filter f c = [].
Proof.
  intros Hp Hrun. pose proof (run_only_calls h _ p w Hp) as Hall.
  rewrite Hrun in Hall. cbn [snd] in Hall.
  clear Hrun. induction Hall as [|e c He _ IH]; [done|].
  cbn [List.filter]. rewrite He. exact IH.
Qed.

Section OptimizerSteps.
Context {Obj W : Type}.
Variable h : ∀ X : Type, @Ext Obj X → W → Result X * W.
Variables (steps_per_learning_update : nat)
  (num_learning_updates eval_freq policy_log_freq : Z) (discount : Qc)
  (loss_coefs : list (string * @Coef Obj))
  (learning_rate expert_weight_decay shared_weight_decay : Qc)
  (policy_network_constructor : Obj)
  (reward_fn_to_train_on : gmap string (tensor Qc 2) → Result (AnyTensor 2))
  (loss_getter_fn : Obj) (env_kwargs : gmap string (@PyVal Obj))
  (save_dir policy_visualization_dir run_label : string)
  (device : option Obj) (gpus_to_restrict_to : option (list Z))
  (run_id : option (string + Z)) (time_to_sleep_after_run : Qc).

#[local] Ltac run_keep H :=
  cbv beta zeta in H;
  apply run_bind_Ok in H as (? & ? & ? & ? & ? & H & ->).

(** Every piece of a run that cannot step the optimizer contributes no
    optimizer step. *)
#[local] Ltac silent_pieces :=
  repeat match goal with
    | Hi : run h _ _ = (_, _, _) |- _ =>
        apply (run_filter_nil h is_optimizer_step) in Hi; [|by walk ltac:(done)]
    end.

#[local] Ltac count_steps :=
  rewrite ?List.filter_app;
  repeat match goal with
    | F : List.filter is_optimizer_step _ = [] |- _ => rewrite ?F; clear F
    end.

Lemma train_update_one_step (rid : string + Z) (dev : Obj) (env : @MultiEnv Obj)
    (policy value_fn optimizer : Obj) (eval_policies : list (string * Obj))
    (st st' : @TrainState Obj) (idx : nat) (w w' : W) (c : list Event) :
  run h (train_update steps_per_learning_update num_learning_updates eval_freq
           policy_log_freq discount loss_coefs reward_fn_to_train_on
           loss_getter_fn env_kwargs policy_visualization_dir rid dev env
           policy value_fn optimizer eval_policies st idx) w = (Ok st', w', c) →
  length (List.filter is_optimizer_step c) = 1%nat.
Proof.
  unfold train_update. intros H.
  do 4 run_keep H.
  cbv beta zeta in H.
  match type of H with
  | run _ (let '(_, _) := ?p in _) _ = _ => destruct p as [loss batch_metrics]
  end.
  do 2 run_keep H.
  cbv beta zeta in H.
  let Hc := fresh "Hopt" in
  apply run_bind_Ok in H as (? & ? & ? & ? & Hc & H & ->);
  apply run_call_Ok in Hc as ->.
  do 9 run_keep H. apply run_Ret in H as (_ & _ & ->).
  silent_pieces. count_steps. done.
Qed.

(** X16. A completed run of train has stepped the optimizer exactly once
    per update: the number of [optimizer.step()] calls is
    num_learning_updates (none when that is not positive). *)
Theorem train_optimizer_steps (w w' : W) (calls : list Event) :
  run h (train steps_per_learning_update num_learning_updates eval_freq
           policy_log_freq discount loss_coefs learning_rate
           expert_weight_decay shared_weight_decay policy_network_constructor
           reward_fn_to_train_on loss_getter_fn env_kwargs save_dir
           policy_visualization_dir run_label device gpus_to_restrict_to
           run_id time_to_sleep_after_run) w = (Ok tt, w', calls) →
  length (List.filter is_optimizer_step calls) = Z.to_nat num_learning_updates.
Proof.
  unfold train. intros H.
  do 19 run_keep H.
  cbv beta zeta in H.
  match type of H with
  | run _ (let '(_, _) := ?p in _) _ = _ => destruct p as [expert shared]
  end.
  do 4 run_keep H.
  cbv beta zeta in H.
  let Hl := fresh "Hloop" in
  apply run_bind_Ok in H as (? & ? & ? & ? & Hl & H & ->).
  apply (run_for_prog_seq h _
           (λ i _ c, length (List.filter is_optimizer_step c) = i)) with (c := [])
    in Hloop; [| |done].
  2:{ intros i s s' w0 w0' c c' Hc Hbody. apply train_update_one_step in Hbody.
      rewrite List.filter_app, length_app. lia. }
  cbn [app Nat.add] in Hloop.
  silent_pieces. count_steps. by rewrite app_nil_r.
Qed.

End OptimizerSteps.

(** ** Playing one episode *)

#[local] Open Scope nat_scope.

Section EpisodeProperties.
Context {Obj W : Type}.
Variable h : ∀ X : Type, @EpisodeExt Obj X → W → Result X * W.

Lemma ep_run_bind {A B : Type} (m : Episode A) (f : A → Episode B) (w : W) :
  ep_run h (m ≫= f) w =
    match ep_run h m w with
    | (Ok a, w1, c1) => let '(r, w2, c2) := ep_run h (f a) w1 in (r, w2, c1 ++ c2)
    | (Raise e, w1, c1) => (Raise e, w1, c1)
    end.
Proof.
  revert w. induction m as [a|e|X ev k IH]; intros w.
  - cbn. by destruct (ep_run h (f a) w) as [[r w2] c2].
  - done.
  - change (EpCall ev k ≫= f) with (EpCall ev (λ x, k x ≫= f)). cbn [ep_run].
    destruct (h X ev w) as [[x|e] w1]; [|done].
    rewrite IH. destruct (ep_run h (k x) w1) as [[[a|e] w2] c1]; [|done].
    by destruct (ep_run h (f a) w2) as [[r w3] c2].
Qed.

Lemma ep_run_bind_Ok {A B : Type} (m : Episode A) (f : A → Episode B) (w w' : W)
    (b : B) (calls : list (@EpisodeEvent Obj)) :
  ep_run h (m ≫= f) w = (Ok b, w', calls) →
  ∃ (a : A) (w1 : W) (c1 c2 : list EpisodeEvent),
    ep_run h m w = (Ok a, w1, c1) ∧ ep_run h (f a) w1 = (Ok b, w', c2) ∧
    calls = c1 ++ c2.
Proof.
  rewrite ep_run_bind. destruct (ep_run h m w) as [[[a|e] w1] c1]; [|done].
  destruct (ep_run h (f a) w1) as [[r w2] c2] eqn:Hf. intros [= -> -> <-].
  by exists a, w1, c1, c2.
Qed.

Lemma ep_run_call_Ok {X : Type} (ev : EpisodeExt X) (w w' : W) (x : X)
    (calls : list (@EpisodeEvent Obj)) :
  ep_run h (ep_call ev) w = (Ok x, w', calls) →
  h X ev w = (Ok x, w') ∧ calls = [ep_event ev].
Proof.
  unfold ep_call. cbn [ep_run]. destruct (h X ev w) as [[x'|e] w1]; [|done].
  by intros [= -> -> <-].
Qed.

Lemma ep_run_lift_Ok {A : Type} (r : Result A) (w w' : W) (a : A)
    (calls : list (@EpisodeEvent Obj)) :
  ep_run h (ep_lift r) w = (Ok a, w', calls) → r = Ok a ∧ w' = w ∧ calls = [].
Proof. destruct r; cbn; [by intros [= -> -> <-]|done]. Qed.

Lemma ep_run_Ret {A : Type} (a a' : A) (w w' : W) (calls : list (@EpisodeEvent Obj)) :
  ep_run h (EpRet a) w = (Ok a', w', calls) → a' = a ∧ w' = w ∧ calls = [].
Proof. by intros [= -> -> <-]. Qed.

#[local] Ltac ep_step H :=
  cbv beta zeta in H;
  apply ep_run_bind_Ok in H as (? & ? & ? & ? & ? & H & ->).

#[local] Ltac ep_keep H name :=
  cbv beta zeta in H;
  apply ep_run_bind_Ok in H as (? & ? & ? & ? & name & H & ->).

(** What a completed iteration did last: it stepped the environment, and
    the flag it hands on is the first done flag of that step. *)
Lemma episode_step_last (env policy : Obj) (render : bool) (value_fn : option Obj)
    (obs obs' : tensor Qc 2) (info : gmap string (tensor Qc 1)) (done : Qc)
    (w w' : W) (calls : list EpisodeEvent) :
  ep_run h (episode_step env policy render value_fn obs) w
    = (Ok (obs', info, done), w', calls) →
  ∃ (a : tensor Z 1) (w0 : W) (dones : tensor Qc 1) (before : list EpisodeEvent),
    h _ (EpStep env a) w0 = (Ok (obs', info, dones), w') ∧
    dones !! 0 = Some done ∧
    calls = before ++ [ep_event (EpStep env a)].
Proof.
  unfold episode_step. intros H. ep_step H. ep_step H.
  cbv beta zeta in H. ep_keep H Hstep.
  match type of H with
  | ep_run _ (let '(_, _) := ?p in _) _ = _ => destruct p as [[o i] dones]
  end.
  ep_keep H Hdone. apply ep_run_lift_Ok in Hdone as (Hdone & -> & ->).
  apply ep_run_Ret in H as ([= -> -> ->] & -> & ->).
  apply ep_run_call_Ok in Hstep as [Hstep ->].
  eexists _, _, dones, _. split; [exact Hstep|]. split.
  - unfold getrow in Hdone. case_match eqn:Hv; [|done]. injection Hdone as ->. exact Hv.
  - by rewrite !app_nil_r, app_assoc.
Qed.

Lemma episode_loop_last (fuel : nat) (env policy : Obj) (render : bool)
    (value_fn : option Obj) :
  ∀ (obs : tensor Qc 2) (info : gmap string (tensor Qc 1)) (w w' : W)
    (calls : list EpisodeEvent),
    ep_run h (episode_loop fuel env policy render value_fn obs) w
      = (Ok (Some info), w', calls) →
    ∃ (a : tensor Z 1) (w0 : W) (obs' : tensor Qc 2) (dones : tensor Qc 1)
      (done : Qc) (before : list EpisodeEvent),
      h _ (EpStep env a) w0 = (Ok (obs', info, dones), w') ∧
      dones !! 0 = Some done ∧ done ≠ 0%Qc ∧
      calls = before ++ [ep_event (EpStep env a)].
Proof.
  induction fuel as [|fuel IH]; intros obs info w w' calls; [done|].
  cbn [episode_loop]. intros H. ep_keep H Hstep.
  match type of H with
  | ep_run _ (let '(_, _) := ?p in _) _ = _ => destruct p as [[obs' info'] done]
  end.
  case_bool_decide as Hdone.
  - apply ep_run_Ret in H as ([= ->] & -> & ->).
    apply episode_step_last in Hstep as (a & w0 & dones & before & Hh & Hd & ->).
    exists a, w0, obs', dones, done, before. by rewrite app_nil_r.
  - apply IH in H as (a & w0 & obs'' & dones & done' & before & Hh & Hd & Hne & ->).
    eexists a, w0, obs'', dones, done', _. repeat (split; [done|]).
    by rewrite app_assoc.
Qed.

(** X17. When [play_episode] returns, the last thing it did was the
    environment step that ended the episode: that step's first done flag
    was not zero, no call follows it, and the result maps every key of
    that step's info to the first entry of its tensor. *)
Theorem play_episode_result (fuel : nat) (env policy : Obj) (render : bool)
    (value_fn : option Obj) (w w' : W) (calls : list EpisodeEvent)
    (result : gmap string Qc) :
  ep_run h (play_episode fuel env policy render value_fn) w
    = (Ok (Some result), w', calls) →
  ∃ (a : tensor Z 1) (w0 : W) (obs' : tensor Qc 2)
    (info : gmap string (tensor Qc 1)) (dones : tensor Qc 1) (done : Qc),
    h _ (EpStep env a) w0 = (Ok (obs', info, dones), w') ∧
    dones !! 0 = Some done ∧ done ≠ 0%Qc ∧
    last calls = Some (ep_event (EpStep env a)) ∧
    ∀ (key : string) (v : Qc),
      result !! key = Some v ↔
      ∃ t : tensor Qc 1, info !! key = Some t ∧ t !! 0 = Some v.
Proof.
  unfold play_episode. intros H. ep_step H.
  cbv beta zeta in H.
  match type of H with
  | ep_run _ (let '(_, _) := ?p in _) _ = _ => destruct p as [obs info0]
  end.
  ep_keep H Hloop.
  match type of H with
  | ep_run _ (match ?l with _ => _ end) _ = _ => destruct l as [info|]
  end.
  2:{ by apply ep_run_Ret in H as ([=] & _). }
  ep_keep H Hfirst. apply ep_run_lift_Ok in Hfirst as (Hfirst & -> & ->).
  apply ep_run_Ret in H as ([= ->] & -> & ->).
  apply episode_loop_last in Hloop
    as (a & w0 & obs' & dones & done & before & Hh & Hd & Hne & ->).
  exists a, w0, obs', info, dones, done. repeat (split; [done|]). split.
  - by rewrite !app_nil_r, app_assoc, last_snoc.
  - unfold first_entries in Hfirst. case_decide as Hall; [|done].
    injection Hfirst as <-. intros key v. rewrite lookup_omap.
    change (tensor Qc 1) with (list Qc) in *.
    destruct (info !! key) as [t|] eqn:Ht; cbn.
    + split.
      * intros Hv. exists t. split; [done|]. by destruct t.
      * intros (t' & [= <-] & Hv). by destruct t.
    + split; [done|]. by intros (t' & [=] & _).
Qed.

(** A completed loop that does not render made one policy call and one
    environment step per iteration, at most [fuel] of them: all [fuel] when
    the loop was still running, at least one when it ended. *)
Lemma episode_loop_quiet (fuel : nat) (env policy : Obj) (value_fn : option Obj) :
  ∀ (obs : tensor Qc 2) (last : option (gmap string (tensor Qc 1))) (w w' : W)
    (calls : list EpisodeEvent),
    ep_run h (episode_loop fuel env policy false value_fn obs) w
      = (Ok last, w', calls) →
    ∃ steps : list (tensor Qc 2 * tensor Z 1),
      calls = steps ≫= quiet_step_calls env policy ∧
      length steps ≤ fuel ∧
      (last = None → length steps = fuel) ∧
      (is_Some last → 1 ≤ length steps).
Proof.
  induction fuel as [|fuel IH]; intros obs last w w' calls.
  - intros H. apply ep_run_Ret in H as (-> & _ & ->). exists [].
    split; [done|]. split; [done|]. split; [done|]. by intros [? [=]].
  - cbn [episode_loop]. intros H. ep_keep H Hstep.
    match type of H with
    | ep_run _ (let '(_, _) := ?p in _) _ = _ => destruct p as [[obs' info'] done]
    end.
    assert (Hcalls : ∃ a : tensor Z 1,
              x1 = quiet_step_calls env policy (obs, a)).
    { unfold episode_step, show_step in Hstep. ep_step Hstep.
      match goal with
      | Hs : ep_run h (EpRet _) _ = _ |- _ => apply ep_run_Ret in Hs as (_ & _ & ->)
      end.
      ep_keep Hstep Hsample. apply ep_run_call_Ok in Hsample as [_ ->].
      cbv beta zeta in Hstep. ep_keep Hstep Hs. apply ep_run_call_Ok in Hs as [_ ->].
      match type of Hstep with
      | ep_run _ (let '(_, _) := ?p in _) _ = _ => destruct p as [[o i] dones]
      end.
      ep_keep Hstep Hd. apply ep_run_lift_Ok in Hd as (_ & _ & ->).
      apply ep_run_Ret in Hstep as (_ & _ & ->). by eexists. }
    destruct Hcalls as [a ->].
    case_bool_decide as Hdone.
    + apply ep_run_Ret in H as (-> & _ & ->). exists [(obs, a)].
      cbn. split; [done|]. split; [lia|]. split; [done|lia].
    + apply IH in H as (steps & -> & Hle & Hnone & Hsome).
      exists ((obs, a) :: steps). cbn [length mbind list_bind].
      split; [done|]. split; [lia|]. split; [|lia].
      intros Hl. rewrite (Hnone Hl). done.
Qed.

(** X18. Without rendering, a completed [play_episode] resets the
    environment once and then only alternates a policy call and an
    environment step, [n] times with [n <= fuel]: never a render, value or
    print call; [n >= 1] when it returns a result (the loop body runs
    before the done flag is first looked at), and [n = fuel] when the loop
    was still running. *)
Theorem play_episode_quiet (fuel : nat) (env policy : Obj) (value_fn : option Obj)
    (w w' : W) (calls : list EpisodeEvent) (result : option (gmap string Qc)) :
  ep_run h (play_episode fuel env policy false value_fn) w
    = (Ok result, w', calls) →
  ∃ steps : list (tensor Qc 2 * tensor Z 1),
    calls = ep_event (EpReset env) :: (steps ≫= quiet_step_calls env policy) ∧
    length steps ≤ fuel ∧
    (result = None → length steps = fuel) ∧
    (is_Some result → 1 ≤ length steps).
Proof.
  unfold play_episode. intros H. ep_keep H Hreset.
  apply ep_run_call_Ok in Hreset as [_ ->].
  cbv beta zeta in H.
  match type of H with
  | ep_run _ (let '(_, _) := ?p in _) _ = _ => destruct p as [obs info0]
  end.
  ep_keep H Hloop.
  apply episode_loop_quiet in Hloop as (steps & -> & Hle & Hnone & Hsome).
  exists steps.
  match type of H with
  | ep_run _ (match ?l with _ => _ end) _ = _ => destruct l as [info|]
  end.
  - ep_keep H Hfirst. apply ep_run_lift_Ok in Hfirst as (_ & _ & ->).
    apply ep_run_Ret in H as (-> & _ & ->).
    rewrite !app_nil_r. split; [done|]. split; [done|]. split; [done|].
    intros _. apply Hsome. by eexists.
  - apply ep_run_Ret in H as (-> & _ & ->). rewrite app_nil_r.
    split; [done|]. split; [done|]. split; [by intros _; apply Hnone|].
    by intros [? [=]].
Qed.

End EpisodeProperties.

(** ** The properties above at the example worlds *)

Lemma generate_batch_result_shapes_witness :
  ∃ (obs : tensor Qc 3) (actions : tensor Z 2) (dones : tensor Qc 2)
    (infos : gmap string (tensor Qc 2)) (w' : nat) (c : list (@Event nat)),
    run toy_world (generate_batch toy_env 0%nat 2%nat 0%nat) 0%nat
      = (Ok (obs, actions, dones, infos), w', c) ∧
    has_shape [2%nat; n_envs toy_env; features toy_env] 3 obs = true ∧
    has_shape [2%nat; n_envs toy_env] 2 actions = true ∧
    has_shape [2%nat; n_envs toy_env] 2 dones = true.
Proof.
  destruct toy_rollout_completes as ([[[obs actions] dones] infos] & w' & c & Hrun).
  exists obs, actions, dones, infos, w', c. split; [exact Hrun|].
  pose proof (generate_batch_result_shapes toy_world _ _ _ _ _ _ _ _ _ _ _ Hrun)
    as (Ho & Ha & Hd & _).
  exact (conj Ho (conj Ha Hd)).
Defined.

Lemma generate_batch_calls_witness :
  ∃ (obs : tensor Qc 3) (actions : tensor Z 2) (dones : tensor Qc 2)
    (infos : gmap string (tensor Qc 2)) (w' : nat) (c : list (@Event nat))
    (steps : list (tensor Qc 2 * tensor Z 1)),
    run toy_world (generate_batch toy_env 0%nat 2%nat 0%nat) 0%nat
      = (Ok (obs, actions, dones, infos), w', c) ∧
    length steps = 2%nat ∧
    c = event (EnvGetObs (env_handle toy_env)) :: (steps ≫= step_calls toy_env 0%nat) ∧
    obs = steps.*1 ∧ actions = steps.*2.
Proof.
  destruct toy_rollout_completes as ([[[obs actions] dones] infos] & w' & c & Hrun).
  destruct (generate_batch_calls toy_world _ _ _ _ _ _ _ _ _ _ _ Hrun)
    as (steps & Hsteps).
  exists obs, actions, dones, infos, w', c, steps. exact (conj Hrun Hsteps).
Defined.

Lemma generate_and_process_batch_sizes_witness :
  ∃ (batch : Batch) (w' : nat) (c : list (@Event nat)),
    run toy_world (generate_and_process_batch toy_env 0%nat (naive_reward_fn 2)
                     (Q2Qc (9 # 10)) 2%nat 0%nat) 0%nat = (Ok batch, w', c) ∧
    length (batch_returns batch) = (2 * n_envs toy_env)%nat ∧
    length (batch_dones batch) = (2 * n_envs toy_env)%nat.
Proof.
  destruct toy_batch_completes as (batch & w' & c & Hrun).
  exists batch, w', c. split; [exact Hrun|].
  apply (generate_and_process_batch_sizes toy_world _ _ _ _ _ _ _ _ _ _
           ltac:(apply list_elem_of_here) Hrun).
Defined.

Lemma eval_requirements_witness :
  ∃ (metrics : list (string * @PyVal nat)) (w' : nat) (c : list (@Event nat)),
    run toy_world (eval 0%nat toy_kwargs (PyInt 2) (naive_reward_fn 2)
                     (Q2Qc (9 # 10)) 0%nat) 0%nat = (Ok metrics, w', c) ∧
    (metrics.*1) = ["reached_diamond_seen"; "reached_ghost_seen";
                    "reached_diamond_unseen"; "reached_ghost_unseen";
                    "n_complete_eps"; "complete_ep_len"; "avg_return"] ∧
    ∃ n : Z, (0 < n)%Z ∧ ("n_complete_eps", PyInt n) ∈ metrics.
Proof.
  destruct toy_eval_completes as (metrics & w' & c & Hrun).
  exists metrics, w', c. split; [exact Hrun|].
  pose proof (eval_requirements toy_world _ _ _ _ _ _ _ _ _ _ Hrun)
    as (_ & _ & Hkeys & Hn).
  exact (conj Hkeys Hn).
Defined.

Lemma train_requirements_witness :
  ("device" ∉ dom toy_kwargs) ∧
  is_Some (toy_kwargs !! "oversight_prob") ∧
  ∃ z : Z, toy_kwargs !! "max_step" = Some (PyInt z) ∧ (0 < z)%Z.
Proof.
  pose proof (train_requirements toy_world 2 1 1 1 (Q2Qc (9 # 10))
     [("entropy", CoefConst (PyFloat 0)); ("value", CoefFn (λ i, PyInt i))]
     (Q2Qc (1 # 1000)) 0 0 0%nat (naive_reward_fn 2) 0%nat toy_kwargs
     "out" "viz" "label" None None None 0 0%nat 61%nat toy_calls toy_run)
    as (_ & Hdev & Hov & Hup).
  destruct (Hup ltac:(reflexivity)) as (_ & _ & _ & _ & Hmax).
  exact (conj Hdev (conj Hov Hmax)).
Defined.

Lemma train_optimizer_steps_witness :
  length (List.filter is_optimizer_step toy_calls) = 1%nat.
Proof.
  exact (train_optimizer_steps toy_world 2 1 1 1 (Q2Qc (9 # 10))
     [("entropy", CoefConst (PyFloat 0)); ("value", CoefFn (λ i, PyInt i))]
     (Q2Qc (1 # 1000)) 0 0 0%nat (naive_reward_fn 2) 0%nat toy_kwargs
     "out" "viz" "label" None None None 0 0%nat 61%nat toy_calls toy_run).
Defined.

Lemma play_episode_result_witness :
  ∃ (result : gmap string Qc) (w' : nat) (calls : list (@EpisodeEvent nat))
    (a : tensor Z 1),
    ep_run toy_episode_world (play_episode 5 0%nat 1%nat true (Some 2%nat)) 0%nat
      = (Ok (Some result), w', calls) ∧
    last calls = Some (ep_event (EpStep 0%nat a)).
Proof.
  destruct (toy_episode_completes 5 true (Some 2%nat) ltac:(lia))
    as (result & w' & c & Hrun).
  destruct (play_episode_result toy_episode_world _ _ _ _ _ _ _ _ _ Hrun)
    as (a & w0 & obs' & info & dones & flag & _ & _ & _ & Hlast & _).
  exists result, w', c, a. exact (conj Hrun Hlast).
Defined.

Lemma play_episode_quiet_witness :
  ∃ (result : gmap string Qc) (w' : nat) (calls : list (@EpisodeEvent nat))
    (steps : list (tensor Qc 2 * tensor Z 1)),
    ep_run toy_episode_world (play_episode 5 0%nat 1%nat false None) 0%nat
      = (Ok (Some result), w', calls) ∧
    calls = ep_event (EpReset 0%nat) :: (steps ≫= quiet_step_calls 0%nat 1%nat) ∧
    (1 ≤ length steps ≤ 5)%nat.
Proof.
  destruct (toy_episode_completes 5 false None ltac:(lia))
    as (result & w' & c & Hrun).
  destruct (play_episode_quiet toy_episode_world _ _ _ _ _ _ _ _ Hrun)
    as (steps & Hc & Hle & _ & Hsome).
  exists result, w', c, steps.
  exact (conj Hrun (conj Hc (conj (Hsome (ex_intro _ result eq_refl)) Hle))).
Defined.
